(** * poopoobar: a terminal progress bar

    A shallow embedding of the TypeScript sources
    [src/humanize.ts], [src/eta-tracker.ts], [src/cursor-util.ts] and
    [src/progress-bar.ts], followed by the properties of the
    humanizers, of the sliding-window queue, of the ETA tracker and of
    the [start]/[tick]/[stop]/[refresh] state machine. *)

From Stdlib Require Import ZArith QArith Qabs Qround Lqa String Ascii Lia Bool.
From stdpp Require Import base tactics option list gmap.

Local Open Scope string_scope.
Local Open Scope Z_scope.

(** ** The JavaScript values the program computes with

    A JavaScript [number] is modelled by its exact value: [NaN], the two
    infinities, or a rational.  All IEEE special cases that the program
    can meet (division by zero, [0/0], comparisons with [NaN]) are
    written out.  Three things are not modelled:
    - binary rounding: the program rounds a quotient or a product that
      is not representable before it goes on, so that a [Math.floor]
      that follows can give the next integer ([1.7999999999999998 * 10]
      is 18 in the program and below 18 here);
    - the sign of zero: a quotient by a zero that the program computed
      as [-0] is minus infinity there and plus infinity here, which
      takes a negative dividend or divisor before;
    - exponent notation: integers are printed with all their digits, as
      the program prints them below 1e21.
    The properties below are about lengths, signs, special values and
    integers up to [MAX_SAFE_INTEGER], on which the two agree, or say
    where they need more. *)
Module JS.

Inductive number : Type :=
| NaN
| Infinity (negative : bool)
| Fin (q : Q).

Definition num (z : Z) : number := Fin (inject_Z z).

Definition POSITIVE_INFINITY : number := Infinity false.

(** [Number.MAX_SAFE_INTEGER]: up to it every integer is a number, the
    sum of two integers is exact and [String] prints every digit. *)
Definition MAX_SAFE_INTEGER : Z := 2 ^ 53 - 1.

Definition Qltb (a b : Q) : bool := negb (Qle_bool b a).

(** [a === b] on numbers. *)
Definition seq (a b : number) : bool :=
  match a, b with
  | Fin x, Fin y => Qeq_bool x y
  | Infinity s, Infinity t => Bool.eqb s t
  | _, _ => false
  end.

(** [a < b] on numbers; any comparison with [NaN] is false. *)
Definition lt (a b : number) : bool :=
  match a, b with
  | NaN, _ | _, NaN => false
  | Fin x, Fin y => Qltb x y
  | Infinity s, Infinity t => s && negb t
  | Infinity s, Fin _ => s
  | Fin _, Infinity t => negb t
  end.

Definition gt (a b : number) : bool := lt b a.

Definition add (a b : number) : number :=
  match a, b with
  | NaN, _ | _, NaN => NaN
  | Fin x, Fin y => Fin (x + y)%Q
  | Infinity s, Infinity t => if Bool.eqb s t then Infinity s else NaN
  | Infinity s, Fin _ => Infinity s
  | Fin _, Infinity t => Infinity t
  end.

Definition sub (a b : number) : number :=
  match a, b with
  | NaN, _ | _, NaN => NaN
  | Fin x, Fin y => Fin (x - y)%Q
  | Infinity s, Infinity t => if Bool.eqb s t then NaN else Infinity s
  | Infinity s, Fin _ => Infinity s
  | Fin _, Infinity t => Infinity (negb t)
  end.

(** The exact product; the program rounds it to the nearest number. *)
Definition mul (a b : number) : number :=
  match a, b with
  | NaN, _ | _, NaN => NaN
  | Fin x, Fin y => Fin (x * y)%Q
  | Infinity s, Infinity t => Infinity (xorb s t)
  | Infinity s, Fin y | Fin y, Infinity s =>
      if Qeq_bool y 0 then NaN else Infinity (xorb s (Qltb y 0))
  end.

(** Division: a finite non-zero dividend over zero is an infinity, zero
    over zero is [NaN], a finite dividend over an infinity is zero.  A
    finite quotient is exact, where the program rounds it to the nearest
    number, and the zero divisor is taken as [+0]. *)
Definition div (a b : number) : number :=
  match a, b with
  | NaN, _ | _, NaN => NaN
  | Fin x, Fin y =>
      if Qeq_bool y 0
      then (if Qeq_bool x 0 then NaN else Infinity (Qltb x 0))
      else Fin (x / y)%Q
  | Infinity s, Infinity t => NaN
  | Infinity s, Fin y => Infinity (xorb s (Qltb y 0))
  | Fin _, Infinity _ => Fin 0
  end.

(** Truncation of a rational towards zero. *)
Definition Qtrunc (x : Q) : Z := if Qltb x 0 then Qceiling x else Qfloor x.

(** [a % b]: the remainder has the sign of the dividend. *)
Definition rem (a b : number) : number :=
  match a, b with
  | Fin x, Fin y =>
      if Qeq_bool y 0 then NaN else Fin (x - y * inject_Z (Qtrunc (x / y)))%Q
  | Fin x, Infinity _ => Fin x
  | _, _ => NaN
  end.

Definition Math_floor (a : number) : number :=
  match a with
  | Fin x => Fin (inject_Z (Qfloor x))
  | _ => a
  end.

(** [Math.round] rounds half-way cases towards plus infinity. *)
Definition Math_round (a : number) : number :=
  match a with
  | Fin x => Fin (inject_Z (Qfloor (x + (1 # 2))%Q))
  | _ => a
  end.

Definition Number_isInteger (a : number) : bool :=
  match a with
  | Fin x => Qeq_bool x (inject_Z (Qfloor x))
  | _ => false
  end.

(** The integer a number denotes once [Number_isInteger] has accepted it. *)
Definition to_Z (a : number) : Z :=
  match a with
  | Fin x => Qfloor x
  | _ => 0
  end.

(** *** Strings *)

Definition digit_char (d : Z) : ascii := ascii_of_nat (48 + Z.to_nat d).

Fixpoint digits_aux (fuel : nat) (n : Z) (acc : string) : string :=
  match fuel with
  | O => acc
  | S f =>
      if n <? 10 then String (digit_char n) acc
      else digits_aux f (n / 10) (String (digit_char (n mod 10)) acc)
  end.

(** Decimal digits of a non-negative integer. *)
Definition digits (n : Z) : string :=
  digits_aux (S (Z.to_nat (Z.log2 n))) n "".

(** [String(n)] for an integer. *)
(** [n.toString()] of an integer: all its digits, as the program
    prints an integer below 1e21. *)
Definition String_Z (n : Z) : string :=
  if n <? 0 then "-" ++ digits (- n) else digits n.

(** Digits after the decimal point of a rational in [[0,1)], as long as
    the expansion has not ended. *)
Fixpoint frac_digits (fuel : nat) (r : Q) : string :=
  match fuel with
  | O => ""
  | S f =>
      if Qeq_bool r 0 then ""
      else
        let d := Qfloor (r * 10)%Q in
        String (digit_char d) (frac_digits f (r * 10 - inject_Z d)%Q)
  end.

Definition String_Q (x : Q) : string :=
  let a := Qabs x in
  let i := Qfloor a in
  let r := (a - inject_Z i)%Q in
  (if Qltb x 0 then "-" else "")
    ++ digits i
    ++ (if Qeq_bool r 0 then "" else "." ++ frac_digits 20 r).

(** [String(a)], also what a template literal [`${a}`] inserts.  Exact
    for the integers below 1e21 and for their tenths. *)
Definition String_ (a : number) : string :=
  match a with
  | NaN => "NaN"
  | Infinity false => "Infinity"
  | Infinity true => "-Infinity"
  | Fin x => String_Q x
  end.

Definition two_digits (n : Z) : string :=
  String (digit_char (n / 10)) (String (digit_char (n mod 10)) "").

(** [a.toFixed(2)]: the integer [n] for which [n / 100] is closest to the
    value is chosen, the larger one on a tie; values of magnitude 1e21
    and above and non-finite values fall back to [String(a)]. *)
Definition toFixed2 (a : number) : string :=
  match a with
  | Fin x =>
      if Qle_bool (inject_Z (10 ^ 21)) (Qabs x) then String_ a
      else
        let n := Qfloor (Qabs x * 100 + (1 # 2))%Q in
        (if Qltb x 0 then "-" else "")
          ++ digits (n / 100) ++ "." ++ two_digits (n mod 100)
  | _ => String_ a
  end.

Fixpoint string_repeat (s : string) (n : nat) : string :=
  match n with
  | O => ""
  | S k => s ++ string_repeat s k
  end.

(** [s.padStart(n, ' ')] and [s.padStart(n)]. *)
Definition padStart (s : string) (n : Z) : string :=
  string_repeat " " (Z.to_nat (n - Z.of_nat (String.length s))) ++ s.

(** *** Exceptions *)

Inductive exn : Type :=
| TypeError (message : string)
| RangeError (message : string)
| Error (message : string).

(** How a call ends: with a value, or with a thrown exception. *)
Inductive completion (A : Type) : Type :=
| Return (a : A)
| Throw (e : exn).
Arguments Return {A} a.
Arguments Throw {A} e.

(** [s.repeat(count)]: the count is truncated to an integer, [NaN]
    counts as zero, a negative or infinite count is a [RangeError]. *)
Definition String_repeat (s : string) (count : number) : completion string :=
  match count with
  | NaN => Return ""
  | Infinity _ => Throw (RangeError "Invalid count value")
  | Fin q =>
      let n := Qtrunc q in
      if n <? 0 then Throw (RangeError "Invalid count value")
      else Return (string_repeat s (Z.to_nat n))
  end.

End JS.

(** ** src/humanize.ts *)
Module Humanize.
Import JS.

(** The tenths are those of the exact [f * 10]; the program takes the
    floor of the rounded product. *)
Definition floorToOneDecimal (f : number) : string :=
  String_ (div (Math_floor (mul f (num 10))) (num 10)).

Definition twoChar (n : number) : string :=
  if lt n (num 10) then String_ n else " " ++ String_ n.

Definition humanizeSpeed (speed : number) : string :=
  if seq speed (num 0) then "0 bps"
  else if lt speed (num 1000) then toFixed2 speed ++ " bps"
  else if lt speed (num (1000 * 1000)) then
    floorToOneDecimal (div speed (num 1000)) ++ " kbps"
  else if lt speed (num (1000 * 1000 * 1000)) then
    floorToOneDecimal (div speed (num (1000 * 1000))) ++ " mbps"
  else if lt speed (num (1000 * 1000 * 1000 * 1000)) then
    floorToOneDecimal (div speed (num (1000 * 1000 * 1000))) ++ " gbps"
  else if lt speed (num (1000 * 1000 * 1000 * 1000 * 100)) then
    String_ (Math_floor (div speed (num (1000 * 1000 * 1000)))) ++ " gbps"
  else "99999 gbps".

Definition humanizeDuration (duration : number) : string :=
  if seq duration (num 0) then "done"
  else if seq POSITIVE_INFINITY duration then "--"
  else
    let duration := Math_round duration in
    if lt duration (num 60) then String_ duration ++ "s"
    else if lt duration (num (60 * 60)) then
      let second := rem duration (num 60) in
      let minute := div (sub duration second) (num 60) in
      String_ minute ++ "m" ++ twoChar second ++ "s"
    else if lt duration (num (60 * 60 * 100)) then
      let minute := rem (Math_floor (div duration (num 60))) (num 60) in
      let hour := Math_floor (div duration (num (60 * 60))) in
      String_ hour ++ "h" ++ twoChar minute ++ "m"
    else if lt duration (num (60 * 60 * 24 * 100)) then
      let hour := rem (Math_floor (div duration (num (60 * 60)))) (num 24) in
      let day := Math_floor (div duration (num (60 * 60 * 24))) in
      String_ day ++ "d" ++ twoChar hour ++ "h"
    else if lt duration (num (60 * 60 * 24 * 100000)) then
      let day := Math_floor (div duration (num (60 * 60 * 24))) in
      String_ day ++ "d"
    else "99999d".

End Humanize.

(** ** src/eta-tracker.ts *)
Module EtaTracker.
Import JS.

Section Queue.
Context {T : Type}.

(** A FIFO with a fixed capacity, kept in a ring buffer. *)
Record Queue : Type := mkQueue {
  capacity : nat;
  content : list T;
  index : nat
}.

Definition Queue_new (capacity : number) : completion Queue :=
  if negb (Number_isInteger capacity) then
    Throw (TypeError "capacity must be an integer")
  else if lt capacity (num 1) then
    Throw (Error "capacity must be at least 1")
  else
    Return {| capacity := Z.to_nat (to_Z capacity); content := []; index := 0 |}.

(** [this.content[this.index] = element] is a list update; the index is
    below the length whenever the branch is taken (lemma
    [push_invariant]), so the array is never extended by the
    assignment. *)
Definition push (element : T) (q : Queue) : Queue :=
  if (length (content q) =? capacity q)%nat then
    {| capacity := capacity q;
       content := <[index q := element]> (content q);
       index := if (S (index q) =? capacity q)%nat then 0%nat else S (index q) |}
  else
    {| capacity := capacity q;
       content := content q ++ [element];
       index := index q |}.

(** [undefined] is [None]. *)
Definition oldest (q : Queue) : option T := content q !! index q.

(** The retained elements, oldest first. *)
Definition retained (q : Queue) : list T :=
  drop (index q) (content q) ++ take (index q) (content q).

End Queue.
Arguments Queue T : clear implicits.

Record Sample : Type := mkSample { progress : Z; time : Z }.

Record Estimate : Type := mkEstimate { eta : number; speed : number }.

Record EtaTracker : Type := mkEtaTracker { slidingWindow : Queue Sample }.

(** The constructor; [now] is what [Date.now()] returns. *)
Definition EtaTracker_new (slidingWindowWidth : number) (now : Z)
  : completion EtaTracker :=
  match Queue_new slidingWindowWidth with
  | Throw e => Throw e
  | Return q =>
      Return {| slidingWindow := push {| progress := 0; time := now |} q |}
  end.

(** [total === currentProgress] where [total] may be [null]. *)
Definition total_is (total : option Z) (currentProgress : Z) : bool :=
  match total with
  | Some t => t =? currentProgress
  | None => false
  end.

(** [currentTime] is what [Date.now()] returns.  Reading a field of the
    [undefined] oldest record of an empty window is a [TypeError]. *)
Definition updateProgressAndGetLatestEta
    (currentTime : Z) (currentProgress : Z) (total : option Z) (t : EtaTracker)
  : completion (Estimate * EtaTracker) :=
  match oldest (slidingWindow t) with
  | None => Throw (TypeError "Cannot read properties of undefined")
  | Some oldestRecord =>
      let timeElapsed := currentTime - time oldestRecord in
      let progressElapsed := currentProgress - progress oldestRecord in
      let speed := div (mul (num progressElapsed) (num 1000)) (num timeElapsed) in
      let eta :=
        if total_is total currentProgress then num 0
        else match total with
             | None => POSITIVE_INFINITY
             | Some total => div (num (total - currentProgress)) speed
             end in
      Return ({| eta := eta; speed := speed |},
              {| slidingWindow :=
                   push {| progress := currentProgress; time := currentTime |}
                        (slidingWindow t) |})
  end.

End EtaTracker.

(** ** The host: terminal stream, clock, timers and process listeners *)
Module Host.
Import JS.

(** What reaches the [tty.WriteStream], in order. *)
Inductive TermOp : Type :=
| Write (text : string)
| CursorTo (x : Z) (y : option Z)
| ClearLine (dir : Z)
| MoveCursor (dx dy : Z).

Inductive ProcessEvent : Type := SIGINT | EXIT.

#[global] Instance ProcessEvent_eq_dec : EqDecision ProcessEvent.
Proof. solve_decision. Defined.

Record Host : Type := mkHost {
  stream_isTTY : bool;
  columns : Z;
  rows : Z;
  written : list TermOp;
  (** [Date.now()] *)
  clock : Z;
  (** handles of the intervals that are armed *)
  intervals : gset nat;
  next_handle : nat;
  stdin_flowing : bool;
  listeners : list ProcessEvent;
  (** [process.env.TERM_PROGRAM === 'Apple_Terminal'] *)
  isMac : bool
}.

Definition emit (op : TermOp) (h : Host) : Host :=
  {| stream_isTTY := stream_isTTY h; columns := columns h; rows := rows h;
     written := written h ++ [op];
     clock := clock h; intervals := intervals h; next_handle := next_handle h;
     stdin_flowing := stdin_flowing h; listeners := listeners h;
     isMac := isMac h |}.

Definition arm_interval (h : Host) : Host :=
  {| stream_isTTY := stream_isTTY h; columns := columns h; rows := rows h;
     written := written h;
     clock := clock h;
     intervals := {[ next_handle h ]} ∪ intervals h;
     next_handle := S (next_handle h);
     stdin_flowing := stdin_flowing h; listeners := listeners h;
     isMac := isMac h |}.

Definition disarm_interval (t : nat) (h : Host) : Host :=
  {| stream_isTTY := stream_isTTY h; columns := columns h; rows := rows h;
     written := written h;
     clock := clock h;
     intervals := intervals h ∖ {[ t ]};
     next_handle := next_handle h;
     stdin_flowing := stdin_flowing h; listeners := listeners h;
     isMac := isMac h |}.

Definition set_process (flowing : bool) (ls : list ProcessEvent) (h : Host) : Host :=
  {| stream_isTTY := stream_isTTY h; columns := columns h; rows := rows h;
     written := written h;
     clock := clock h; intervals := intervals h; next_handle := next_handle h;
     stdin_flowing := flowing; listeners := ls;
     isMac := isMac h |}.

(** Time passing between two calls. *)
Definition set_clock (now : Z) (h : Host) : Host :=
  {| stream_isTTY := stream_isTTY h; columns := columns h; rows := rows h;
     written := written h;
     clock := now; intervals := intervals h; next_handle := next_handle h;
     stdin_flowing := stdin_flowing h; listeners := listeners h;
     isMac := isMac h |}.

(** The terminal being resized between two calls. *)
Definition set_columns (width : Z) (h : Host) : Host :=
  {| stream_isTTY := stream_isTTY h; columns := width; rows := rows h;
     written := written h;
     clock := clock h; intervals := intervals h; next_handle := next_handle h;
     stdin_flowing := stdin_flowing h; listeners := listeners h;
     isMac := isMac h |}.

(** [removeListener] removes the most recently added registration. *)
Fixpoint remove_last (e : ProcessEvent) (ls : list ProcessEvent) : list ProcessEvent :=
  match ls with
  | [] => []
  | x :: rest =>
      if bool_decide (e ∈ rest) then x :: remove_last e rest
      else if bool_decide (x = e) then rest
      else x :: rest
  end.

End Host.

(** ** src/progress-bar.ts and src/cursor-util.ts *)
Module ProgressBar.
Import JS Humanize EtaTracker Host.

Definition C_PROCESSED_BAR : string := "#".
Definition C_UNPROCESSED_BAR : string := "-".
Definition C_COLUMN_SEPARATOR : string := "|".

Definition MIN_BAR_WIDTH : Z := 16.

Record Options : Type := mkOptions {
  width : option number;
  opt_clearAfterStop : option bool;
  bottom : option bool;
  opt_tryNotToBlink : option bool
}.

Inductive BarState : Type := READY | RUNNING | STOPPED.

#[global] Instance BarState_eq_dec : EqDecision BarState.
Proof. solve_decision. Defined.

(** The fields of the class.  [total], [_progress] and the fixed width
    only ever hold numbers that [Number.isInteger] accepted, and are kept
    as integers. *)
Record ProgressBar : Type := mkProgressBar {
  isTTY : bool;
  drawAtBottom : bool;
  tryNotToBlink : bool;
  fixedOutputWidth : option Z;
  _progress : Z;
  total : Z;
  clearAfterStop : bool;
  state : BarState;
  etaUpdateInterval : option nat;
  etaCalculator : option EtaTracker;
  latestEta : option Estimate
}.

Definition set_progress (v : Z) (b : ProgressBar) : ProgressBar :=
  {| isTTY := isTTY b; drawAtBottom := drawAtBottom b;
     tryNotToBlink := tryNotToBlink b; fixedOutputWidth := fixedOutputWidth b;
     _progress := v; total := total b; clearAfterStop := clearAfterStop b;
     state := state b; etaUpdateInterval := etaUpdateInterval b;
     etaCalculator := etaCalculator b; latestEta := latestEta b |}.

Definition set_state (v : BarState) (b : ProgressBar) : ProgressBar :=
  {| isTTY := isTTY b; drawAtBottom := drawAtBottom b;
     tryNotToBlink := tryNotToBlink b; fixedOutputWidth := fixedOutputWidth b;
     _progress := _progress b; total := total b; clearAfterStop := clearAfterStop b;
     state := v; etaUpdateInterval := etaUpdateInterval b;
     etaCalculator := etaCalculator b; latestEta := latestEta b |}.

Definition set_etaUpdateInterval (v : option nat) (b : ProgressBar) : ProgressBar :=
  {| isTTY := isTTY b; drawAtBottom := drawAtBottom b;
     tryNotToBlink := tryNotToBlink b; fixedOutputWidth := fixedOutputWidth b;
     _progress := _progress b; total := total b; clearAfterStop := clearAfterStop b;
     state := state b; etaUpdateInterval := v;
     etaCalculator := etaCalculator b; latestEta := latestEta b |}.

Definition set_etaCalculator (v : option EtaTracker) (b : ProgressBar) : ProgressBar :=
  {| isTTY := isTTY b; drawAtBottom := drawAtBottom b;
     tryNotToBlink := tryNotToBlink b; fixedOutputWidth := fixedOutputWidth b;
     _progress := _progress b; total := total b; clearAfterStop := clearAfterStop b;
     state := state b; etaUpdateInterval := etaUpdateInterval b;
     etaCalculator := v; latestEta := latestEta b |}.

Definition set_latestEta (v : option Estimate) (b : ProgressBar) : ProgressBar :=
  {| isTTY := isTTY b; drawAtBottom := drawAtBottom b;
     tryNotToBlink := tryNotToBlink b; fixedOutputWidth := fixedOutputWidth b;
     _progress := _progress b; total := total b; clearAfterStop := clearAfterStop b;
     state := state b; etaUpdateInterval := etaUpdateInterval b;
     etaCalculator := etaCalculator b; latestEta := v |}.

(** The bar object together with everything it reaches. *)
Record World : Type := mkWorld { bar : ProgressBar; host : Host }.

(** Calls run on a world and end in a value or an exception; what was
    mutated before a [throw] stays mutated. *)
Definition M (A : Type) : Type := World -> completion A * World.

#[global] Instance M_ret : MRet M := λ A a w, (Return a, w).

#[global] Instance M_bind : MBind M := λ A B k m w,
  match m w with
  | (Return a, w') => k a w'
  | (Throw e, w') => (Throw e, w')
  end.

Definition throw {A : Type} (e : exn) : M A := λ w, (Throw e, w).

Definition lift {A : Type} (c : completion A) : M A := λ w, (c, w).

Definition this : M ProgressBar := λ w, (Return (bar w), w).

Definition assign (f : ProgressBar -> ProgressBar) : M unit :=
  λ w, (Return tt, {| bar := f (bar w); host := host w |}).

Definition process : M Host := λ w, (Return (host w), w).

Definition effect (f : Host -> Host) : M unit :=
  λ w, (Return tt, {| bar := bar w; host := f (host w) |}).

(** *** The stream and timer primitives *)

Definition output_write (text : string) : M unit := effect (emit (Write text)).
Definition output_cursorTo (x : Z) (y : option Z) : M unit := effect (emit (CursorTo x y)).
Definition output_clearLine (dir : Z) : M unit := effect (emit (ClearLine dir)).
Definition output_moveCursor (dx dy : Z) : M unit := effect (emit (MoveCursor dx dy)).

Definition Date_now : M Z := h ← process; mret (clock h).

Definition setInterval : M nat :=
  h ← process; effect arm_interval;; mret (next_handle h).

Definition clearInterval (t : option nat) : M unit :=
  match t with
  | None => mret tt
  | Some t => effect (disarm_interval t)
  end.

(** *** src/cursor-util.ts *)

Definition ESC : string := String (ascii_of_nat 27) "[".
Definition cursorHide : string := ESC ++ "?25l".
Definition cursorShow : string := ESC ++ "?25h".
Definition cursorSave (isMac : bool) : string :=
  if isMac then String (ascii_of_nat 27) "7" else ESC ++ "s".
Definition cursorRestore (isMac : bool) : string :=
  if isMac then String (ascii_of_nat 27) "8" else ESC ++ "u".

Definition hideCursor : M unit :=
  output_write cursorHide;;
  effect (λ h, set_process true (listeners h ++ [SIGINT; EXIT]) h).

Definition showCursor : M unit :=
  effect (λ h, set_process false (remove_last SIGINT (remove_last EXIT (listeners h))) h);;
  output_write cursorShow.

(** *** class ProgressBar *)

Definition ProgressBar_new (total : number) (options : Options) (stream : Host)
  : completion ProgressBar :=
  if negb (Number_isInteger total) then Throw (TypeError "total must be an integer")
  else if lt total (num 1) then Throw (Error "total must be at least 1")
  else
    match
      match width options with
      | Some w =>
          if negb (Number_isInteger w) then Some (TypeError "width must be an integer")
          else if lt w (num MIN_BAR_WIDTH) then Some (Error "width must be at least 16")
          else None
      | None => None
      end
    with
    | Some e => Throw e
    | None =>
        if default false (bottom options)
           && match opt_clearAfterStop options with
              | Some c => negb c
              | None => false
              end
        then Throw (Error "clearAfterStop must be true if bottom is true")
        else
          let drawAtBottom := default false (bottom options) in
          Return {| isTTY := stream_isTTY stream;
                    drawAtBottom := drawAtBottom;
                    tryNotToBlink := default false (opt_tryNotToBlink options);
                    fixedOutputWidth := to_Z <$> width options;
                    _progress := 0;
                    total := to_Z total;
                    clearAfterStop := default drawAtBottom (opt_clearAfterStop options);
                    state := READY;
                    etaUpdateInterval := None;
                    etaCalculator := None;
                    latestEta := None |}
    end.

Definition outputWidth : M Z :=
  b ← this; h ← process;
  mret (default (columns h) (fixedOutputWidth b)).

Definition draw (output : string) : M unit :=
  b ← this;
  if drawAtBottom b then
    h ← process;
    output_write (cursorSave (isMac h));;
    output_cursorTo 0 (Some (rows h - 1));;
    output_write output;;
    w ← outputWidth;
    (if Z.of_nat (String.length output) <? w then output_clearLine 1 else mret tt);;
    output_write (cursorRestore (isMac h))
  else
    output_cursorTo 0 None;;
    output_write output;;
    w ← outputWidth;
    (if Z.of_nat (String.length output) <? w then output_clearLine 1 else mret tt).

(** The variables of [refresh] that its closure
    [renderBarSectionAndThenDraw] reads. *)
Record Sections : Type := mkSections {
  remainingWidth : Z;
  progressAndTotalSection : string;
  percentageSection : string;
  etaSection : string;
  speedSection : string
}.

Definition renderBarSectionAndThenDraw (completeRatio : number) (v : Sections) : M unit :=
  let barWidth := MIN_BAR_WIDTH + remainingWidth v - 2 in
  let processCharCount := Math_floor (mul (num barWidth) completeRatio) in
  let unprocessedCharCount := sub (num barWidth) processCharCount in
  processed ← lift (String_repeat C_PROCESSED_BAR processCharCount);
  unprocessed ← lift (String_repeat C_UNPROCESSED_BAR unprocessedCharCount);
  let bar := "[" ++ processed ++ unprocessed ++ "]" in
  draw (bar ++ progressAndTotalSection v ++ percentageSection v
            ++ etaSection v ++ speedSection v);;
  b ← this;
  if total b =? _progress b then clearInterval (etaUpdateInterval b) else mret tt.

(** [this.etaCalculator.updateProgressAndGetLatestEta(this._progress,
    this.total)]; calling a method of [undefined] is a [TypeError]. *)
Definition computeLatestEta : M Estimate :=
  b ← this;
  match etaCalculator b with
  | None => throw (TypeError "Cannot read properties of undefined")
  | Some calculator =>
      now ← Date_now;
      r ← lift (updateProgressAndGetLatestEta now (_progress b) (Some (total b)) calculator);
      assign (set_etaCalculator (Some r.2));;
      assign (set_latestEta (Some r.1));;
      mret r.1
  end.

Definition refresh : M unit :=
  w ← outputWidth;
  if w <? MIN_BAR_WIDTH then
    s ← lift (String_repeat "#" (num w));
    draw s
  else
    b ← this;
    let remainingWidth := w - MIN_BAR_WIDTH in
    let completeRatio := div (num (_progress b)) (num (total b)) in
    if remainingWidth <? 7 then
      renderBarSectionAndThenDraw completeRatio (mkSections remainingWidth "" "" "" "")
    else
      latestEta ← match latestEta b with
                  | None => computeLatestEta
                  | Some e => mret e
                  end;
      let humanizedDuration := humanizeDuration (eta latestEta) in
      let etaSection := padStart humanizedDuration 7 in
      let remainingWidth := remainingWidth - 7 in
      let progressAndTotalSectionWidth :=
        Z.of_nat (String.length (String_Z (total b))) * 2 + 4 in
      if remainingWidth <? Z.of_nat (String.length (String_Z (total b))) * 2 + 4 then
        renderBarSectionAndThenDraw completeRatio
          (mkSections remainingWidth "" "" etaSection "")
      else
        let progressAndTotalSection :=
          padStart (String_Z (_progress b) ++ "/" ++ String_Z (total b))
                   (Z.of_nat (String.length (String_Z (total b))) * 2 + 2) in
        let etaSection := " " ++ C_COLUMN_SEPARATOR ++ etaSection in
        let remainingWidth := remainingWidth - progressAndTotalSectionWidth in
        if remainingWidth <? 13 then
          renderBarSectionAndThenDraw completeRatio
            (mkSections remainingWidth progressAndTotalSection "" etaSection "")
        else
          let speedSection :=
            " " ++ C_COLUMN_SEPARATOR ++ " "
                ++ padStart (humanizeSpeed (speed latestEta)) 10 in
          let remainingWidth := remainingWidth - 13 in
          if remainingWidth <? 6 then
            renderBarSectionAndThenDraw completeRatio
              (mkSections remainingWidth progressAndTotalSection "" etaSection
                          speedSection)
          else
            let percentage :=
              padStart ("(" ++ String_ (Math_floor (mul completeRatio (num 100))) ++ "%)") 6 in
            let percentageSection := percentage in
            let remainingWidth := remainingWidth - 6 in
            if remainingWidth <? 4 then
              renderBarSectionAndThenDraw completeRatio
                (mkSections remainingWidth progressAndTotalSection percentageSection
                            etaSection speedSection)
            else
              let etaSection :=
                " " ++ C_COLUMN_SEPARATOR ++ " "
                    ++ padStart ("eta " ++ humanizedDuration) 10 in
              let remainingWidth := remainingWidth - 4 in
              renderBarSectionAndThenDraw completeRatio
                (mkSections remainingWidth progressAndTotalSection percentageSection
                            etaSection speedSection).

(** The callback that [start] hands to [setInterval]. *)
Definition etaUpdateCallback : M unit :=
  computeLatestEta;; refresh.

(** A firing of interval [t] by the event loop: nothing runs once the
    interval has been cleared. *)
Definition fire (t : nat) : M unit :=
  h ← process;
  if bool_decide (t ∈ intervals h) then etaUpdateCallback else mret tt.

Definition start : M unit :=
  b ← this;
  if negb (bool_decide (state b = READY)) then throw (Error "cannot start() twice")
  else if negb (isTTY b) then mret tt
  else
    now ← Date_now;
    calculator ← lift (EtaTracker_new (num 120) now);
    assign (set_etaCalculator (Some calculator));;
    t ← setInterval;
    assign (set_etaUpdateInterval (Some t));;
    hideCursor;;
    assign (set_state RUNNING).

(** [message] is the result of [util.format(format, ...optionalParams)]. *)
Definition log (message : string) : M unit :=
  b ← this;
  if negb (isTTY b) || negb (bool_decide (state b = RUNNING)) then
    output_write message;;
    output_write (String (ascii_of_nat 10) "")
  else if drawAtBottom b then
    if tryNotToBlink b then
      output_write (String (ascii_of_nat 10) "");;
      output_moveCursor 0 (-1);;
      output_write message;;
      output_clearLine 1;;
      output_cursorTo 0 None;;
      output_moveCursor 0 1;;
      refresh
    else
      output_write message;;
      output_clearLine 1;;
      output_write (String (ascii_of_nat 10) "");;
      refresh
  else
    if tryNotToBlink b then
      output_write (String (ascii_of_nat 10) "");;
      refresh;;
      output_moveCursor 0 (-1);;
      output_cursorTo 0 None;;
      output_write message;;
      output_clearLine 1;;
      output_moveCursor 0 1
    else
      output_cursorTo 0 None;;
      output_write message;;
      output_clearLine 1;;
      output_write (String (ascii_of_nat 10) "");;
      refresh.

Definition tick (value : number) : M unit :=
  if negb (Number_isInteger value) then throw (TypeError "value must be an integer")
  else if lt value (num 1) then throw (Error "value must be at least 1")
  else
    b ← this;
    if negb (bool_decide (state b = RUNNING)) then
      throw (Error "progress bar is not running")
    else if gt (add (num (_progress b)) value) (num (total b)) then
      throw (Error ("progress " ++ String_ (add (num (_progress b)) value)
                      ++ " exceeds total " ++ String_Z (total b)))
    else if negb (isTTY b) then mret tt
    else
      assign (set_progress (to_Z (add (num (_progress b)) value)));;
      refresh.

Definition stop : M unit :=
  b ← this;
  if bool_decide (state b = READY) then throw (Error "progress bar is not running")
  else if negb (isTTY b) || bool_decide (state b = STOPPED) then mret tt
  else
    clearInterval (etaUpdateInterval b);;
    (if clearAfterStop b then
       if drawAtBottom b then
         h ← process;
         output_write (cursorSave (isMac h));;
         output_cursorTo 0 (Some (rows h - 1));;
         output_clearLine 1;;
         output_write (cursorRestore (isMac h))
       else
         output_cursorTo 0 None;;
         output_clearLine 1
     else
       output_write (String (ascii_of_nat 10) ""));;
    showCursor;;
    assign (set_state STOPPED).

(** The strings written by a list of stream operations. *)
Definition texts (ops : list TermOp) : list string :=
  omap (λ op, match op with Write s => Some s | _ => None end) ops.

End ProgressBar.

(** ** Scenarios and documented behaviour, as definitions *)
Module Scenario.
Import JS Humanize EtaTracker Host ProgressBar.

(** Pushing a list of elements, first element first. *)
Definition push_all {T : Type} (l : list T) (q : Queue T) : Queue T :=
  foldl (λ q e, push e q) q l.

(** What holds of a queue of capacity [C] after the elements of [l] were
    pushed on the empty queue. *)
Definition filled_with {T : Type} (C : nat) (l : list T) (q : Queue T) : Prop :=
  capacity q = C
  ∧ length (content q) = (length l `min` C)%nat
  ∧ (index q < C)%nat
  ∧ ((length l < C)%nat → index q = 0%nat)
  ∧ retained q = drop (length l - C) l.

(** A stream with 80 columns and 24 rows at time 0. *)
Definition stream (tty : bool) : Host :=
  {| stream_isTTY := tty; columns := 80; rows := 24; written := []; clock := 0;
     intervals := ∅; next_handle := 0; stdin_flowing := false; listeners := [];
     isMac := false |}.

(** [new ProgressBar(total, { width })] on [stream tty]; the arguments
    used below pass the constructor's checks. *)
Definition new_bar (total : Z) (width : option Z) (tty : bool) : World :=
  match ProgressBar_new (num total) (mkOptions (num <$> width) None None None) (stream tty) with
  | Return b => mkWorld b (stream tty)
  | Throw _ =>
      mkWorld (mkProgressBar tty false false None 0 total false READY None None None)
              (stream tty)
  end.

(** The world a call leaves behind. *)
Definition after {A : Type} (m : M A) (w : World) : World := (m w).2.

(** The clock reaching [now] between two calls. *)
Definition at_time (now : Z) (w : World) : World := after (effect (set_clock now)) w.

(** The terminal being resized to [width] columns between two calls. *)
Definition resized (width : Z) (w : World) : World := after (effect (set_columns width)) w.

(** The last string written to the stream. *)
Definition last_text (w : World) : string :=
  default "" (last (texts (written (host w)))).

(** "A [tick] whose redraw observes [progress == total] does not itself
    cancel the periodic timer." *)
Definition tick_leaves_timer_armed : Prop :=
  ∀ (w w' : World) (value : number) (t : nat),
    etaUpdateInterval (bar w) = Some t →
    t ∈ intervals (host w) →
    tick value w = (Return tt, w') →
    _progress (bar w') = total (bar w') →
    t ∈ intervals (host w').

(** The width the bar is drawn in. *)
Definition width_of (w : World) : Z :=
  default (columns (host w)) (fixedOutputWidth (bar w)).

(** The characters taken by the sections that follow the bar. *)
Definition sections_length (v : Sections) : Z :=
  Z.of_nat (String.length (progressAndTotalSection v))
  + Z.of_nat (String.length (percentageSection v))
  + Z.of_nat (String.length (etaSection v))
  + Z.of_nat (String.length (speedSection v)).

(** [w'] has one more line written to the stream than [w], possibly
    between cursor movements. *)
Definition draws (w w' : World) (line : string) : Prop :=
  ∃ pre post : list TermOp,
    written (host w') = (written (host w) ++ pre ++ Write line :: post)%list.

(** The intervals left armed by a redraw. *)
Definition intervals_after_redraw (b : ProgressBar) (armed : gset nat) : gset nat :=
  if total b =? _progress b then
    match etaUpdateInterval b with
    | Some t => armed ∖ {[ t ]}
    | None => armed
    end
  else armed.

(** The estimate fits the columns reserved for it: six characters for
    the duration and ten for the speed. *)
Definition estimate_fits (e : Estimate) : Prop :=
  (String.length (humanizeDuration (eta e)) ≤ 6)%nat
  ∧ (String.length (humanizeSpeed (speed e)) ≤ 10)%nat.

(** A running bar on a terminal, as [start] leaves it and [tick] keeps
    it. *)
Definition running (w : World) : Prop :=
  state (bar w) = RUNNING
  ∧ isTTY (bar w) = true
  ∧ 1 ≤ total (bar w)
  ∧ 0 ≤ _progress (bar w) ≤ total (bar w)
  ∧ ∃ calculator oldestRecord,
      etaCalculator (bar w) = Some calculator
      ∧ oldest (slidingWindow calculator) = Some oldestRecord.

(** What can happen to a bar once it is constructed: the host program
    calls one of the four methods, the event loop fires an interval, or
    time passes. *)
Inductive Call : Type :=
| call_start
| call_tick (value : number)
| call_stop
| call_log (message : string)
| interval_fires (t : nat)
| time_passes (now : Z).

Definition run_call (c : Call) : M unit :=
  match c with
  | call_start => start
  | call_tick value => tick value
  | call_stop => stop
  | call_log message => log message
  | interval_fires t => fire t
  | time_passes now => effect (set_clock now)
  end.

(** The world after a sequence of calls; a call that throws leaves the
    world as it was when it threw, and the host program goes on. *)
Definition run_calls (cs : list Call) (w : World) : World :=
  foldl (λ w c, after (run_call c) w) w cs.

(** The check of the minutes-and-seconds rendering on one duration. *)
Definition minutes_rendering_ok (d : Z) : bool :=
  String.eqb (humanizeDuration (num d))
             (String_Z (d / 60) ++ "m"
                ++ (if d mod 60 <? 10 then "" else " ") ++ String_Z (d mod 60) ++ "s").

End Scenario.

(** ** Sequences of calls, as definitions *)
Module Usage.
Import JS Humanize EtaTracker Host ProgressBar Scenario.

(** One call of [updateProgressAndGetLatestEta]: what [Date.now()]
    returns, and the two arguments. *)
Record Update : Type := mkUpdate {
  at_ms : Z;
  currentProgress : Z;
  known_total : option Z
}.

(** The sample an update pushes on the window. *)
Definition sample_of (u : Update) : Sample :=
  {| progress := currentProgress u; time := at_ms u |}.

(** The calls of [us] one after the other on the same tracker; the
    estimates come back in the order of the calls. *)
Fixpoint update_all (us : list Update) (t : EtaTracker)
  : completion (list Estimate * EtaTracker) :=
  match us with
  | [] => Return ([], t)
  | u :: rest =>
      match updateProgressAndGetLatestEta (at_ms u) (currentProgress u) (known_total u) t with
      | Throw e => Throw e
      | Return (e, t') =>
          match update_all rest t' with
          | Throw e' => Throw e'
          | Return (es, t'') => Return (e :: es, t'')
          end
      end
  end.

(** [twoChar] on an integer. *)
Definition twoChar_Z (n : Z) : string :=
  if n <? 10 then digits n else " " ++ digits n.

(** What [humanizeDuration] returns for a duration that rounds to [d]
    whole seconds and is not zero itself, in integer arithmetic. *)
Definition rendering (d : Z) : string :=
  if d <? 60 then String_Z d ++ "s"
  else if d <? 60 * 60 then
    digits (d / 60) ++ "m" ++ twoChar_Z (d mod 60) ++ "s"
  else if d <? 60 * 60 * 100 then
    digits (d / (60 * 60)) ++ "h" ++ twoChar_Z ((d / 60) mod 60) ++ "m"
  else if d <? 60 * 60 * 24 * 100 then
    digits (d / (60 * 60 * 24)) ++ "d" ++ twoChar_Z ((d / (60 * 60)) mod 24) ++ "h"
  else if d <? 60 * 60 * 24 * 100000 then
    digits (d / (60 * 60 * 24)) ++ "d"
  else "99999d".

(** What [floorToOneDecimal] returns for a value whose tenfold has floor
    [k]: the integer part, and the tenths when they are not zero. *)
Definition tenths (k : Z) : string :=
  digits (k / 10)
    ++ (if k mod 10 =? 0 then "" else "." ++ String (digit_char (k mod 10)) "").

(** A call keeps [P] when [P] holds of the world it leaves, also when
    it throws. *)
Definition keeps {A : Type} (P : World → Prop) (m : M A) : Prop :=
  ∀ w, P w → P (m w).2.

(** The bar without its tracker and its latest estimate: the fields
    that a redraw does not assign. *)
Definition frame (b : ProgressBar) : ProgressBar :=
  set_latestEta None (set_etaCalculator None b).

(** The one-way order of the states. *)
Definition rank (s : BarState) : Z :=
  match s with
  | READY => 0
  | RUNNING => 1
  | STOPPED => 2
  end.

(** A number that is not negative: [NaN], plus infinity, or a
    non-negative value. *)
Definition not_negative (v : number) : Prop :=
  match v with
  | NaN => True
  | Infinity negative => negative = false
  | Fin q => (0 <= q)%Q
  end.

(** What [draw] writes for a line that is not shorter than the output
    is wide: the line, between saving and restoring the cursor when the
    bar is at the bottom. *)
Definition drawn_texts (b : ProgressBar) (h : Host) (line : string) : list string :=
  if drawAtBottom b then [cursorSave (isMac h); line; cursorRestore (isMac h)]
  else [line].

(** The calls that are neither [start] nor [stop]. *)
Definition between_start_and_stop (c : Call) : Prop :=
  match c with
  | call_start | call_stop => False
  | _ => True
  end.

(** What [start] sets up and [stop] takes down, and what the calls in
    between may only shrink: the listeners, the input stream, the armed
    intervals, and the fields of the bar that say how to stop. *)
Definition set_up (ls : list ProcessEvent) (flowing : bool) (armed : gset nat)
    (b : ProgressBar) (w : World) : Prop :=
  listeners (host w) = ls
  ∧ stdin_flowing (host w) = flowing
  ∧ intervals (host w) ⊆ armed
  ∧ state (bar w) = state b
  ∧ isTTY (bar w) = isTTY b
  ∧ etaUpdateInterval (bar w) = etaUpdateInterval b
  ∧ clearAfterStop (bar w) = clearAfterStop b
  ∧ drawAtBottom (bar w) = drawAtBottom b.

(** What the [log] calls among [cs] print when the bar does not draw:
    each message followed by a line feed. *)
Definition logged (cs : list Call) : list TermOp :=
  flat_map (λ c, match c with
                 | call_log message =>
                     [Write message; Write (String (ascii_of_nat 10) "")]
                 | _ => []
                 end) cs.

(** A complete running bar on a terminal of ten columns, its interval
    still armed. *)
Definition narrow_complete_bar : World :=
  mkWorld (mkProgressBar true false false None 5 5 false RUNNING (Some 0%nat) None None)
          (mkHost true 10 24 [] 0 {[ 0%nat ]} 1 true [SIGINT; EXIT] false).

End Usage.

Import JS Humanize EtaTracker Host ProgressBar Scenario.

(** * Properties *)

(** ** Humanizers *)

(** C4. [humanizeDuration] does not pad a one-digit seconds or minutes
    field: 61 seconds is rendered "1m1s" and 3661 seconds "1h1m", where
    the documented format has "1m 1s" and "1h 1m"; a two-digit field gets
    a space in front and makes the string seven characters long. *)
Theorem humanizeDuration_one_digit_field_unpadded :
  humanizeDuration (num 61) = "1m1s"
  ∧ humanizeDuration (num 3661) = "1h1m"
  ∧ humanizeDuration (num 61) ≠ "1m 1s"
  ∧ humanizeDuration (num 3661) ≠ "1h 1m"
  ∧ twoChar (num 1) = "1"
  ∧ twoChar (num 10) = " 10"
  ∧ humanizeDuration (num 3599) = "59m 59s".
Proof. vm_compute. repeat split; discriminate. Qed.

(** C5. [humanizeSpeed 999.999] is "1000.00 bps", eleven characters:
    below 1000 the value is rounded to two decimals by [toFixed], which
    carries into a fourth integer digit from 999.995 on. *)
Theorem humanizeSpeed_999_999_has_11_characters :
  humanizeSpeed (Fin (999999 # 1000)) = "1000.00 bps"
  ∧ String.length (humanizeSpeed (Fin (999999 # 1000))) = 11%nat
  ∧ lt (num 0) (Fin (999999 # 1000)) = true
  ∧ lt (Fin (999999 # 1000)) (num 1000) = true.
Proof. vm_compute. repeat split. Qed.

(** ** The ETA tracker *)

(** C10. Called in the millisecond of the oldest sample, the tracker
    divides by zero: the speed is [NaN] when the progress equals the
    oldest sample's and plus infinity when it is larger, and
    [humanizeSpeed] prints either as "99999 gbps".  With a total that is
    not reached the ETA is computed from that speed: it is [NaN], printed
    "99999d", respectively 0, printed "done". *)
Theorem updateProgressAndGetLatestEta_same_millisecond
    (currentTime currentProgress : Z) (total : option Z)
    (t : EtaTracker) (oldestRecord : Sample) :
  oldest (slidingWindow t) = Some oldestRecord →
  time oldestRecord = currentTime →
  progress oldestRecord ≤ currentProgress →
  ∃ e t',
    updateProgressAndGetLatestEta currentTime currentProgress total t = Return (e, t')
    ∧ (currentProgress = progress oldestRecord → speed e = NaN)
    ∧ (progress oldestRecord < currentProgress → speed e = POSITIVE_INFINITY)
    ∧ humanizeSpeed (speed e) = "99999 gbps"
    ∧ ∀ total', total = Some total' → total' ≠ currentProgress →
        (currentProgress = progress oldestRecord →
         eta e = NaN ∧ humanizeDuration (eta e) = "99999d")
        ∧ (progress oldestRecord < currentProgress →
           eta e = num 0 ∧ humanizeDuration (eta e) = "done").
Proof.
  intros Hold Htime Hle.
  unfold updateProgressAndGetLatestEta. rewrite Hold, Htime, Z.sub_diag.
  eexists _, _. split; [reflexivity|]. cbn [speed eta].
  assert (Hspeed :
    (currentProgress = progress oldestRecord →
     div (mul (num (currentProgress - progress oldestRecord)) (num 1000)) (num 0) = NaN)
    ∧ (progress oldestRecord < currentProgress →
       div (mul (num (currentProgress - progress oldestRecord)) (num 1000)) (num 0)
       = POSITIVE_INFINITY)).
  { split; intros H.
    - rewrite H, Z.sub_diag. reflexivity.
    - destruct (currentProgress - progress oldestRecord) as [|p|p] eqn:E; try lia.
      reflexivity. }
  destruct Hspeed as [Hnan Hinf].
  split; [exact Hnan|]. split; [exact Hinf|]. split.
  - destruct (Z.eq_dec currentProgress (progress oldestRecord)) as [Heq|Hne].
    + rewrite (Hnan Heq). reflexivity.
    + rewrite (Hinf ltac:(lia)). reflexivity.
  - intros total' -> Hne.
    assert (Htot : total_is (Some total') currentProgress = false)
      by (unfold total_is; apply Z.eqb_neq; exact Hne).
    rewrite Htot. split; intros H.
    + rewrite (Hnan H). split; reflexivity.
    + rewrite (Hinf H). split; reflexivity.
Qed.

Lemma updateProgressAndGetLatestEta_same_millisecond_witness :
  ∃ e t',
    updateProgressAndGetLatestEta 5 3 (Some 10)
      {| slidingWindow := mkQueue 120 [mkSample 0 5] 0 |} = Return (e, t')
    ∧ (3 = progress (mkSample 0 5) → speed e = NaN)
    ∧ (progress (mkSample 0 5) < 3 → speed e = POSITIVE_INFINITY)
    ∧ humanizeSpeed (speed e) = "99999 gbps"
    ∧ ∀ total', Some 10 = Some total' → total' ≠ 3 →
        (3 = progress (mkSample 0 5) →
         eta e = NaN ∧ humanizeDuration (eta e) = "99999d")
        ∧ (progress (mkSample 0 5) < 3 →
           eta e = num 0 ∧ humanizeDuration (eta e) = "done").
Proof.
  apply (updateProgressAndGetLatestEta_same_millisecond 5 3 (Some 10)
           {| slidingWindow := mkQueue 120 [mkSample 0 5] 0 |} (mkSample 0 5)).
  - reflexivity.
  - reflexivity.
  - simpl. lia.
Defined.

(** ** The state machine *)

(** C9. A rejected [tick] - the value is not an integer, or is below 1,
    or the bar is not running, or the increment would exceed the total -
    throws and leaves the bar and the host exactly as they were. *)
Theorem tick_rejected_unchanged (w : World) (value : number) :
  Number_isInteger value = false
  ∨ lt value (num 1) = true
  ∨ state (bar w) ≠ RUNNING
  ∨ gt (add (num (_progress (bar w))) value) (num (total (bar w))) = true →
  ∃ e, tick value w = (Throw e, w).
Proof.
  intros H. unfold tick.
  destruct (Number_isInteger value) eqn:Hint; cbn [negb]; [|eexists; reflexivity].
  destruct (lt value (num 1)) eqn:Hlt; [eexists; reflexivity|].
  unfold mbind, M_bind, this.
  destruct (bool_decide (state (bar w) = RUNNING)) eqn:Hrun; cbn [negb];
    [|eexists; reflexivity].
  destruct (gt (add (num (_progress (bar w))) value) (num (total (bar w)))) eqn:Hgt;
    [eexists; reflexivity|].
  apply bool_decide_eq_true in Hrun.
  destruct H as [H|[H|[H|H]]]; congruence.
Qed.

Lemma tick_rejected_unchanged_witness :
  ∃ e, tick (num 1) (new_bar 10 (Some 40) true) = (Throw e, new_bar 10 (Some 40) true).
Proof.
  apply (tick_rejected_unchanged (new_bar 10 (Some 40) true) (num 1)).
  right. right. left. vm_compute. discriminate.
Defined.

(** C2. On a stream that is not a terminal [start] returns before the
    state is assigned: the bar stays [READY], so the next [tick] and the
    next [stop] throw "progress bar is not running" (and a second
    [start] is accepted). *)
Theorem start_not_tty_stays_READY :
  let w := new_bar 10 None false in
  isTTY (bar w) = false
  ∧ state (bar w) = READY
  ∧ start w = (Return tt, w)
  ∧ state (bar (after start w)) ≠ RUNNING
  ∧ tick (num 1) (after start w) = (Throw (Error "progress bar is not running"), w)
  ∧ stop (after start w) = (Throw (Error "progress bar is not running"), w)
  ∧ start (after start w) = (Return tt, w).
Proof. vm_compute. repeat split; discriminate. Qed.


(** ** The sliding-window queue *)

Section QueueFacts.
Context {T : Type}.
Implicit Types (q : Queue T) (l : list T) (e : T).
Local Open Scope list_scope.

Lemma Number_isInteger_num (z : Z) : Number_isInteger (num z) = true.
Proof.
  unfold Number_isInteger, num. apply Qeq_bool_iff.
  rewrite Qfloor_Z. reflexivity.
Qed.

Lemma to_Z_num (z : Z) : to_Z (num z) = z.
Proof. apply Qfloor_Z. Qed.

Lemma lt_num (a b : Z) : lt (num a) (num b) = (a <? b).
Proof.
  unfold lt, num, Qltb, Qle_bool, inject_Z. cbn.
  rewrite !Z.mul_1_r. rewrite Z.ltb_antisym. reflexivity.
Qed.

Lemma Queue_new_num (C : nat) :
  (1 ≤ C)%nat →
  Queue_new (T := T) (num (Z.of_nat C)) = Return (mkQueue C [] 0).
Proof.
  intros HC. unfold Queue_new.
  rewrite Number_isInteger_num, lt_num, to_Z_num, Nat2Z.id. cbn [negb].
  destruct (Z.ltb_spec (Z.of_nat C) 1); [lia|reflexivity].
Qed.

Lemma push_all_snoc l e q : push_all (l ++ [e]) q = push e (push_all l q).
Proof. unfold push_all. rewrite foldl_snoc. reflexivity. Qed.

Lemma filled_with_nil (C : nat) : (1 ≤ C)%nat → filled_with (T := T) C [] (mkQueue C [] 0).
Proof. intros HC. repeat split; cbn; lia. Qed.

Lemma push_invariant (C : nat) l e q :
  (1 ≤ C)%nat → filled_with C l q → filled_with C (l ++ [e]) (push e q).
Proof.
  intros HC (Hcap & Hlen & Hidx & Hzero & Hret).
  unfold push. rewrite Hcap.
  destruct (Nat.eqb_spec (length (content q)) C) as [Hfull|Hroom].
  - (* the window is full: the oldest slot is overwritten *)
    assert (HlC : (C ≤ length l)%nat) by lia.
    assert (Hi : (index q < length (content q))%nat) by lia.
    assert (Hlast :
      drop (length (l ++ [e]) - C) (l ++ [e]) = drop 1 (retained q) ++ [e]).
    { rewrite Hret, drop_drop, length_app. cbn [length].
      rewrite drop_app_le by lia. f_equal. f_equal. lia. }
    unfold filled_with. cbn [capacity content index].
    rewrite Hlast, length_insert, length_app. cbn [length].
    unfold retained. rewrite drop_app_le by (rewrite length_drop; lia).
    rewrite drop_drop, (insert_take_drop _ _ _ Hi).
    destruct (Nat.eqb_spec (S (index q)) C) as [Hwrap|Hnext].
    + repeat split; try lia.
      rewrite drop_0, take_0, app_nil_r.
      rewrite (drop_ge (content q)) by lia.
      rewrite (drop_ge (content q)) by lia. reflexivity.
    + repeat split; try lia. cbn [capacity content index].
      assert (Htake : length (take (index q) (content q)) = index q)
        by (rewrite length_take; lia).
      rewrite drop_app_ge by lia. rewrite Htake.
      replace (S (index q) - index q)%nat with 1%nat by lia. cbn [drop].
      rewrite drop_0.
      rewrite (take_app_ge _ _ (S (index q))) by lia. rewrite Htake.
      replace (S (index q) - index q)%nat with 1%nat by lia. cbn [take].
      replace (index q + 1)%nat with (S (index q)) by lia.
      rewrite take_0, <- app_assoc. reflexivity.
  - (* there is room: the element is appended *)
    assert (HlC : (length l < C)%nat) by lia.
    specialize (Hzero HlC).
    unfold filled_with, retained in *. cbn [capacity content index].
    rewrite Hzero in *. rewrite drop_0, take_0, app_nil_r in *.
    rewrite !length_app. cbn [length].
    repeat split; try lia.
    rewrite Hret.
    replace (length l - C)%nat with 0%nat by lia.
    replace (length l + 1 - C)%nat with 0%nat by lia.
    rewrite !drop_0. reflexivity.
Qed.

Lemma push_all_invariant (C : nat) l :
  (1 ≤ C)%nat → filled_with C l (push_all l (mkQueue C [] 0)).
Proof.
  intros HC. induction l as [|e l IH] using rev_ind.
  - apply filled_with_nil, HC.
  - rewrite push_all_snoc. apply push_invariant; assumption.
Qed.

Lemma oldest_is_head_of_retained q :
  (index q < length (content q))%nat → oldest q = retained q !! 0%nat.
Proof.
  intros Hi. unfold oldest, retained.
  rewrite lookup_app_l by (rewrite length_drop; lia).
  rewrite lookup_drop. f_equal. lia.
Qed.

End QueueFacts.

(** C7. A queue of capacity [C >= 1] on which [C + k] elements were
    pushed retains exactly the last [C] of them, oldest first; its
    oldest element is the [(k+1)]-th pushed one, and a further push
    overwrites the slot of that oldest element. *)
Theorem queue_retains_most_recent {T : Type} (C k : nat) (l : list T) :
  (1 ≤ C)%nat →
  length l = (C + k)%nat →
  ∃ q0 : Queue T,
    Queue_new (num (Z.of_nat C)) = Return q0
    ∧ let q := push_all l q0 in
      oldest q = l !! k
      ∧ retained q = drop k l
      ∧ length (retained q) = C
      ∧ ∀ e, content (push e q) = <[index q := e]> (content q)
             ∧ oldest (push e q) = (l ++ [e])%list !! S k.
Proof.
  intros HC Hlen. exists (mkQueue C [] 0). split; [apply Queue_new_num, HC|].
  cbn zeta.
  pose proof (push_all_invariant C l HC) as Hinv.
  destruct Hinv as (Hcap & Hlenc & Hidx & Hzero & Hret).
  replace (length l - C)%nat with k in Hret by lia.
  assert (Hfull : length (content (push_all l (mkQueue C [] 0))) = C) by lia.
  split.
  { rewrite oldest_is_head_of_retained by lia.
    rewrite Hret, lookup_drop. f_equal. lia. }
  split; [exact Hret|].
  split; [rewrite Hret, length_drop; lia|].
  intros e. split.
  - unfold push. rewrite Hcap, Hfull, Nat.eqb_refl. reflexivity.
  - pose proof (push_invariant C l e _ HC (push_all_invariant C l HC))
      as (Hcap' & Hlenc' & Hidx' & _ & Hret').
    rewrite oldest_is_head_of_retained
      by (rewrite Hlenc', length_app; cbn [length]; lia).
    rewrite Hret', lookup_drop, length_app. cbn [length]. f_equal. lia.
Qed.

Lemma queue_retains_most_recent_witness :
  ∃ q0 : Queue Z,
    Queue_new (num (Z.of_nat 3)) = Return q0
    ∧ let q := push_all [10; 20; 30; 40; 50] q0 in
      oldest q = [10; 20; 30; 40; 50] !! 2%nat
      ∧ retained q = drop 2 [10; 20; 30; 40; 50]
      ∧ length (retained q) = 3%nat
      ∧ ∀ e, content (push e q) = <[index q := e]> (content q)
             ∧ oldest (push e q) = ([10; 20; 30; 40; 50] ++ [e])%list !! 3%nat.
Proof.
  apply (queue_retains_most_recent 3 2 [10; 20; 30; 40; 50]).
  - lia.
  - reflexivity.
Defined.

(** ** The update that completes the progress *)

(** C8. When [currentProgress] equals [total] the returned [eta] is the
    number 0 whatever the speed is, also when the speed is 0.  The speed
    is computed from the record that was the oldest before the call, and
    the call stores the new sample: it is among the content of the
    window afterwards, and a window that held the history [l] - with
    the record used for the estimate at its head - holds [l] followed
    by the new sample afterwards, the new sample being the newest and
    the record at the head the one after the record used. *)
Theorem updateProgressAndGetLatestEta_complete
    (currentTime currentProgress : Z) (t : EtaTracker) (oldestRecord : Sample) :
  oldest (slidingWindow t) = Some oldestRecord →
  ∃ e t',
    updateProgressAndGetLatestEta currentTime currentProgress (Some currentProgress) t
    = Return (e, t')
    ∧ eta e = num 0
    ∧ speed e
      = div (mul (num (currentProgress - progress oldestRecord)) (num 1000))
            (num (currentTime - time oldestRecord))
    ∧ (currentProgress = progress oldestRecord → time oldestRecord < currentTime →
       seq (speed e) (num 0) = true)
    ∧ {| progress := currentProgress; time := currentTime |} ∈ content (slidingWindow t')
    ∧ ∀ (C : nat) (l : list Sample),
        (1 ≤ C)%nat →
        filled_with C l (slidingWindow t) →
        l !! (length l - C)%nat = Some oldestRecord
        ∧ filled_with C (l ++ [{| progress := currentProgress; time := currentTime |}])%list
            (slidingWindow t')
        ∧ last (retained (slidingWindow t'))
          = Some {| progress := currentProgress; time := currentTime |}
        ∧ oldest (slidingWindow t')
          = (l ++ [{| progress := currentProgress; time := currentTime |}])%list
              !! (length l + 1 - C)%nat.
Proof.
  intros Hold.
  pose proof (lookup_lt_Some _ _ _ Hold) as Hi.
  unfold updateProgressAndGetLatestEta. rewrite Hold.
  unfold total_is. rewrite Z.eqb_refl.
  eexists _, _. split; [reflexivity|]. cbn [eta speed slidingWindow].
  split; [reflexivity|]. split; [reflexivity|]. split.
  { intros Hp Ht. rewrite Hp, Z.sub_diag.
    destruct (currentTime - time oldestRecord) as [|p|p] eqn:E; try lia.
    reflexivity. }
  split.
  { unfold push.
    destruct (length (content (slidingWindow t)) =? capacity (slidingWindow t))%nat;
      cbn [content].
    - apply list_elem_of_lookup. exists (index (slidingWindow t)).
      apply list_lookup_insert_eq. exact Hi.
    - apply elem_of_app. right. apply list_elem_of_singleton. reflexivity. }
  intros C l HC Hfilled.
  pose proof (push_invariant C l {| progress := currentProgress; time := currentTime |}
                _ HC Hfilled) as Hpushed.
  pose proof Hfilled as (_ & _ & _ & _ & Hret).
  pose proof Hpushed as (_ & Hlen' & Hidx' & Hzero' & Hret').
  assert (Hlen1 : (length (l ++ [{| progress := currentProgress; time := currentTime |}])
                   = length l + 1)%nat)
    by (rewrite length_app; reflexivity).
  split.
  { rewrite (oldest_is_head_of_retained _ Hi), Hret, lookup_drop in Hold.
    rewrite <- Hold. f_equal. lia. }
  split; [exact Hpushed|]. split.
  { rewrite Hret', Hlen1, drop_app_le by lia. apply last_snoc. }
  rewrite oldest_is_head_of_retained.
  - rewrite Hret', lookup_drop, Hlen1. f_equal. lia.
  - rewrite Hlen', Hlen1.
    destruct (Nat.lt_ge_cases (length l + 1) C) as [Hroom|Hfull]; [|lia].
    rewrite Hlen1 in Hzero'. rewrite (Hzero' Hroom). lia.
Qed.

Lemma updateProgressAndGetLatestEta_complete_witness :
  ∃ e t',
    updateProgressAndGetLatestEta 2000 10 (Some 10)
      {| slidingWindow := mkQueue 1 [mkSample 10 1000] 0 |}
    = Return (e, t')
    ∧ eta e = num 0
    ∧ speed e
      = div (mul (num (10 - progress (mkSample 10 1000))) (num 1000))
            (num (2000 - time (mkSample 10 1000)))
    ∧ (10 = progress (mkSample 10 1000) → time (mkSample 10 1000) < 2000 →
       seq (speed e) (num 0) = true)
    ∧ {| progress := 10; time := 2000 |} ∈ content (slidingWindow t')
    ∧ ∀ (C : nat) (l : list Sample),
        (1 ≤ C)%nat →
        filled_with C l (slidingWindow {| slidingWindow := mkQueue 1 [mkSample 10 1000] 0 |}) →
        l !! (length l - C)%nat = Some (mkSample 10 1000)
        ∧ filled_with C (l ++ [{| progress := 10; time := 2000 |}])%list (slidingWindow t')
        ∧ last (retained (slidingWindow t')) = Some {| progress := 10; time := 2000 |}
        ∧ oldest (slidingWindow t')
          = (l ++ [{| progress := 10; time := 2000 |}])%list !! (length l + 1 - C)%nat.
Proof.
  apply (updateProgressAndGetLatestEta_complete 2000 10
           {| slidingWindow := mkQueue 1 [mkSample 10 1000] 0 |} (mkSample 10 1000)).
  reflexivity.
Defined.

(** ** Redrawing *)

Section StringFacts.

Lemma Qltb_false (x y : Q) : (y <= x)%Q → Qltb x y = false.
Proof. intros H. unfold Qltb. apply negb_false_iff, Qle_bool_iff, H. Qed.

Lemma Qltb_true (x y : Q) : (x < y)%Q → Qltb x y = true.
Proof.
  intros H. unfold Qltb. apply negb_true_iff.
  destruct (Qle_bool y x) eqn:E; [|reflexivity].
  apply Qle_bool_iff in E. exfalso. exact (Qlt_not_le _ _ H E).
Qed.

Lemma length_append (s1 s2 : string) :
  String.length (s1 ++ s2) = (String.length s1 + String.length s2)%nat.
Proof.
  induction s1 as [|c s1 IH]; [reflexivity|].
  change (S (String.length (s1 ++ s2)) = S (String.length s1 + String.length s2)).
  f_equal. exact IH.
Qed.

Lemma append_nil_r (s : string) : s ++ "" = s.
Proof.
  induction s as [|c s IH]; [reflexivity|].
  change (String c (s ++ "") = String c s). f_equal. exact IH.
Qed.

Lemma length_string_repeat (c : string) (n : nat) :
  String.length (string_repeat c n) = (n * String.length c)%nat.
Proof.
  induction n as [|n IH]; cbn [string_repeat]; [reflexivity|].
  rewrite length_append, IH. cbn [Nat.mul]. reflexivity.
Qed.

Lemma length_padStart (s : string) (n : Z) :
  Z.of_nat (String.length (padStart s n)) = Z.max n (Z.of_nat (String.length s)).
Proof.
  unfold padStart. rewrite length_append, length_string_repeat. cbn. lia.
Qed.

Lemma length_digits_aux_upper (fuel : nat) : ∀ (n : Z) (acc : string) (k : nat),
  0 ≤ n < 10 ^ Z.of_nat (S k) →
  (String.length (digits_aux fuel n acc) ≤ S k + String.length acc)%nat.
Proof.
  induction fuel as [|fuel IH]; intros n acc k Hn; cbn [digits_aux]; [lia|].
  destruct (Z.ltb_spec n 10) as [Hlt|Hge]; [cbn; lia|].
  destruct k as [|k]; [cbn in Hn; lia|].
  etransitivity; [apply (IH _ _ k)|cbn; lia].
  rewrite Nat2Z.inj_succ, Z.pow_succ_r in Hn by lia.
  split; [apply Z.div_pos; lia|].
  apply Z.div_lt_upper_bound; lia.
Qed.

Lemma length_digits_aux_lower (fuel : nat) : ∀ (n : Z) (acc : string),
  (0 < fuel)%nat →
  0 ≤ n < 2 ^ Z.of_nat fuel →
  n < 10 ^ (Z.of_nat (String.length (digits_aux fuel n acc))
            - Z.of_nat (String.length acc))
  ∧ (String.length acc < String.length (digits_aux fuel n acc))%nat.
Proof.
  induction fuel as [|fuel IH]; intros n acc Hfuel Hn; cbn [digits_aux].
  - lia.
  - destruct (Z.ltb_spec n 10) as [Hlt|Hge].
    + cbn [String.length].
      replace (Z.of_nat (S (String.length acc)) - Z.of_nat (String.length acc)) with 1 by lia.
      split; lia.
    + rewrite Nat2Z.inj_succ, Z.pow_succ_r in Hn by lia.
      destruct (IH (n / 10) (String (digit_char (n mod 10)) acc)) as [Hpow Hlen].
      { destruct fuel; [cbn in Hn|]; lia. }
      { split; [apply Z.div_pos; lia|]. apply Z.div_lt_upper_bound; lia. }
      cbn [String.length] in Hpow, Hlen. split; [|lia].
      set (L := String.length (digits_aux fuel (n / 10) (String (digit_char (n mod 10)) acc))) in *.
      replace (Z.of_nat L - Z.of_nat (String.length acc))
        with (Z.succ (Z.of_nat L - Z.of_nat (S (String.length acc)))) by lia.
      rewrite Z.pow_succ_r by lia.
      pose proof (Z.div_mod n 10 ltac:(lia)).
      pose proof (Z.mod_pos_bound n 10 ltac:(lia)). lia.
Qed.

Lemma digits_fuel (n : Z) : 0 ≤ n → n < 2 ^ Z.of_nat (S (Z.to_nat (Z.log2 n))).
Proof.
  intros Hn. rewrite Nat2Z.inj_succ, Z2Nat.id by apply Z.log2_nonneg.
  destruct (Z.eq_dec n 0) as [->|Hne]; [cbn; lia|].
  apply Z.log2_spec. lia.
Qed.

(** The decimal representation of a smaller non-negative integer is not
    longer. *)
Lemma length_digits_mono (p t : Z) :
  0 ≤ p ≤ t → (String.length (digits p) ≤ String.length (digits t))%nat.
Proof.
  intros Hpt. unfold digits at 2.
  assert (Ht : 0 ≤ t) by lia.
  destruct (length_digits_aux_lower (S (Z.to_nat (Z.log2 t))) t "")
    as [Hpow Hpos]; [lia|split; [exact Ht|apply digits_fuel, Ht]|].
  cbn [String.length] in Hpow, Hpos.
  set (L := String.length (digits_aux (S (Z.to_nat (Z.log2 t))) t "")) in *.
  destruct L as [|k]; [lia|].
  rewrite Z.sub_0_r in Hpow.
  assert (Hp : 0 ≤ p < 10 ^ Z.of_nat (S k)) by lia.
  pose proof (length_digits_aux_upper (S (Z.to_nat (Z.log2 p))) p "" k Hp) as H.
  cbn [String.length] in H. unfold digits. lia.
Qed.

Lemma length_digits_upper (n : Z) (k : nat) :
  0 ≤ n < 10 ^ Z.of_nat (S k) → (String.length (digits n) ≤ S k)%nat.
Proof.
  intros Hn. pose proof (length_digits_aux_upper (S (Z.to_nat (Z.log2 n))) n "" k Hn) as H.
  cbn [String.length] in H. unfold digits. lia.
Qed.

Lemma String_Z_nonneg (n : Z) : 0 ≤ n → String_Z n = digits n.
Proof. intros Hn. unfold String_Z. destruct (Z.ltb_spec n 0); [lia|reflexivity]. Qed.

Lemma String_num_nonneg (n : Z) : 0 ≤ n → String_ (num n) = digits n.
Proof.
  intros Hn. unfold String_, num, String_Q.
  assert (Habs : Qabs (inject_Z n) = inject_Z n)
    by (unfold Qabs, inject_Z; rewrite Z.abs_eq by lia; reflexivity).
  rewrite Habs, Qfloor_Z.
  assert (Hlt : Qltb (inject_Z n) 0 = false).
  { apply Qltb_false. change (inject_Z 0 <= inject_Z n)%Q.
    rewrite <- Zle_Qle. exact Hn. }
  assert (Hr : Qeq_bool (inject_Z n - inject_Z n) 0 = true)
    by (apply Qeq_bool_iff; ring).
  rewrite Hlt, Hr. change ("" ++ digits n ++ "") with (digits n ++ "").
  apply append_nil_r.
Qed.

End StringFacts.

(** Unfolding of the calls that only read or write the world. *)
Ltac run_primitives :=
  repeat (progress (unfold outputWidth, Date_now, setInterval, clearInterval,
                      output_write, output_cursorTo, output_clearLine,
                      output_moveCursor, this, process, assign, effect, lift, throw,
                      mbind, M_bind, mret, M_ret); cbn beta iota zeta).

Section RefreshFacts.

Lemma div_num_pos (p t : Z) :
  1 ≤ t → div (num p) (num t) = Fin (inject_Z p / inject_Z t).
Proof.
  intros Ht. unfold div, num.
  destruct (Qeq_bool (inject_Z t) 0) eqn:E; [|reflexivity].
  apply Qeq_bool_iff in E. change 0%Q with (inject_Z 0) in E.
  apply (proj1 (inject_Z_injective t 0)) in E. lia.
Qed.

Lemma Qfloor_scaled_ratio (a p t : Z) :
  1 ≤ t → Qfloor (inject_Z a * (inject_Z p / inject_Z t)) = a * p / t.
Proof.
  intros Ht. destruct t as [|t|t]; try lia.
  unfold Qfloor, Qdiv, Qmult, Qinv, inject_Z. cbn.
  f_equal; lia.
Qed.

Lemma scaled_ratio_bounds (a p t : Z) :
  0 ≤ a → 0 ≤ p ≤ t → 1 ≤ t → 0 ≤ a * p / t ≤ a.
Proof.
  intros Ha Hp Ht. split.
  - apply Z.div_pos; nia.
  - apply Z.div_le_upper_bound; nia.
Qed.

Lemma Qtrunc_num (n : Z) : 0 ≤ n → Qtrunc (inject_Z n) = n.
Proof.
  intros Hn. unfold Qtrunc. rewrite Qltb_false, Qfloor_Z; [reflexivity|].
  change (inject_Z 0 <= inject_Z n)%Q. rewrite <- Zle_Qle. exact Hn.
Qed.

Lemma String_repeat_num (c : string) (n : Z) :
  0 ≤ n → String_repeat c (num n) = Return (string_repeat c (Z.to_nat n)).
Proof.
  intros Hn. unfold String_repeat, num. rewrite Qtrunc_num by exact Hn.
  destruct (Z.ltb_spec n 0); [lia|reflexivity].
Qed.

Lemma String_repeat_sub (c : string) (a b : Z) :
  b ≤ a →
  String_repeat c (sub (num a) (num b)) = Return (string_repeat c (Z.to_nat (a - b))).
Proof.
  intros Hab. unfold sub, num.
  assert (E : (inject_Z a - inject_Z b == inject_Z (a - b))%Q)
    by (unfold Zminus; rewrite inject_Z_plus, inject_Z_opp; reflexivity).
  unfold String_repeat, Qtrunc.
  assert (Hlt : Qltb (inject_Z a - inject_Z b) 0 = false).
  { apply Qltb_false. rewrite E. change (inject_Z 0 <= inject_Z (a - b))%Q.
    rewrite <- Zle_Qle. lia. }
  assert (Hfloor : Qfloor (inject_Z a - inject_Z b) = a - b)
    by (rewrite E; apply Qfloor_Z).
  rewrite Hlt, Hfloor.
  destruct (Z.ltb_spec (a - b) 0); [lia|reflexivity].
Qed.

Lemma draw_spec (output : string) (w : World) :
  ∃ w', draw output w = (Return tt, w')
        ∧ bar w' = bar w
        ∧ intervals (host w') = intervals (host w)
        ∧ draws w w' output.
Proof.
  unfold draw, draws. run_primitives.
  destruct (drawAtBottom (bar w)); cbn;
    match goal with |- context [if ?c then _ else _] => destruct c end; cbn;
    eexists; (split; [reflexivity|]); cbn; (split; [reflexivity|]);
    (split; [reflexivity|]).
  - exists [Write (cursorSave (isMac (host w))); CursorTo 0 (Some (rows (host w) - 1))],
           [ClearLine 1; Write (cursorRestore (isMac (host w)))].
    rewrite <- !app_assoc. reflexivity.
  - exists [Write (cursorSave (isMac (host w))); CursorTo 0 (Some (rows (host w) - 1))],
           [Write (cursorRestore (isMac (host w)))].
    rewrite <- !app_assoc. reflexivity.
  - exists [CursorTo 0 None], [ClearLine 1]. rewrite <- !app_assoc. reflexivity.
  - exists [CursorTo 0 None], []. rewrite <- !app_assoc. reflexivity.
Qed.

(** The closure of [refresh]: with a valid progress it draws a line of
    exactly the bar width plus the sections, and clears the interval when
    the bar is complete. *)
Lemma renderBarSectionAndThenDraw_spec (v : Sections) (w : World) :
  0 ≤ remainingWidth v →
  1 ≤ total (bar w) →
  0 ≤ _progress (bar w) ≤ total (bar w) →
  ∃ w' line,
    renderBarSectionAndThenDraw
      (div (num (_progress (bar w))) (num (total (bar w)))) v w = (Return tt, w')
    ∧ bar w' = bar w
    ∧ intervals (host w') = intervals_after_redraw (bar w) (intervals (host w))
    ∧ draws w w' line
    ∧ Z.of_nat (String.length line)
      = MIN_BAR_WIDTH + remainingWidth v + sections_length v.
Proof.
  intros Hrem Ht Hp.
  set (bw := MIN_BAR_WIDTH + remainingWidth v - 2).
  assert (Hbw : 0 ≤ bw) by (unfold bw, MIN_BAR_WIDTH; lia).
  pose proof (scaled_ratio_bounds bw _ _ Hbw Hp Ht) as Hk.
  set (k := bw * _progress (bar w) / total (bar w)) in *.
  unfold renderBarSectionAndThenDraw. fold bw.
  rewrite div_num_pos by exact Ht.
  assert (Hfloor :
    Math_floor (mul (num bw) (Fin (inject_Z (_progress (bar w)) / inject_Z (total (bar w)))))
    = num k).
  { unfold Math_floor, mul, num. rewrite Qfloor_scaled_ratio by exact Ht. reflexivity. }
  rewrite Hfloor.
  unfold mbind at 1, M_bind at 1, lift at 1.
  rewrite String_repeat_num by lia.
  unfold mbind at 1, M_bind at 1, lift at 1.
  rewrite String_repeat_sub by lia.
  unfold mbind at 1, M_bind at 1.
  match goal with |- context [draw ?s w] =>
    destruct (draw_spec s w) as (w1 & Hdraw & Hbar & Hint & Hdraws); rewrite Hdraw;
    set (line := s) in *
  end.
  unfold mbind, M_bind, this. rewrite Hbar.
  assert (Hline : Z.of_nat (String.length line)
                  = MIN_BAR_WIDTH + remainingWidth v + sections_length v).
  { unfold line, sections_length, C_PROCESSED_BAR, C_UNPROCESSED_BAR.
    rewrite !length_append, !length_string_repeat. cbn [String.length].
    unfold bw in *. lia. }
  unfold intervals_after_redraw.
  destruct (total (bar w) =? _progress (bar w)).
  - destruct (etaUpdateInterval (bar w)) as [t|]; cbn.
    + eexists _, line. split; [reflexivity|]. cbn. repeat split; try assumption.
      rewrite Hint. reflexivity.
    + exists w1, line. repeat split; assumption.
  - exists w1, line. repeat split; assumption.
Qed.

End RefreshFacts.

Section LayoutFacts.

Lemma Qfloor_ratio_scaled (a p t : Z) :
  1 ≤ t → Qfloor (inject_Z p / inject_Z t * inject_Z a) = p * a / t.
Proof.
  intros Ht. destruct t as [|t|t]; try lia.
  unfold Qfloor, Qdiv, Qmult, Qinv, inject_Z. cbn.
  f_equal; lia.
Qed.

Lemma length_percentage (p t : Z) :
  1 ≤ t → 0 ≤ p ≤ t →
  (String.length
     ("(" ++ String_ (Math_floor (mul (div (num p) (num t)) (num 100))) ++ "%)") ≤ 6)%nat.
Proof.
  intros Ht Hp. rewrite div_num_pos by exact Ht.
  unfold Math_floor, mul, num at 1. rewrite Qfloor_ratio_scaled by exact Ht.
  assert (Hk : 0 ≤ p * 100 / t ≤ 100).
  { split; [apply Z.div_pos; nia|apply Z.div_le_upper_bound; nia]. }
  change (Fin (inject_Z (p * 100 / t))) with (num (p * 100 / t)).
  rewrite String_num_nonneg by lia.
  rewrite !length_append. cbn [String.length].
  pose proof (length_digits_upper (p * 100 / t) 2 ltac:(cbn; lia)). lia.
Qed.

Lemma length_progressAndTotal (p t : Z) :
  0 ≤ p ≤ t →
  Z.of_nat (String.length
    (padStart (String_Z p ++ "/" ++ String_Z t)
              (Z.of_nat (String.length (String_Z t)) * 2 + 2)))
  = Z.of_nat (String.length (String_Z t)) * 2 + 2.
Proof.
  intros Hp. rewrite length_padStart, !length_append. cbn [String.length].
  rewrite !String_Z_nonneg by lia.
  pose proof (length_digits_mono p t Hp). lia.
Qed.

Lemma computeLatestEta_spec (w : World) (calculator : EtaTracker) (r : Sample) :
  etaCalculator (bar w) = Some calculator →
  oldest (slidingWindow calculator) = Some r →
  ∃ e,
    updateProgressAndGetLatestEta (clock (host w)) (_progress (bar w))
      (Some (total (bar w))) calculator
    = Return (e, {| slidingWindow :=
                      push {| progress := _progress (bar w); time := clock (host w) |}
                           (slidingWindow calculator) |})
    ∧ computeLatestEta w
      = (Return e,
         mkWorld
           (set_latestEta (Some e)
              (set_etaCalculator
                 (Some {| slidingWindow :=
                            push {| progress := _progress (bar w);
                                    time := clock (host w) |}
                                 (slidingWindow calculator) |})
                 (bar w)))
           (host w)).
Proof.
  intros Hcalc Hold. unfold computeLatestEta. run_primitives. rewrite Hcalc.
  run_primitives. unfold updateProgressAndGetLatestEta. rewrite Hold.
  eexists. split; reflexivity.
Qed.

End LayoutFacts.

Section RefreshLayout.

(** With a latest estimate at hand, [refresh] selects the sections and
    hands them to its closure; when the estimate fits its columns the
    bar and the sections take exactly the output width. *)
Lemma refresh_sections_known (w : World) (e : Estimate) :
  MIN_BAR_WIDTH ≤ width_of w →
  1 ≤ total (bar w) →
  0 ≤ _progress (bar w) ≤ total (bar w) →
  (7 ≤ width_of w - MIN_BAR_WIDTH → latestEta (bar w) = Some e) →
  ∃ v,
    refresh w
    = renderBarSectionAndThenDraw
        (div (num (_progress (bar w))) (num (total (bar w)))) v w
    ∧ 0 ≤ remainingWidth v
    ∧ (estimate_fits e →
       MIN_BAR_WIDTH + remainingWidth v + sections_length v = width_of w).
Proof.
  intros Hw Ht Hp He. unfold refresh. run_primitives. fold (width_of w).
  pose proof (length_progressAndTotal _ _ Hp) as Hpt.
  pose proof (length_percentage _ _ Ht Hp) as Hpct.
  pose proof (length_padStart (humanizeDuration (eta e)) 7) as Hd7.
  pose proof (length_padStart (humanizeSpeed (speed e)) 10) as Hs10.
  pose proof (length_padStart ("eta " ++ humanizeDuration (eta e)) 10) as Hd10.
  match type of Hpct with (String.length ?s ≤ _)%nat =>
    pose proof (length_padStart s 6) as Hp6 end.
  rewrite length_append in Hd10. cbn [String.length] in Hd10.
  destruct (Z.ltb_spec (width_of w) MIN_BAR_WIDTH) as [?|_]; [lia|].
  cbn beta.
  destruct (Z.ltb_spec (width_of w - MIN_BAR_WIDTH) 7) as [Hnarrow|Hwide];
    [|rewrite (He Hwide)];
  repeat match goal with
         | |- context [if ?a <? ?b then _ else _] =>
             destruct (Z.ltb_spec a b)
         end;
    (eexists; split; [reflexivity|]);
    unfold sections_length, estimate_fits, C_COLUMN_SEPARATOR;
    cbn [remainingWidth progressAndTotalSection percentageSection etaSection
         speedSection];
    rewrite ?length_append; cbn [String.length];
    (split; [unfold MIN_BAR_WIDTH in *; lia|]);
    intros [Hfd Hfs]; unfold MIN_BAR_WIDTH in *; lia.
Qed.

Lemma push_keeps_oldest {T : Type} (q : Queue T) (e : T) :
  is_Some (oldest q) → is_Some (oldest (push e q)).
Proof.
  unfold oldest, push. intros Hsome. apply lookup_lt_is_Some in Hsome.
  apply lookup_lt_is_Some.
  destruct (Nat.eqb_spec (length (content q)) (capacity q)) as [Hfull|Hroom];
    cbn [content index].
  - rewrite length_insert.
    destruct (Nat.eqb_spec (S (index q)) (capacity q)); lia.
  - rewrite length_app. cbn [length]. lia.
Qed.

(** The first redraw that needs an estimate computes one and goes on as
    if it had been there. *)
Lemma refresh_first_estimate (w : World) (calculator : EtaTracker) (r : Sample) :
  MIN_BAR_WIDTH ≤ width_of w →
  7 ≤ width_of w - MIN_BAR_WIDTH →
  latestEta (bar w) = None →
  etaCalculator (bar w) = Some calculator →
  oldest (slidingWindow calculator) = Some r →
  ∃ e calculator',
    is_Some (oldest (slidingWindow calculator'))
    ∧ refresh w
      = refresh (mkWorld (set_latestEta (Some e)
                            (set_etaCalculator (Some calculator') (bar w)))
                         (host w)).
Proof.
  intros Hw Hwide Hnone Hcalc Hold.
  destruct (computeLatestEta_spec w calculator r Hcalc Hold) as (e & _ & Hcompute).
  exists e, {| slidingWindow :=
                 push {| progress := _progress (bar w); time := clock (host w) |}
                      (slidingWindow calculator) |}.
  split.
  { apply (push_keeps_oldest (slidingWindow calculator)
             {| progress := _progress (bar w); time := clock (host w) |}).
    rewrite Hold. eexists. reflexivity. }
  unfold refresh. run_primitives.
  change (default (columns (host w)) (fixedOutputWidth (bar w))) with (width_of w).
  cbn [bar host set_latestEta set_etaCalculator fixedOutputWidth latestEta _progress total].
  change (default (columns (host w)) (fixedOutputWidth (bar w))) with (width_of w).
  destruct (Z.ltb_spec (width_of w) MIN_BAR_WIDTH) as [?|_]; [lia|].
  cbn beta.
  destruct (Z.ltb_spec (width_of w - MIN_BAR_WIDTH) 7) as [?|_]; [lia|].
  rewrite Hnone, Hcompute.
  cbn [bar host set_latestEta set_etaCalculator fixedOutputWidth latestEta _progress total].
  reflexivity.
Qed.

End RefreshLayout.

Section Redraw.

Lemma running_bar_eq (w w' : World) :
  bar w' = bar w → running w → running w'.
Proof. unfold running. intros ->. tauto. Qed.

(** What one redraw of a running bar of at least [MIN_BAR_WIDTH]
    columns does: it draws one line, leaves progress, total and state
    alone, clears the interval exactly when the bar is complete, and the
    line is as wide as the output whenever the estimate fits. *)
Lemma refresh_spec (w : World) :
  running w →
  MIN_BAR_WIDTH ≤ width_of w →
  ∃ w' line,
    refresh w = (Return tt, w')
    ∧ running w'
    ∧ _progress (bar w') = _progress (bar w)
    ∧ total (bar w') = total (bar w)
    ∧ etaUpdateInterval (bar w') = etaUpdateInterval (bar w)
    ∧ intervals (host w') = intervals_after_redraw (bar w) (intervals (host w))
    ∧ draws w w' line
    ∧ ((∀ e, latestEta (bar w') = Some e → estimate_fits e) →
       Z.of_nat (String.length line) = width_of w).
Proof.
  intros Hrun Hw.
  pose proof Hrun as (Hstate & Htty & Ht & Hp & calculator & r & Hcalc & Hold).
  destruct (latestEta (bar w)) as [e|] eqn:He;
    [|destruct (Z.lt_ge_cases (width_of w - MIN_BAR_WIDTH) 7) as [Hnarrow|Hwide]].
  - (* an estimate is at hand *)
    destruct (refresh_sections_known w e Hw Ht Hp (λ _, He)) as (v & Hrefresh & Hv & Hfit).
    destruct (renderBarSectionAndThenDraw_spec v w Hv Ht Hp)
      as (w' & line & Hrender & Hbar & Hint & Hdraws & Hline).
    exists w', line. rewrite Hrefresh, Hrender, Hbar.
    repeat split; try assumption; try (apply (running_bar_eq w); assumption).
    intros Hall. rewrite Hline. apply Hfit, Hall. exact He.
  - (* no estimate and no room for one *)
    destruct (refresh_sections_known w (mkEstimate (num 0) (num 0)) Hw Ht Hp)
      as (v & Hrefresh & Hv & Hfit); [lia|].
    destruct (renderBarSectionAndThenDraw_spec v w Hv Ht Hp)
      as (w' & line & Hrender & Hbar & Hint & Hdraws & Hline).
    exists w', line. rewrite Hrefresh, Hrender, Hbar.
    repeat split; try assumption; try (apply (running_bar_eq w); assumption).
    intros _. rewrite Hline. apply Hfit. split; vm_compute; lia.
  - (* the first estimate is computed *)
    destruct (refresh_first_estimate w calculator r Hw Hwide He Hcalc Hold)
      as (e & calculator' & (r' & Hold') & Hfirst).
    set (w1 := {| bar := set_latestEta (Some e)
                           (set_etaCalculator (Some calculator') (bar w));
                  host := host w |}) in *.
    assert (Hrun1 : running w1).
    { unfold running, w1. cbn. repeat split; try tauto. eauto. }
    destruct (refresh_sections_known w1 e Hw Ht Hp (λ _, eq_refl))
      as (v & Hrefresh & Hv & Hfit).
    destruct (renderBarSectionAndThenDraw_spec v w1 Hv Ht Hp)
      as (w' & line & Hrender & Hbar & Hint & Hdraws & Hline).
    exists w', line. rewrite Hfirst, Hrefresh, Hrender, Hbar.
    repeat split; try assumption; try (apply (running_bar_eq w1); assumption).
    intros Hall. rewrite Hline. apply Hfit, Hall. reflexivity.
Qed.

(** Below [MIN_BAR_WIDTH] columns the line is [width] times '#'. *)
Lemma refresh_narrow (w : World) :
  0 ≤ width_of w < MIN_BAR_WIDTH →
  ∃ w',
    refresh w = (Return tt, w')
    ∧ bar w' = bar w
    ∧ intervals (host w') = intervals (host w)
    ∧ draws w w' (string_repeat "#" (Z.to_nat (width_of w)))
    ∧ Z.of_nat (String.length (string_repeat "#" (Z.to_nat (width_of w)))) = width_of w.
Proof.
  intros Hw. unfold refresh. run_primitives. fold (width_of w).
  destruct (Z.ltb_spec (width_of w) MIN_BAR_WIDTH) as [_|?]; [|lia].
  rewrite String_repeat_num by lia.
  destruct (draw_spec (string_repeat "#" (Z.to_nat (width_of w))) w)
    as (w' & Hdraw & Hbar & Hint & Hdraws).
  exists w'. rewrite Hdraw. repeat split; try assumption.
  rewrite length_string_repeat. cbn [String.length]. lia.
Qed.

Lemma add_num (a b : Z) : to_Z (add (num a) (num b)) = a + b.
Proof.
  unfold to_Z, add, num. rewrite <- inject_Z_plus. apply Qfloor_Z.
Qed.

Lemma gt_add_num (a b c : Z) : gt (add (num a) (num b)) (num c) = (c <? a + b).
Proof.
  unfold gt, add, num. rewrite <- inject_Z_plus. apply (lt_num c (a + b)).
Qed.

(** An accepted [tick] on a terminal adds the value to the progress and
    redraws at once. *)
Lemma tick_accepted_spec (w : World) (value : Z) :
  running w →
  MIN_BAR_WIDTH ≤ width_of w →
  1 ≤ value →
  _progress (bar w) + value ≤ total (bar w) →
  ∃ w' line,
    tick (num value) w = (Return tt, w')
    ∧ running w'
    ∧ _progress (bar w') = _progress (bar w) + value
    ∧ total (bar w') = total (bar w)
    ∧ etaUpdateInterval (bar w') = etaUpdateInterval (bar w)
    ∧ intervals (host w')
      = intervals_after_redraw (set_progress (_progress (bar w) + value) (bar w))
                               (intervals (host w))
    ∧ draws w w' line
    ∧ ((∀ e, latestEta (bar w') = Some e → estimate_fits e) →
       Z.of_nat (String.length line) = width_of w).
Proof.
  intros Hrun Hw Hvalue Hsum.
  pose proof Hrun as (Hstate & Htty & Ht & Hp & calculator & r & Hcalc & Hold).
  unfold tick. rewrite Number_isInteger_num, lt_num. cbn [negb].
  destruct (Z.ltb_spec value 1) as [?|_]; [lia|].
  run_primitives.
  rewrite (bool_decide_eq_true_2 _ Hstate), gt_add_num, Htty, add_num. cbn [negb].
  destruct (Z.ltb_spec (total (bar w)) (_progress (bar w) + value)) as [?|_]; [lia|].
  set (w1 := {| bar := set_progress (_progress (bar w) + value) (bar w);
                host := host w |}).
  assert (Hrun1 : running w1).
  { unfold running, w1. cbn. repeat split; try tauto; try lia. eauto. }
  destruct (refresh_spec w1 Hrun1 Hw)
    as (w' & line & Hrefresh & Hrun' & Hp' & Ht' & Hi' & Hint & Hdraws & Hline).
  exists w', line. rewrite Hrefresh.
  split; [reflexivity|]. split; [exact Hrun'|]. split; [exact Hp'|].
  split; [exact Ht'|]. split; [exact Hi'|]. split; [exact Hint|].
  split; [exact Hdraws|exact Hline].
Qed.

End Redraw.

Section Timer.

Lemma start_spec (w : World) :
  state (bar w) = READY →
  isTTY (bar w) = true →
  1 ≤ total (bar w) →
  0 ≤ _progress (bar w) ≤ total (bar w) →
  ∃ w',
    start w = (Return tt, w')
    ∧ running w'
    ∧ _progress (bar w') = _progress (bar w)
    ∧ total (bar w') = total (bar w)
    ∧ width_of w' = width_of w
    ∧ etaUpdateInterval (bar w') = Some (next_handle (host w))
    ∧ intervals (host w') = {[ next_handle (host w) ]} ∪ intervals (host w).
Proof.
  intros Hstate Htty Ht Hp. unfold start. run_primitives.
  rewrite (bool_decide_eq_true_2 _ Hstate), Htty. cbn [negb].
  unfold hideCursor. run_primitives.
  eexists. split; [reflexivity|]. unfold running, width_of. cbn.
  repeat split; try lia; try assumption.
  eexists _, {| progress := 0; time := clock (host w) |}. split; reflexivity.
Qed.

(** A firing of the armed interval computes a fresh estimate and
    redraws; it clears the interval when it finds the bar complete. *)
Lemma fire_spec (w : World) (t : nat) :
  running w →
  MIN_BAR_WIDTH ≤ width_of w →
  t ∈ intervals (host w) →
  ∃ w' line,
    fire t w = (Return tt, w')
    ∧ running w'
    ∧ _progress (bar w') = _progress (bar w)
    ∧ intervals (host w') = intervals_after_redraw (bar w) (intervals (host w))
    ∧ draws w w' line.
Proof.
  intros Hrun Hw Ht.
  pose proof Hrun as (Hstate & Htty & Htot & Hp & calculator & r & Hcalc & Hold).
  unfold fire. run_primitives. rewrite (bool_decide_eq_true_2 _ Ht).
  unfold etaUpdateCallback. run_primitives.
  destruct (computeLatestEta_spec w calculator r Hcalc Hold) as (e & _ & Hcompute).
  rewrite Hcompute.
  match goal with |- context [refresh ?w1] =>
    assert (Hrun1 : running w1);
    [|destruct (refresh_spec w1 Hrun1 Hw)
        as (w' & line & Hrefresh & Hrun' & Hp' & _ & _ & Hint & Hdraws & _)]
  end.
  { unfold running. cbn. repeat split; try tauto.
    destruct (push_keeps_oldest (slidingWindow calculator)
                {| progress := _progress (bar w); time := clock (host w) |})
      as [r' Hr']; [rewrite Hold; eexists; reflexivity|].
    eexists _, r'. split; [reflexivity|exact Hr']. }
  exists w', line. rewrite Hrefresh.
  split; [reflexivity|]. split; [exact Hrun'|]. split; [exact Hp'|].
  split; [exact Hint|exact Hdraws].
Qed.

(** [log] on a running bar redraws, and so clears the interval when it
    finds the bar complete. *)
Lemma log_running_spec (w : World) (message : string) :
  running w →
  MIN_BAR_WIDTH ≤ width_of w →
  ∃ w',
    log message w = (Return tt, w')
    ∧ intervals (host w') = intervals_after_redraw (bar w) (intervals (host w)).
Proof.
  intros Hrun Hw.
  pose proof Hrun as (Hstate & Htty & _).
  unfold log. run_primitives.
  rewrite Htty, (bool_decide_eq_true_2 _ Hstate). cbn [negb orb].
  destruct (drawAtBottom (bar w)), (tryNotToBlink (bar w));
    match goal with |- context [refresh ?x] =>
      destruct (refresh_spec x) as (w' & line & Hrefresh & _ & _ & _ & _ & Hint & _);
      [exact Hrun | exact Hw | rewrite Hrefresh]
    end; cbn in Hint |- *; eexists; (split; [reflexivity|exact Hint]).
Qed.

End Timer.

(** ** The width of the drawn line *)

(** C1. The line drawn by [refresh] can be one column wider than the
    output.  A bar of total 710 and width 80, started at time 0 and
    ticked by 100 at time 100000, has speed 1 and an ETA of 610 seconds,
    which [humanizeDuration] renders in seven characters ("10m 10s"): the
    line has 81 characters.  A bar of total 1000029 ticked by 999999 at
    time 1000000 has speed 999.999, which [humanizeSpeed] renders in
    eleven characters ("1000.00 bps"): the line has 81 characters. *)
Theorem refresh_line_exceeds_width :
  (let w := at_time 100000 (after start (new_bar 710 (Some 80) true)) in
   let w' := after (tick (num 100)) w in
   (tick (num 100) w).1 = Return tt
   ∧ width_of w' = 80
   ∧ _progress (bar w') = 100
   ∧ total (bar w') = 710
   ∧ last_text w'
     = "[#####---------------------------------] 100/710 (14%) | eta 10m 10s |   1.00 bps"
   ∧ Z.of_nat (String.length (last_text w')) = 81)
  ∧
  (let w := at_time 1000000 (after start (new_bar 1000029 (Some 80) true)) in
   let w' := after (tick (num 999999)) w in
   (tick (num 999999) w).1 = Return tt
   ∧ width_of w' = 80
   ∧ _progress (bar w') = 999999
   ∧ total (bar w') = 1000029
   ∧ last_text w'
     = "[#############################-]  999999/1000029 (99%) |     eta 0s | 1000.00 bps"
   ∧ Z.of_nat (String.length (last_text w')) = 81).
Proof. vm_compute. repeat split. Qed.

(** The same line when the humanized strings fit: exactly the output
    width, for every width from 0 on. *)
Lemma refresh_line_fits (w : World) :
  running w →
  0 ≤ width_of w →
  ∃ w' line,
    refresh w = (Return tt, w')
    ∧ draws w w' line
    ∧ ((∀ e, latestEta (bar w') = Some e → estimate_fits e) →
       Z.of_nat (String.length line) = width_of w).
Proof.
  intros Hrun Hw.
  destruct (Z.lt_ge_cases (width_of w) MIN_BAR_WIDTH) as [Hnarrow|Hwide].
  - destruct (refresh_narrow w (conj Hw Hnarrow))
      as (w' & Hrefresh & _ & _ & Hdraws & Hline).
    eexists w', _. split; [exact Hrefresh|]. split; [exact Hdraws|].
    intros _. exact Hline.
  - destruct (refresh_spec w Hrun Hwide)
      as (w' & line & Hrefresh & _ & _ & _ & _ & _ & Hdraws & Hline).
    exists w', line. split; [exact Hrefresh|]. split; [exact Hdraws|exact Hline].
Qed.

(** ** Clearing the interval *)

(** C3 as documented fails: on a bar of total 1 the call [tick 1]
    completes the bar, and the interval armed by [start] is no longer
    armed when the call returns. *)
Lemma tick_completing_disarms_interval : ¬ tick_leaves_timer_armed.
Proof.
  intros H.
  set (w := after start (new_bar 1 (Some 40) true)).
  assert (Hgone : bool_decide (0%nat ∈ intervals (host (after (tick (num 1)) w))) = false)
    by (vm_compute; reflexivity).
  apply bool_decide_eq_false in Hgone. apply Hgone.
  apply (H w (after (tick (num 1)) w) (num 1) 0%nat).
  - vm_compute. reflexivity.
  - assert (Harmed : bool_decide (0%nat ∈ intervals (host w)) = true)
      by (vm_compute; reflexivity).
    apply bool_decide_eq_true in Harmed. exact Harmed.
  - vm_compute. reflexivity.
  - vm_compute. reflexivity.
Qed.

(** C3, amended. The redraw that finds a running bar of at least
    [MIN_BAR_WIDTH] columns complete clears the interval, whichever
    call triggers it.  The [tick] that brings the progress to the total
    clears the interval itself, before it returns, and a firing that was
    pending then does nothing.  A firing of the interval that finds the
    bar complete clears the interval, and so does a [log].  A [tick] or
    a firing that leaves the bar incomplete leaves the interval
    armed. *)
Theorem tick_completing_clears_interval (w : World) (t : nat) :
  running w →
  MIN_BAR_WIDTH ≤ width_of w →
  etaUpdateInterval (bar w) = Some t →
  (∀ value, 1 ≤ value → _progress (bar w) + value = total (bar w) →
     ∃ w',
       tick (num value) w = (Return tt, w')
       ∧ _progress (bar w') = total (bar w')
       ∧ (t ∉ intervals (host w'))
       ∧ fire t w' = (Return tt, w'))
  ∧ (_progress (bar w) = total (bar w) → t ∈ intervals (host w) →
     ∃ w',
       fire t w = (Return tt, w')
       ∧ (t ∉ intervals (host w'))
       ∧ fire t w' = (Return tt, w'))
  ∧ (_progress (bar w) = total (bar w) →
     ∀ message, ∃ w', log message w = (Return tt, w') ∧ (t ∉ intervals (host w')))
  ∧ (∀ value, 1 ≤ value → _progress (bar w) + value < total (bar w) →
     t ∈ intervals (host w) →
     ∃ w', tick (num value) w = (Return tt, w') ∧ t ∈ intervals (host w'))
  ∧ (_progress (bar w) < total (bar w) → t ∈ intervals (host w) →
     ∃ w', fire t w = (Return tt, w') ∧ t ∈ intervals (host w')).
Proof.
  intros Hrun Hw Ht.
  assert (Hclear : ∀ b armed,
    etaUpdateInterval b = Some t → total b = _progress b →
    t ∉ intervals_after_redraw b armed).
  { intros b armed Hb Hdone. unfold intervals_after_redraw.
    rewrite Hdone, Z.eqb_refl, Hb.
    apply not_elem_of_difference. right. apply elem_of_singleton. reflexivity. }
  assert (Hkeep : ∀ b armed,
    _progress b < total b → t ∈ armed → t ∈ intervals_after_redraw b armed).
  { intros b armed Hless Harmed. unfold intervals_after_redraw.
    destruct (Z.eqb_spec (total b) (_progress b)); [lia|exact Harmed]. }
  assert (Hpending : ∀ w', t ∉ intervals (host w') → fire t w' = (Return tt, w')).
  { intros w' Hgone. unfold fire. run_primitives.
    rewrite (bool_decide_eq_false_2 _ Hgone). reflexivity. }
  split; [|split; [|split; [|split]]].
  - intros value Hvalue Hsum.
    destruct (tick_accepted_spec w value Hrun Hw Hvalue ltac:(lia))
      as (w' & line & Htick & _ & Hp' & Ht' & _ & Hint & _ & _).
    assert (Hgone : t ∉ intervals (host w')).
    { rewrite Hint. apply Hclear; [exact Ht|cbn; lia]. }
    exists w'. split; [exact Htick|]. split; [lia|]. split; [exact Hgone|].
    apply Hpending, Hgone.
  - intros Hdone Harmed.
    destruct (fire_spec w t Hrun Hw Harmed) as (w' & line & Hfire & _ & _ & Hint & _).
    assert (Hgone : t ∉ intervals (host w')).
    { rewrite Hint. apply Hclear; [exact Ht|lia]. }
    exists w'. split; [exact Hfire|]. split; [exact Hgone|]. apply Hpending, Hgone.
  - intros Hdone message.
    destruct (log_running_spec w message Hrun Hw) as (w' & Hlog & Hint).
    exists w'. split; [exact Hlog|]. rewrite Hint. apply Hclear; [exact Ht|lia].
  - intros value Hvalue Hsum Harmed.
    destruct (tick_accepted_spec w value Hrun Hw Hvalue ltac:(lia))
      as (w' & line & Htick & _ & _ & _ & _ & Hint & _ & _).
    exists w'. split; [exact Htick|]. rewrite Hint. apply Hkeep; [cbn; lia|exact Harmed].
  - intros Hless Harmed.
    destruct (fire_spec w t Hrun Hw Harmed) as (w' & line & Hfire & _ & _ & Hint & _).
    exists w'. split; [exact Hfire|]. rewrite Hint. apply Hkeep; assumption.
Qed.

Lemma tick_completing_clears_interval_witness :
  (∃ w',
     tick (num 7) (after (tick (num 3)) (after start (new_bar 10 (Some 40) true)))
     = (Return tt, w')
     ∧ _progress (bar w') = total (bar w')
     ∧ (0%nat ∉ intervals (host w'))
     ∧ fire 0 w' = (Return tt, w'))
  ∧ (∃ w',
       fire 0 (resized 80 (after (tick (num 1)) (after start (resized 10 (new_bar 1 None true)))))
       = (Return tt, w')
       ∧ (0%nat ∉ intervals (host w'))
       ∧ fire 0 w' = (Return tt, w')).
Proof.
  split.
  - refine (proj1 (tick_completing_clears_interval
                     (after (tick (num 3)) (after start (new_bar 10 (Some 40) true))) 0
                     _ _ _) 7 _ _).
    + unfold running. vm_compute. repeat split; try discriminate.
      eexists _, _. split; reflexivity.
    + vm_compute. discriminate.
    + vm_compute. reflexivity.
    + lia.
    + vm_compute. reflexivity.
  - refine (proj1 (proj2 (tick_completing_clears_interval
                     (resized 80 (after (tick (num 1))
                                        (after start (resized 10 (new_bar 1 None true))))) 0
                     _ _ _)) _ _).
    + unfold running. vm_compute. repeat split; try discriminate.
      eexists _, _. split; reflexivity.
    + vm_compute. discriminate.
    + vm_compute. reflexivity.
    + vm_compute. reflexivity.
    + assert (H : bool_decide
                    (0%nat ∈ intervals
                       (host (resized 80 (after (tick (num 1))
                                (after start (resized 10 (new_bar 1 None true)))))))
                  = true) by (vm_compute; reflexivity).
      apply bool_decide_eq_true in H. exact H.
Defined.

(** A bar started and ticked within one millisecond: the speed is
    infinite, the line shows "eta done" with 3 of 10 done and the speed
    clamp "99999 gbps". *)
Example first_redraw_same_millisecond :
  let w := after (tick (num 3)) (after start (new_bar 10 (Some 80) true)) in
  latestEta (bar w) = Some {| eta := Fin 0; speed := POSITIVE_INFINITY |}
  ∧ last_text w
    = "[############----------------------------]  3/10 (30%) |   eta done | 99999 gbps".
Proof. vm_compute. split; reflexivity. Qed.

(** ** A bar on a stream that is not a terminal *)

Section NotTTY.

(** On a stream that is not a terminal [start] does nothing at all. *)
Lemma start_not_tty_noop (w : World) :
  state (bar w) = READY → isTTY (bar w) = false → start w = (Return tt, w).
Proof.
  intros Hstate Htty. unfold start. run_primitives.
  rewrite (bool_decide_eq_true_2 _ Hstate), Htty. reflexivity.
Qed.

Lemma ProgressBar_new_initial (total : number) (options : Options) (h : Host)
    (b : ProgressBar) :
  ProgressBar_new total options h = Return b →
  isTTY b = stream_isTTY h ∧ state b = READY.
Proof.
  unfold ProgressBar_new. intros Hnew.
  repeat match type of Hnew with
         | (if ?c then _ else _) = _ => destruct c; try discriminate
         | match ?c with _ => _ end = _ => destruct c; try discriminate
         end;
    inversion Hnew; subst b; split; reflexivity.
Qed.

Lemma not_tty_call (c : Call) (w : World) :
  isTTY (bar w) = false → state (bar w) = READY → intervals (host w) = ∅ →
  let w' := after (run_call c) w in
  isTTY (bar w') = false ∧ state (bar w') = READY ∧ intervals (host w') = ∅.
Proof.
  intros Htty Hstate Hint. cbn zeta. unfold after.
  destruct c as [|value| |message|t|now]; cbn [run_call].
  - rewrite start_not_tty_noop by assumption. auto.
  - unfold tick.
    destruct (Number_isInteger value); cbn [negb]; [|auto].
    destruct (lt value (num 1)); [auto|].
    run_primitives.
    rewrite bool_decide_eq_false_2 by (rewrite Hstate; discriminate). auto.
  - unfold stop. run_primitives. rewrite (bool_decide_eq_true_2 _ Hstate). auto.
  - unfold log. run_primitives. rewrite Htty. cbn. auto.
  - unfold fire. run_primitives. rewrite Hint.
    rewrite bool_decide_eq_false_2 by apply not_elem_of_empty. auto.
  - cbn. auto.
Qed.

(** However the bar is used, on a stream that is not a terminal its
    state never leaves [READY]: the tests of [isTTY] that [tick] and
    [stop] make after requiring a started bar are never reached. *)
Lemma not_tty_never_leaves_READY
    (total : number) (options : Options) (h : Host) (b : ProgressBar) (cs : list Call) :
  ProgressBar_new total options h = Return b →
  stream_isTTY h = false →
  intervals h = ∅ →
  state (bar (run_calls cs (mkWorld b h))) = READY.
Proof.
  intros Hnew Htty Hint.
  destruct (ProgressBar_new_initial _ _ _ _ Hnew) as [Hb Hstate].
  rewrite Htty in Hb.
  assert (Hinv : ∀ w, isTTY (bar w) = false → state (bar w) = READY →
                      intervals (host w) = ∅ → state (bar (run_calls cs w)) = READY).
  { induction cs as [|c cs IH]; intros w H1 H2 H3; [exact H2|].
    destruct (not_tty_call c w H1 H2 H3) as (H1' & H2' & H3').
    exact (IH _ H1' H2' H3'). }
  apply Hinv; assumption.
Qed.

End NotTTY.

(** ** More on the humanizers *)

Section HumanizerFacts.

(** Every duration from one minute up to an hour is rendered as the
    minutes, "m", and the seconds - unpadded below 10, preceded by a
    space from 10 on - followed by "s". *)
Lemma humanizeDuration_minutes (d : Z) :
  60 ≤ d < 3600 →
  humanizeDuration (num d)
  = String_Z (d / 60) ++ "m"
      ++ (if d mod 60 <? 10 then "" else " ") ++ String_Z (d mod 60) ++ "s".
Proof.
  intros Hd.
  assert (Hall : forallb (λ n, minutes_rendering_ok (60 + Z.of_nat n)) (List.seq 0%nat 3540%nat) = true)
    by (vm_compute; reflexivity).
  rewrite forallb_forall in Hall.
  specialize (Hall (Z.to_nat (d - 60))).
  rewrite Z2Nat.id in Hall by lia.
  replace (60 + (d - 60)) with d in Hall by lia.
  apply String.eqb_eq, Hall, List.in_seq. lia.
Qed.

End HumanizerFacts.

Section SpeedFacts.

Lemma Qfloor_bounds (x : Q) (a b : Z) :
  (inject_Z a <= x)%Q → (x < inject_Z b)%Q → a ≤ Qfloor x < b.
Proof.
  intros Ha Hb. split.
  - rewrite <- (Qfloor_Z a). apply Qfloor_resp_le, Ha.
  - pose proof (Qfloor_le x) as Hle.
    rewrite Zlt_Qlt. eapply Qle_lt_trans; [exact Hle|exact Hb].
Qed.

(** Below 1000 the speed is printed with exactly two decimals. *)
Lemma humanizeSpeed_below_1000 (q : Q) :
  (0 < q)%Q → (q < 1000)%Q →
  humanizeSpeed (Fin q)
  = (digits (Qfloor (q * 100 + (1 # 2)) / 100) ++ "."
       ++ two_digits (Qfloor (q * 100 + (1 # 2)) mod 100)) ++ " bps".
Proof.
  intros Hpos Hlt. unfold humanizeSpeed, seq, lt, num.
  assert (H0 : Qeq_bool q (inject_Z 0) = false).
  { destruct (Qeq_bool q (inject_Z 0)) eqn:E; [|reflexivity].
    apply Qeq_bool_iff in E. change (inject_Z 0) with 0%Q in E. lra. }
  assert (H1 : Qltb q (inject_Z 1000) = true) by (apply Qltb_true; exact Hlt).
  rewrite H0, H1. unfold toFixed2.
  assert (Habs : (Qabs q == q)%Q) by (apply Qabs_pos; lra).
  assert (H2 : Qle_bool (inject_Z (10 ^ 21)) (Qabs q) = false).
  { destruct (Qle_bool (inject_Z (10 ^ 21)) (Qabs q)) eqn:E; [|reflexivity].
    apply Qle_bool_iff in E. rewrite Habs in E.
    assert ((1000 <= inject_Z (10 ^ 21))%Q) by (vm_compute; discriminate). lra. }
  assert (H3 : Qltb q 0 = false) by (apply Qltb_false; lra).
  rewrite H2, H3.
  assert (Hn : Qfloor (Qabs q * 100 + (1 # 2)) = Qfloor (q * 100 + (1 # 2)))
    by (rewrite Habs; reflexivity).
  rewrite Hn. reflexivity.
Qed.

(** The result has at most ten characters below 999.995, and eleven
    from there up to 1000. *)
Lemma humanizeSpeed_below_1000_length (q : Q) :
  (0 < q)%Q → (q < 1000)%Q →
  if Qltb q (999995 # 1000)
  then (String.length (humanizeSpeed (Fin q)) ≤ 10)%nat
  else String.length (humanizeSpeed (Fin q)) = 11%nat.
Proof.
  intros Hpos Hlt. rewrite humanizeSpeed_below_1000 by assumption.
  rewrite !length_append. cbn [String.length two_digits].
  destruct (Qltb q (999995 # 1000)) eqn:E.
  - assert (Hq : (q < 999995 # 1000)%Q).
    { unfold Qltb in E. apply negb_true_iff in E.
      destruct (Qlt_le_dec q (999995 # 1000)) as [H|H]; [exact H|].
      apply Qle_bool_iff in H. congruence. }
    destruct (Qfloor_bounds (q * 100 + (1 # 2)) 0 100000) as [Hlo Hhi].
    { change (inject_Z 0) with 0%Q. lra. }
    { change (inject_Z 100000) with (100000#1)%Q. lra. }
    pose proof (length_digits_upper (Qfloor (q * 100 + (1 # 2)) / 100) 2) as Hlen.
    assert (0 ≤ Qfloor (q * 100 + (1 # 2)) / 100 < 10 ^ Z.of_nat 3).
    { change (10 ^ Z.of_nat 3) with 1000.
      split; [apply Z.div_pos; lia|]. apply Z.div_lt_upper_bound; lia. }
    specialize (Hlen ltac:(assumption)). lia.
  - assert (Hq : (999995 # 1000 <= q)%Q).
    { unfold Qltb in E. apply negb_false_iff, Qle_bool_iff in E. exact E. }
    destruct (Qfloor_bounds (q * 100 + (1 # 2)) 100000 100001) as [Hlo Hhi].
    { change (inject_Z 100000) with (100000#1)%Q. lra. }
    { change (inject_Z 100001) with (100001#1)%Q. lra. }
    replace (Qfloor (q * 100 + (1 # 2))) with 100000 by lia.
    reflexivity.
Qed.

End SpeedFacts.

(** * Further properties *)

Import Usage.

(** ** The queue and the tracker *)

Section WindowFacts.
Context {T : Type}.
Implicit Types (q : Queue T) (l : list T).
Local Open Scope list_scope.

Lemma oldest_push_all (C : nat) l :
  (1 ≤ C)%nat → l ≠ [] →
  oldest (push_all l (mkQueue C [] 0)) = l !! (length l - C)%nat.
Proof.
  intros HC Hl.
  destruct (push_all_invariant C l HC) as (Hcap & Hlen & Hidx & Hzero & Hret).
  assert (Hpos : (0 < length l)%nat) by (destruct l; [congruence|cbn; lia]).
  rewrite oldest_is_head_of_retained.
  - rewrite Hret, lookup_drop. f_equal. lia.
  - destruct (Nat.lt_ge_cases (length l) C) as [Hlt|Hge].
    + rewrite (Hzero Hlt). lia.
    + lia.
Qed.

End WindowFacts.

(** X1. However many elements are pushed on a queue of capacity
    [C >= 1], the array never grows beyond [C] slots and the index stays
    inside it: the assignment [content[index] = element] always
    overwrites a slot that exists. *)
Theorem queue_never_exceeds_capacity {T : Type} (C : nat) (l : list T) :
  (1 ≤ C)%nat →
  ∃ q0 : Queue T,
    Queue_new (num (Z.of_nat C)) = Return q0
    ∧ let q := push_all l q0 in
      capacity q = C
      ∧ length (content q) = (length l `min` C)%nat
      ∧ (index q < C)%nat
      ∧ (l ≠ [] → (index q < length (content q))%nat).
Proof.
  intros HC. exists (mkQueue C [] 0). split; [apply Queue_new_num, HC|].
  cbn zeta.
  destruct (push_all_invariant C l HC) as (Hcap & Hlen & Hidx & Hzero & _).
  repeat split; try assumption.
  intros Hl. assert (0 < length l)%nat by (destruct l; [congruence|cbn; lia]).
  destruct (Nat.lt_ge_cases (length l) C) as [Hlt|Hge]; [rewrite (Hzero Hlt)|]; lia.
Qed.

Lemma queue_never_exceeds_capacity_witness :
  ∃ q0 : Queue Z,
    Queue_new (num (Z.of_nat 2)) = Return q0
    ∧ let q := push_all [7; 8; 9] q0 in
      capacity q = 2%nat
      ∧ length (content q) = (length [7; 8; 9] `min` 2)%nat
      ∧ (index q < 2)%nat
      ∧ ([7; 8; 9] ≠ [] → (index q < length (content q))%nat).
Proof.
  apply (queue_never_exceeds_capacity 2 [7; 8; 9]). lia.
Defined.

(** X2. Until the capacity is reached the queue keeps everything: after
    at most [C] pushes the retained elements are all the pushed ones in
    order, and the oldest is the first one pushed. *)
Theorem queue_below_capacity_keeps_all {T : Type} (C : nat) (first : T) (rest : list T) :
  (S (length rest) ≤ C)%nat →
  ∃ q0 : Queue T,
    Queue_new (num (Z.of_nat C)) = Return q0
    ∧ retained (push_all (first :: rest) q0) = first :: rest
    ∧ oldest (push_all (first :: rest) q0) = Some first.
Proof.
  intros Hlen. assert (HC : (1 ≤ C)%nat) by lia.
  exists (mkQueue C [] 0). split; [apply Queue_new_num, HC|].
  destruct (push_all_invariant C (first :: rest) HC) as (Hcap & Hlenc & Hidx & Hzero & Hret).
  cbn [length] in *.
  replace (S (length rest) - C)%nat with 0%nat in Hret by lia.
  rewrite drop_0 in Hret. split; [exact Hret|].
  rewrite oldest_push_all by (exact HC || discriminate). cbn [length].
  replace (S (length rest) - C)%nat with 0%nat by lia. reflexivity.
Qed.

Lemma queue_below_capacity_keeps_all_witness :
  ∃ q0 : Queue Z,
    Queue_new (num (Z.of_nat 3)) = Return q0
    ∧ retained (push_all (7 :: [8]) q0) = 7 :: [8]
    ∧ oldest (push_all (7 :: [8]) q0) = Some 7.
Proof.
  apply (queue_below_capacity_keeps_all 3 7 [8]). cbn. lia.
Defined.

Section TrackerFacts.
Local Open Scope list_scope.

Lemma EtaTracker_new_num (C : nat) (now : Z) :
  (1 ≤ C)%nat →
  EtaTracker_new (num (Z.of_nat C)) now
  = Return {| slidingWindow :=
                push_all [{| progress := 0; time := now |}] (mkQueue C [] 0) |}.
Proof.
  intros HC. unfold EtaTracker_new. rewrite Queue_new_num by exact HC. reflexivity.
Qed.

Lemma update_returns (now cur : Z) (total : option Z) (t : EtaTracker) (r : Sample) :
  oldest (slidingWindow t) = Some r →
  ∃ e,
    updateProgressAndGetLatestEta now cur total t
    = Return (e, {| slidingWindow := push {| progress := cur; time := now |}
                                          (slidingWindow t) |})
    ∧ speed e = div (mul (num (cur - progress r)) (num 1000)) (num (now - time r)).
Proof.
  intros Hold. unfold updateProgressAndGetLatestEta. rewrite Hold.
  eexists. split; reflexivity.
Qed.

Lemma update_all_window (C : nat) (us : list Update) :
  (1 ≤ C)%nat →
  ∀ l : list Sample, l ≠ [] →
    ∃ es,
      update_all us {| slidingWindow := push_all l (mkQueue C [] 0) |}
      = Return (es, {| slidingWindow :=
                         push_all (l ++ map sample_of us) (mkQueue C [] 0) |})
      ∧ length es = length us.
Proof.
  intros HC. induction us as [|u us IH]; intros l Hl.
  - exists []. rewrite app_nil_r. split; reflexivity.
  - cbn [update_all map].
    assert (Hsome : is_Some (oldest (push_all l (mkQueue C [] 0)))).
    { rewrite oldest_push_all by assumption. apply lookup_lt_is_Some.
      destruct l; [congruence|cbn; lia]. }
    destruct Hsome as [r Hr].
    destruct (update_returns (at_ms u) (currentProgress u) (known_total u)
                {| slidingWindow := push_all l (mkQueue C [] 0) |} r Hr)
      as (e & Hupd & _).
    rewrite Hupd. cbn [slidingWindow].
    change (push {| progress := currentProgress u; time := at_ms u |}
                 (push_all l (mkQueue C [] 0)))
      with (push (sample_of u) (push_all l (mkQueue C [] 0))).
    rewrite <- push_all_snoc.
    destruct (IH (l ++ [sample_of u])) as (es & Hes & Hlen).
    { destruct l; discriminate. }
    rewrite Hes. exists (e :: es). rewrite <- app_assoc. cbn [app length].
    split; [reflexivity|]. rewrite Hlen. reflexivity.
Qed.

End TrackerFacts.

(** X3. A tracker constructed with a positive integer width starts with
    the sample (progress 0, construction time) as its oldest, and no
    sequence of updates ever finds the window empty: every update
    returns an estimate. *)
Theorem tracker_window_never_empty (C : nat) (now : Z) (us : list Update) :
  (1 ≤ C)%nat →
  ∃ t0 es t',
    EtaTracker_new (num (Z.of_nat C)) now = Return t0
    ∧ oldest (slidingWindow t0) = Some {| progress := 0; time := now |}
    ∧ update_all us t0 = Return (es, t')
    ∧ length es = length us
    ∧ is_Some (oldest (slidingWindow t')).
Proof.
  intros HC.
  destruct (update_all_window C us HC [{| progress := 0; time := now |}])
    as (es & Hes & Hlen); [discriminate|].
  eexists _, es, _. split; [apply EtaTracker_new_num, HC|].
  split.
  { cbn [slidingWindow]. rewrite oldest_push_all by (exact HC || discriminate).
    cbn [length]. replace (1 - C)%nat with 0%nat by lia. reflexivity. }
  split; [exact Hes|]. split; [exact Hlen|].
  cbn [slidingWindow]. rewrite oldest_push_all; [|exact HC|discriminate].
  apply lookup_lt_is_Some. cbn [length app]. lia.
Qed.

Lemma tracker_window_never_empty_witness :
  ∃ t0 es t',
    EtaTracker_new (num (Z.of_nat 2)) 1000 = Return t0
    ∧ oldest (slidingWindow t0) = Some {| progress := 0; time := 1000 |}
    ∧ update_all [mkUpdate 2000 5 (Some 10); mkUpdate 3000 7 None; mkUpdate 4000 10 (Some 10)] t0
      = Return (es, t')
    ∧ length es
      = length [mkUpdate 2000 5 (Some 10); mkUpdate 3000 7 None; mkUpdate 4000 10 (Some 10)]
    ∧ is_Some (oldest (slidingWindow t')).
Proof.
  apply (tracker_window_never_empty 2 1000
           [mkUpdate 2000 5 (Some 10); mkUpdate 3000 7 None; mkUpdate 4000 10 (Some 10)]).
  lia.
Defined.

(** X4. The speed an update returns is measured against the sample
    recorded [C] updates earlier, or against the construction sample
    while fewer than [C] updates have been made: after the updates [us]
    on a tracker of width [C], the next update compares itself with
    element [length us + 1 - C] of the construction sample followed by
    the samples of [us]. *)
Theorem tracker_speed_spans_window (C : nat) (now : Z) (us : list Update) (u : Update) :
  (1 ≤ C)%nat →
  ∃ t0 es t' e t'' r,
    EtaTracker_new (num (Z.of_nat C)) now = Return t0
    ∧ update_all us t0 = Return (es, t')
    ∧ updateProgressAndGetLatestEta (at_ms u) (currentProgress u) (known_total u) t'
      = Return (e, t'')
    ∧ ({| progress := 0; time := now |} :: map sample_of us) !! (S (length us) - C)%nat
      = Some r
    ∧ speed e
      = div (mul (num (currentProgress u - progress r)) (num 1000))
            (num (at_ms u - time r)).
Proof.
  intros HC.
  destruct (update_all_window C us HC [{| progress := 0; time := now |}])
    as (es & Hes & Hlen); [discriminate|].
  cbn [app] in Hes.
  set (l := {| progress := 0; time := now |} :: map sample_of us) in *.
  assert (Hidx : (S (length us) - C < length l)%nat)
    by (unfold l; cbn [length]; rewrite length_map; lia).
  destruct (lookup_lt_is_Some_2 l _ Hidx) as [r Hr].
  assert (Hold : oldest (push_all l (mkQueue C [] 0)) = Some r).
  { rewrite oldest_push_all; [|exact HC|discriminate].
    unfold l at 1. cbn [length]. rewrite length_map. exact Hr. }
  destruct (update_returns (at_ms u) (currentProgress u) (known_total u)
              {| slidingWindow := push_all l (mkQueue C [] 0) |} r Hold)
    as (e & Hupd & Hspeed).
  eexists _, es, _, e, _, r.
  split; [apply EtaTracker_new_num, HC|]. split; [exact Hes|].
  split; [exact Hupd|]. split; [exact Hr|exact Hspeed].
Qed.

Lemma tracker_speed_spans_window_witness :
  ∃ t0 es t' e t'' r,
    EtaTracker_new (num (Z.of_nat 2)) 0 = Return t0
    ∧ update_all [mkUpdate 1000 5 (Some 100); mkUpdate 2000 20 (Some 100)] t0
      = Return (es, t')
    ∧ updateProgressAndGetLatestEta
        (at_ms (mkUpdate 3000 50 (Some 100)))
        (currentProgress (mkUpdate 3000 50 (Some 100)))
        (known_total (mkUpdate 3000 50 (Some 100))) t'
      = Return (e, t'')
    ∧ ({| progress := 0; time := 0 |}
         :: map sample_of [mkUpdate 1000 5 (Some 100); mkUpdate 2000 20 (Some 100)])
        !! (S 2 - 2)%nat
      = Some r
    ∧ speed e
      = div (mul (num (currentProgress (mkUpdate 3000 50 (Some 100)) - progress r)) (num 1000))
            (num (at_ms (mkUpdate 3000 50 (Some 100)) - time r)).
Proof.
  apply (tracker_speed_spans_window 2 0
           [mkUpdate 1000 5 (Some 100); mkUpdate 2000 20 (Some 100)]
           (mkUpdate 3000 50 (Some 100))).
  lia.
Defined.

(** X5. A stalled process: when the progress equals the oldest sample's,
    time has passed and the total is not reached, the speed is exactly 0
    and the ETA plus infinity, shown as "0 bps" and "--"; with an
    unknown total the ETA is plus infinity whatever the speed. *)
Theorem tracker_stalled_or_unknown
    (now cur : Z) (total : option Z) (t : EtaTracker) (r : Sample) :
  oldest (slidingWindow t) = Some r →
  time r < now →
  ∃ e t',
    updateProgressAndGetLatestEta now cur total t = Return (e, t')
    ∧ (total = None → eta e = POSITIVE_INFINITY ∧ humanizeDuration (eta e) = "--")
    ∧ (cur = progress r →
       seq (speed e) (num 0) = true
       ∧ humanizeSpeed (speed e) = "0 bps"
       ∧ ∀ total', total = Some total' → cur < total' →
           eta e = POSITIVE_INFINITY ∧ humanizeDuration (eta e) = "--").
Proof.
  intros Hold Htime. unfold updateProgressAndGetLatestEta. rewrite Hold.
  eexists _, _. split; [reflexivity|]. cbn [eta speed].
  split.
  { intros ->. cbn. split; reflexivity. }
  intros ->. rewrite Z.sub_diag.
  assert (Hspeed : div (mul (num 0) (num 1000)) (num (now - time r))
                   = Fin (inject_Z 0 * inject_Z 1000 / inject_Z (now - time r))).
  { unfold mul. fold (num (now - time r)).
    change (Fin (inject_Z 0 * inject_Z 1000)) with (Fin (0 * 1000)%Q).
    unfold div, num.
    destruct (Qeq_bool (inject_Z (now - time r)) 0) eqn:E; [|reflexivity].
    apply Qeq_bool_iff in E. change 0%Q with (inject_Z 0) in E.
    apply (proj1 (inject_Z_injective _ _)) in E. lia. }
  rewrite Hspeed.
  assert (Hzero : Qeq_bool (inject_Z 0 * inject_Z 1000 / inject_Z (now - time r)) 0 = true).
  { apply Qeq_bool_iff. unfold Qdiv. ring. }
  assert (Hzero' :
    Qeq_bool (inject_Z 0 * inject_Z 1000 / inject_Z (now - time r)) (inject_Z 0) = true)
    by exact Hzero.
  split; [exact Hzero|].
  split.
  { unfold humanizeSpeed, seq, num. rewrite Hzero'. reflexivity. }
  intros total' -> Hlt.
  assert (Htot : total_is (Some total') (progress r) = false)
    by (unfold total_is; apply Z.eqb_neq; lia).
  rewrite Htot.
  assert (Heta :
    div (num (total' - progress r))
        (Fin (inject_Z 0 * inject_Z 1000 / inject_Z (now - time r)))
    = POSITIVE_INFINITY).
  { unfold div, num. rewrite Hzero.
    destruct (total' - progress r) as [|p|p] eqn:E; try lia. reflexivity. }
  rewrite Heta. split; reflexivity.
Qed.

Lemma tracker_stalled_or_unknown_witness :
  ∃ e t',
    updateProgressAndGetLatestEta 5000 3 (Some 10)
      {| slidingWindow := mkQueue 120 [mkSample 3 1000] 0 |} = Return (e, t')
    ∧ (Some 10 = None → eta e = POSITIVE_INFINITY ∧ humanizeDuration (eta e) = "--")
    ∧ (3 = progress (mkSample 3 1000) →
       seq (speed e) (num 0) = true
       ∧ humanizeSpeed (speed e) = "0 bps"
       ∧ ∀ total', Some 10 = Some total' → 3 < total' →
           eta e = POSITIVE_INFINITY ∧ humanizeDuration (eta e) = "--").
Proof.
  apply (tracker_stalled_or_unknown 5000 3 (Some 10)
           {| slidingWindow := mkQueue 120 [mkSample 3 1000] 0 |} (mkSample 3 1000)).
  - reflexivity.
  - simpl. lia.
Defined.

(** ** The humanizers on every input *)

Section NumberFacts.

Lemma Qltb_spec (a b : Q) : if Qltb a b then (a < b)%Q else (b <= a)%Q.
Proof.
  unfold Qltb. destruct (Qle_bool b a) eqn:E; cbn [negb].
  - apply Qle_bool_iff, E.
  - apply Qnot_le_lt. intros H. apply Qle_bool_iff in H. congruence.
Qed.

Lemma Qeq_bool_true (a b : Q) : (a == b)%Q → Qeq_bool a b = true.
Proof. apply Qeq_bool_iff. Qed.

Lemma Qeq_bool_false (a b : Q) : ¬ (a == b)%Q → Qeq_bool a b = false.
Proof.
  intros H. destruct (Qeq_bool a b) eqn:E; [|reflexivity].
  apply Qeq_bool_iff in E. contradiction.
Qed.

Lemma Qltb_int (x : Q) (a b : Z) : (x == inject_Z a)%Q → Qltb x (inject_Z b) = (a <? b).
Proof.
  intros Hx. pose proof (Qltb_spec x (inject_Z b)) as H.
  destruct (Qltb x (inject_Z b)); rewrite Hx in H.
  - rewrite <- Zlt_Qlt in H. symmetry. apply Z.ltb_lt, H.
  - rewrite <- Zle_Qle in H. symmetry. apply Z.ltb_ge, H.
Qed.

Lemma String_Q_int (x : Q) (z : Z) :
  (x == inject_Z z)%Q → 0 ≤ z → String_Q x = digits z.
Proof.
  intros Hx Hz. unfold String_Q.
  assert (Hnn : (0 <= x)%Q).
  { rewrite Hx. change 0%Q with (inject_Z 0). rewrite <- Zle_Qle. exact Hz. }
  assert (Habs : (Qabs x == inject_Z z)%Q) by (rewrite Qabs_pos by exact Hnn; exact Hx).
  assert (Hfloor : Qfloor (Qabs x) = z) by (rewrite Habs; apply Qfloor_Z).
  rewrite Hfloor, (Qltb_false x 0 Hnn).
  rewrite (Qeq_bool_true (Qabs x - inject_Z z) 0) by (rewrite Habs; ring).
  change ("" ++ digits z ++ "") with (digits z ++ "").
  apply append_nil_r.
Qed.

Lemma frac_digits_S (fuel : nat) (r : Q) :
  frac_digits (S fuel) r
  = if Qeq_bool r 0 then ""
    else String (digit_char (Qfloor (r * 10)))
                (frac_digits fuel (r * 10 - inject_Z (Qfloor (r * 10)))).
Proof. reflexivity. Qed.

Lemma String_Q_tenths (x : Q) (k : Z) :
  (x == inject_Z k / inject_Z 10)%Q → 0 ≤ k → String_Q x = tenths k.
Proof.
  intros Hx Hk. unfold String_Q, tenths.
  pose proof (Z.div_mod k 10 ltac:(lia)) as Hdm.
  pose proof (Z.mod_pos_bound k 10 ltac:(lia)) as Hmod.
  assert (Hsplit : (x == inject_Z (k / 10) + inject_Z (k mod 10) / inject_Z 10)%Q).
  { rewrite Hx. rewrite Hdm at 1. rewrite inject_Z_plus, inject_Z_mult. field. }
  assert (Hnn : (0 <= x)%Q).
  { rewrite Hx. apply Qle_shift_div_l; [reflexivity|]. rewrite Qmult_0_l.
    change 0%Q with (inject_Z 0). rewrite <- Zle_Qle. exact Hk. }
  assert (Habs : (Qabs x == x)%Q) by (apply Qabs_pos, Hnn).
  assert (Hfloor : Qfloor (Qabs x) = k / 10).
  { rewrite Habs, Hx. symmetry. apply Zdiv_Qdiv. }
  rewrite Hfloor, (Qltb_false x 0 Hnn).
  change ("" ++ ?s) with s.
  assert (Hr : (Qabs x - inject_Z (k / 10) == inject_Z (k mod 10) / inject_Z 10)%Q)
    by (rewrite Habs, Hsplit; ring).
  f_equal.
  destruct (Z.eqb_spec (k mod 10) 0) as [H0|H0].
  - rewrite Qeq_bool_true; [reflexivity|]. rewrite Hr, H0. reflexivity.
  - rewrite Qeq_bool_false.
    2:{ rewrite Hr. intros E. apply H0.
        assert (E' : (inject_Z (k mod 10) == 0)%Q).
        { rewrite <- (Qmult_0_l (inject_Z 10)).
          rewrite <- E. field. }
        change 0%Q with (inject_Z 0) in E'.
        apply (proj1 (inject_Z_injective _ _)), E'. }
    f_equal. rewrite (frac_digits_S 19).
    rewrite Qeq_bool_false.
    2:{ rewrite Hr. intros E. apply H0.
        assert (E' : (inject_Z (k mod 10) == 0)%Q).
        { rewrite <- (Qmult_0_l (inject_Z 10)).
          rewrite <- E. field. }
        change 0%Q with (inject_Z 0) in E'.
        apply (proj1 (inject_Z_injective _ _)), E'. }
    assert (Hd : Qfloor ((Qabs x - inject_Z (k / 10)) * 10) = k mod 10).
    { assert (E : ((Qabs x - inject_Z (k / 10)) * 10 == inject_Z (k mod 10))%Q)
        by (rewrite Hr; field).
      rewrite E. apply Qfloor_Z. }
    rewrite Hd. f_equal. rewrite (frac_digits_S 18).
    rewrite Qeq_bool_true; [reflexivity|].
    rewrite Hr. field.
Qed.

Lemma Math_floor_div_num (a b : Z) :
  1 ≤ b → Math_floor (div (num a) (num b)) = num (a / b).
Proof.
  intros Hb. rewrite div_num_pos by exact Hb. unfold Math_floor, num.
  rewrite <- Zdiv_Qdiv. reflexivity.
Qed.

Lemma rem_num (a b : Z) :
  0 ≤ a → 1 ≤ b →
  ∃ x, rem (num a) (num b) = Fin x ∧ (x == inject_Z (a mod b))%Q.
Proof.
  intros Ha Hb. unfold rem, num.
  rewrite Qeq_bool_false.
  2:{ change 0%Q with (inject_Z 0). intros E.
      apply (proj1 (inject_Z_injective _ _)) in E. lia. }
  eexists. split; [reflexivity|].
  assert (Hnn : (0 <= inject_Z a / inject_Z b)%Q).
  { apply Qle_shift_div_l.
    - change 0%Q with (inject_Z 0). rewrite <- Zlt_Qlt. lia.
    - rewrite Qmult_0_l. change 0%Q with (inject_Z 0). rewrite <- Zle_Qle. exact Ha. }
  unfold Qtrunc. rewrite (Qltb_false _ 0 Hnn), <- Zdiv_Qdiv.
  rewrite <- inject_Z_mult. unfold Qminus. rewrite <- inject_Z_opp, <- inject_Z_plus.
  rewrite Z.mod_eq by lia. reflexivity.
Qed.

End NumberFacts.

Section DurationFacts.

Lemma div_Fin_num (y : Q) (b : Z) : 1 ≤ b → div (Fin y) (num b) = Fin (y / inject_Z b).
Proof.
  intros Hb. unfold div, num. rewrite Qeq_bool_false; [reflexivity|].
  change 0%Q with (inject_Z 0). intros E.
  apply (proj1 (inject_Z_injective _ _)) in E. lia.
Qed.

Lemma String_Fin_int (x : Q) (z : Z) :
  (x == inject_Z z)%Q → 0 ≤ z → String_ (Fin x) = digits z.
Proof. apply String_Q_int. Qed.

Lemma twoChar_int (x : Q) (z : Z) :
  (x == inject_Z z)%Q → 0 ≤ z → twoChar (Fin x) = twoChar_Z z.
Proof.
  intros Hx Hz. unfold twoChar, twoChar_Z, lt, num.
  rewrite (Qltb_int x z 10 Hx), (String_Fin_int x z Hx Hz). reflexivity.
Qed.

(** A duration that is not zero and does not round below zero is
    rendered from its rounding, in integer arithmetic. *)
Lemma humanizeDuration_rounds (q : Q) :
  ¬ (q == 0)%Q → 0 ≤ Qfloor (q + (1 # 2)) →
  humanizeDuration (Fin q) = rendering (Qfloor (q + (1 # 2))).
Proof.
  intros Hq HD. unfold humanizeDuration.
  change (seq (Fin q) (num 0)) with (Qeq_bool q (inject_Z 0)).
  change (seq POSITIVE_INFINITY (Fin q)) with false.
  rewrite (Qeq_bool_false q (inject_Z 0) Hq).
  change (Math_round (Fin q)) with (num (Qfloor (q + (1 # 2)))).
  set (D := Qfloor (q + (1 # 2))) in *.
  cbn zeta. rewrite !lt_num. unfold rendering.
  destruct (Z.ltb_spec D 60) as [H1|H1].
  { rewrite String_num_nonneg, String_Z_nonneg by exact HD. reflexivity. }
  destruct (Z.ltb_spec D (60 * 60)) as [H2|H2].
  { destruct (rem_num D 60) as (x & Hrem & Hx); [lia|lia|].
    pose proof (Z.mod_pos_bound D 60 ltac:(lia)) as Hmod.
    rewrite Hrem. unfold sub, num at 1. rewrite div_Fin_num by lia.
    rewrite (twoChar_int x (D mod 60) Hx) by lia.
    rewrite (String_Fin_int _ (D / 60)); [reflexivity| |apply Z.div_pos; lia].
    rewrite Hx. rewrite (Z.div_mod D 60) at 1 by lia.
    rewrite inject_Z_plus, inject_Z_mult. field. }
  destruct (Z.ltb_spec D (60 * 60 * 100)) as [H3|H3].
  { rewrite !Math_floor_div_num by lia.
    destruct (rem_num (D / 60) 60) as (x & Hrem & Hx); [apply Z.div_pos; lia|lia|].
    pose proof (Z.mod_pos_bound (D / 60) 60 ltac:(lia)) as Hmod.
    rewrite Hrem, (twoChar_int x _ Hx) by lia.
    rewrite String_num_nonneg by (apply Z.div_pos; lia). reflexivity. }
  destruct (Z.ltb_spec D (60 * 60 * 24 * 100)) as [H4|H4].
  { rewrite !Math_floor_div_num by lia.
    destruct (rem_num (D / (60 * 60)) 24) as (x & Hrem & Hx); [apply Z.div_pos; lia|lia|].
    pose proof (Z.mod_pos_bound (D / (60 * 60)) 24 ltac:(lia)) as Hmod.
    rewrite Hrem, (twoChar_int x _ Hx) by lia.
    rewrite String_num_nonneg by (apply Z.div_pos; lia). reflexivity. }
  destruct (Z.ltb_spec D (60 * 60 * 24 * 100000)) as [H5|H5].
  { rewrite !Math_floor_div_num by lia.
    rewrite String_num_nonneg by (apply Z.div_pos; lia). reflexivity. }
  reflexivity.
Qed.

Lemma length_digits_lt (n b : Z) (k : nat) :
  0 ≤ n < b → b ≤ 10 ^ Z.of_nat (S k) → (String.length (digits n) ≤ S k)%nat.
Proof. intros Hn Hb. apply length_digits_upper. lia. Qed.

Lemma length_twoChar_Z (n : Z) :
  0 ≤ n < 100 → (String.length (twoChar_Z n) ≤ 3)%nat.
Proof.
  intros Hn. unfold twoChar_Z.
  destruct (Z.ltb_spec n 10).
  - pose proof (length_digits_lt n 10 0 ltac:(lia) ltac:(apply Z.leb_le; reflexivity)). lia.
  - rewrite length_append. cbn [String.length].
    pose proof (length_digits_lt n 100 1 ltac:(lia) ltac:(apply Z.leb_le; reflexivity)). lia.
Qed.

Lemma length_rendering (d : Z) : 0 ≤ d → (String.length (rendering d) ≤ 7)%nat.
Proof.
  intros Hd. unfold rendering.
  destruct (Z.ltb_spec d 60) as [H1|H1].
  { rewrite length_append, String_Z_nonneg by exact Hd. cbn [String.length].
    pose proof (length_digits_lt d 60 1 ltac:(lia) ltac:(apply Z.leb_le; reflexivity)). lia. }
  destruct (Z.ltb_spec d (60 * 60)) as [H2|H2].
  { rewrite !length_append. cbn [String.length].
    assert (0 ≤ d / 60 < 60)
      by (split; [apply Z.div_pos|apply Z.div_lt_upper_bound]; lia).
    pose proof (length_digits_lt (d / 60) 60 1 ltac:(lia) ltac:(apply Z.leb_le; reflexivity)).
    pose proof (length_twoChar_Z (d mod 60)
                  ltac:(pose proof (Z.mod_pos_bound d 60); lia)). lia. }
  destruct (Z.ltb_spec d (60 * 60 * 100)) as [H3|H3].
  { rewrite !length_append. cbn [String.length].
    assert (0 ≤ d / (60 * 60) < 100)
      by (split; [apply Z.div_pos|apply Z.div_lt_upper_bound]; lia).
    pose proof (length_digits_lt (d / (60 * 60)) 100 1 ltac:(lia) ltac:(apply Z.leb_le; reflexivity)).
    pose proof (length_twoChar_Z ((d / 60) mod 60)
                  ltac:(pose proof (Z.mod_pos_bound (d / 60) 60); lia)). lia. }
  destruct (Z.ltb_spec d (60 * 60 * 24 * 100)) as [H4|H4].
  { rewrite !length_append. cbn [String.length].
    assert (0 ≤ d / (60 * 60 * 24) < 100)
      by (split; [apply Z.div_pos|apply Z.div_lt_upper_bound]; lia).
    pose proof (length_digits_lt (d / (60 * 60 * 24)) 100 1 ltac:(lia) ltac:(apply Z.leb_le; reflexivity)).
    pose proof (length_twoChar_Z ((d / (60 * 60)) mod 24)
                  ltac:(pose proof (Z.mod_pos_bound (d / (60 * 60)) 24); lia)). lia. }
  destruct (Z.ltb_spec d (60 * 60 * 24 * 100000)) as [H5|H5].
  { rewrite !length_append. cbn [String.length].
    assert (0 ≤ d / (60 * 60 * 24) < 100000)
      by (split; [apply Z.div_pos|apply Z.div_lt_upper_bound]; lia).
    pose proof (length_digits_lt (d / (60 * 60 * 24)) 100000 4 ltac:(lia) ltac:(apply Z.leb_le; reflexivity)).
    lia. }
  cbn. lia.
Qed.

Lemma Qfloor_round_nonneg (q : Q) : (0 <= q)%Q → 0 ≤ Qfloor (q + (1 # 2)).
Proof.
  intros Hq. destruct (Qfloor_bounds (q + (1 # 2)) 0 (Qfloor (q + (1 # 2)) + 1)) as [H _].
  - change (inject_Z 0) with 0%Q. lra.
  - apply Qlt_floor.
  - exact H.
Qed.

End DurationFacts.

(** X6. Every non-negative duration, [NaN] and plus infinity are rendered
    in at most seven characters: the string padded to seven
    columns by [refresh] is never longer than its column. *)
Theorem humanizeDuration_at_most_7 (duration : number) :
  match duration with
  | Fin q => (0 <= q)%Q
  | Infinity negative => negative = false
  | NaN => True
  end →
  (String.length (humanizeDuration duration) ≤ 7)%nat
  ∧ Z.of_nat (String.length (padStart (humanizeDuration duration) 7)) = 7.
Proof.
  intros Hd.
  assert (Hlen : (String.length (humanizeDuration duration) ≤ 7)%nat).
  { destruct duration as [|negative|q].
    - vm_compute. lia.
    - subst negative. vm_compute. lia.
    - destruct (Qeq_dec q 0) as [H0|H0].
      + unfold humanizeDuration.
        change (seq (Fin q) (num 0)) with (Qeq_bool q (inject_Z 0)).
        rewrite (Qeq_bool_true q (inject_Z 0) H0). cbn. lia.
      + rewrite humanizeDuration_rounds
          by (exact H0 || apply Qfloor_round_nonneg, Hd).
        apply length_rendering, Qfloor_round_nonneg, Hd. }
  split; [exact Hlen|]. rewrite length_padStart. lia.
Qed.

Lemma humanizeDuration_at_most_7_witness :
  (String.length (humanizeDuration (Fin (7199 # 2))) ≤ 7)%nat
  ∧ Z.of_nat (String.length (padStart (humanizeDuration (Fin (7199 # 2))) 7)) = 7.
Proof.
  apply (humanizeDuration_at_most_7 (Fin (7199 # 2))). vm_compute. discriminate.
Defined.

(** X7. Only a duration of exactly zero is reported as "done": a
    positive duration below half a second is rendered "0s". *)
Theorem humanizeDuration_almost_zero (q : Q) :
  (0 < q)%Q → (q < 1 # 2)%Q → humanizeDuration (Fin q) = "0s".
Proof.
  intros Hpos Hhalf.
  destruct (Qfloor_bounds (q + (1 # 2)) 0 1) as [Hlo Hhi].
  { change (inject_Z 0) with 0%Q. lra. }
  { change (inject_Z 1) with 1%Q. lra. }
  rewrite humanizeDuration_rounds by (lia || lra).
  replace (Qfloor (q + (1 # 2))) with 0 by lia. reflexivity.
Qed.

Lemma humanizeDuration_almost_zero_witness : humanizeDuration (Fin (1 # 100)) = "0s".
Proof.
  apply (humanizeDuration_almost_zero (1 # 100)); vm_compute; reflexivity.
Defined.

Section SpeedUnits.

Lemma floorToOneDecimal_tenths (y : Q) :
  (0 <= y)%Q → floorToOneDecimal (Fin y) = tenths (Qfloor (y * inject_Z 10)).
Proof.
  intros Hy. unfold floorToOneDecimal, mul, num at 1, Math_floor.
  rewrite div_Fin_num by lia. unfold String_.
  apply String_Q_tenths; [reflexivity|].
  destruct (Qfloor_bounds (y * inject_Z 10) 0 (Qfloor (y * inject_Z 10) + 1)) as [H _];
    [|apply Qlt_floor|exact H].
  change (inject_Z 0) with 0%Q. change (inject_Z 10) with 10%Q. lra.
Qed.

Lemma length_tenths (k : Z) : 0 ≤ k < 10000 → (String.length (tenths k) ≤ 5)%nat.
Proof.
  intros Hk. unfold tenths. rewrite length_append.
  assert (0 ≤ k / 10 < 1000)
    by (split; [apply Z.div_pos|apply Z.div_lt_upper_bound]; lia).
  pose proof (length_digits_lt (k / 10) 1000 2 ltac:(lia) ltac:(apply Z.leb_le; reflexivity)).
  destruct (k mod 10 =? 0); rewrite ?length_append; cbn [String.length]; lia.
Qed.

(** One of the three branches with a decimal: the value divided by the
    unit is truncated to tenths. *)
Lemma unit_branch (q : Q) (U : Z) :
  1 ≤ U → (inject_Z U <= q)%Q → (q < inject_Z (1000 * U))%Q →
  ∃ k, floorToOneDecimal (div (Fin q) (num U)) = tenths k
       ∧ 10 ≤ k < 10000
       ∧ (inject_Z k <= q * 10 / inject_Z U)%Q
       ∧ (q * 10 / inject_Z U < inject_Z (k + 1))%Q.
Proof.
  intros HU Hlo Hhi. rewrite div_Fin_num by exact HU.
  assert (HUpos : (0 < inject_Z U)%Q)
    by (change 0%Q with (inject_Z 0); rewrite <- Zlt_Qlt; lia).
  assert (Hy : (0 <= q / inject_Z U)%Q).
  { apply Qle_shift_div_l; [exact HUpos|]. rewrite Qmult_0_l. lra. }
  rewrite floorToOneDecimal_tenths by exact Hy.
  set (k := Qfloor (q / inject_Z U * inject_Z 10)).
  assert (E : (q / inject_Z U * inject_Z 10 == q * 10 / inject_Z U)%Q).
  { change (inject_Z 10) with 10%Q. field. intros H0. rewrite H0 in HUpos. lra. }
  exists k. split; [reflexivity|].
  assert (Hk : 10 ≤ k < 10000).
  { apply Qfloor_bounds; rewrite E.
    - apply Qle_shift_div_l; [exact HUpos|]. change (inject_Z 10) with 10%Q. lra.
    - apply Qlt_shift_div_r; [exact HUpos|].
      rewrite inject_Z_mult in Hhi. change (inject_Z 1000) with 1000%Q in Hhi.
      change (inject_Z 10000) with 10000%Q. lra. }
  split; [exact Hk|]. rewrite <- E. unfold k. split.
  - apply Qfloor_le.
  - apply Qlt_floor.
Qed.

(** The branches from 1000 on. *)
Lemma humanizeSpeed_from_1000 (q : Q) :
  (1000 <= q)%Q → (String.length (humanizeSpeed (Fin q)) ≤ 10)%nat.
Proof.
  intros Hq. unfold humanizeSpeed, seq, lt, num.
  rewrite Qeq_bool_false by (change (inject_Z 0) with 0%Q; lra).
  pose proof (Qltb_spec q (inject_Z 1000)) as H1.
  destruct (Qltb q (inject_Z 1000)); [change (inject_Z 1000) with 1000%Q in H1; lra|].
  pose proof (Qltb_spec q (inject_Z (1000 * 1000))) as H2.
  destruct (Qltb q (inject_Z (1000 * 1000))).
  { destruct (unit_branch q 1000 ltac:(lia) H1 H2) as (k & Hk & Hb & _).
    fold (num 1000). rewrite Hk, length_append. cbn [String.length].
    pose proof (length_tenths k ltac:(lia)). lia. }
  pose proof (Qltb_spec q (inject_Z (1000 * 1000 * 1000))) as H3.
  destruct (Qltb q (inject_Z (1000 * 1000 * 1000))).
  { destruct (unit_branch q (1000 * 1000) ltac:(lia) H2 H3) as (k & Hk & Hb & _).
    fold (num (1000 * 1000)). rewrite Hk, length_append. cbn [String.length].
    pose proof (length_tenths k ltac:(lia)). lia. }
  pose proof (Qltb_spec q (inject_Z (1000 * 1000 * 1000 * 1000))) as H4.
  destruct (Qltb q (inject_Z (1000 * 1000 * 1000 * 1000))).
  { destruct (unit_branch q (1000 * 1000 * 1000) ltac:(lia) H3 H4) as (k & Hk & Hb & _).
    fold (num (1000 * 1000 * 1000)). rewrite Hk, length_append. cbn [String.length].
    pose proof (length_tenths k ltac:(lia)). lia. }
  pose proof (Qltb_spec q (inject_Z (1000 * 1000 * 1000 * 1000 * 100))) as H5.
  destruct (Qltb q (inject_Z (1000 * 1000 * 1000 * 1000 * 100))); [|cbn; lia].
  fold (num (1000 * 1000 * 1000)). rewrite div_Fin_num by lia.
  unfold Math_floor. 
  destruct (Qfloor_bounds (q / inject_Z (1000 * 1000 * 1000)) 1000 100000) as [Hlo Hhi].
  { apply Qle_shift_div_l; [reflexivity|].
    change (inject_Z 1000 * inject_Z (1000 * 1000 * 1000))%Q
      with (inject_Z 1000 * inject_Z (1000 * 1000 * 1000))%Q.
    rewrite <- inject_Z_mult. exact H4. }
  { apply Qlt_shift_div_r; [reflexivity|]. rewrite <- inject_Z_mult. exact H5. }
  set (F := Qfloor (q / inject_Z (1000 * 1000 * 1000))) in *.
  change (Fin (inject_Z F)) with (num F).
  rewrite String_num_nonneg by lia. rewrite length_append. cbn [String.length].
  assert (HF : 0 ≤ F < 100000) by lia.
  pose proof (length_digits_lt F 100000 4 HF ltac:(apply Z.leb_le; reflexivity)). lia.
Qed.

End SpeedUnits.

(** X8. For every non-negative speed the humanized string has at most
    eleven characters, and at most ten - the width of its column - unless
    the speed lies in the interval from 999.995 up to 1000. *)
Theorem humanizeSpeed_length (q : Q) :
  (0 <= q)%Q →
  (String.length (humanizeSpeed (Fin q)) ≤ 11)%nat
  ∧ ((q < 999995 # 1000)%Q ∨ (1000 <= q)%Q →
     (String.length (humanizeSpeed (Fin q)) ≤ 10)%nat).
Proof.
  intros Hq.
  destruct (Qlt_le_dec q 1000) as [Hlt|Hge].
  - destruct (Qeq_dec q 0) as [H0|H0].
    + assert (E : humanizeSpeed (Fin q) = "0 bps").
      { unfold humanizeSpeed, seq, num. rewrite (Qeq_bool_true q (inject_Z 0) H0).
        reflexivity. }
      rewrite E. cbn. split; [lia|intros _; lia].
    + assert (Hpos : (0 < q)%Q) by (apply Qle_lt_or_eq in Hq as [H|H]; [exact H|];
        exfalso; apply H0; symmetry; exact H).
      pose proof (humanizeSpeed_below_1000_length q Hpos Hlt) as Hlen.
      pose proof (Qltb_spec q (999995 # 1000)) as Hb.
      destruct (Qltb q (999995 # 1000)).
      * split; [lia|intros _; exact Hlen].
      * split; [lia|]. intros [H|H]; lra.
  - pose proof (humanizeSpeed_from_1000 q Hge). split; [lia|intros _; assumption].
Qed.

Lemma humanizeSpeed_length_witness :
  (String.length (humanizeSpeed (Fin (999999999 # 1000))) ≤ 11)%nat
  ∧ (((999999999 # 1000) < 999995 # 1000)%Q ∨ (1000 <= (999999999 # 1000))%Q →
     (String.length (humanizeSpeed (Fin (999999999 # 1000))) ≤ 10)%nat).
Proof.
  apply (humanizeSpeed_length (999999999 # 1000)). vm_compute. discriminate.
Defined.

Lemma within_a_tenth (k : Z) (x : Q) :
  (inject_Z k <= x)%Q → (x < inject_Z (k + 1))%Q →
  (inject_Z k - 1 < x)%Q ∧ (x < inject_Z k + 1)%Q.
Proof.
  intros H1 H2. rewrite inject_Z_plus in H2. change (inject_Z 1) with 1%Q in H2.
  split; lra.
Qed.

(** X9. From 1000 up to 10^12 the speed is printed in the unit of its
    magnitude - kbps from 10^3, mbps from 10^6, gbps from 10^9 - as a
    number of tenths [k] from 1.0 to 999.9, a zero decimal being left
    out, and the number printed differs from the speed by less than a
    tenth of the unit.  (The program rounds the quotient and its product
    by ten before taking the floor, so the tenths printed are those of
    the speed or, just below a tenth, the next ones.) *)
Theorem humanizeSpeed_within_a_tenth (q : Q) :
  ((1000 <= q)%Q → (q < 1000000)%Q →
   ∃ k, humanizeSpeed (Fin q) = tenths k ++ " kbps"
        ∧ 10 ≤ k ≤ 9999
        ∧ (inject_Z k - 1 < q * 10 / 1000)%Q ∧ (q * 10 / 1000 < inject_Z k + 1)%Q)
  ∧ ((1000000 <= q)%Q → (q < 1000000000)%Q →
     ∃ k, humanizeSpeed (Fin q) = tenths k ++ " mbps"
          ∧ 10 ≤ k ≤ 9999
          ∧ (inject_Z k - 1 < q * 10 / 1000000)%Q
          ∧ (q * 10 / 1000000 < inject_Z k + 1)%Q)
  ∧ ((1000000000 <= q)%Q → (q < 1000000000000)%Q →
     ∃ k, humanizeSpeed (Fin q) = tenths k ++ " gbps"
          ∧ 10 ≤ k ≤ 9999
          ∧ (inject_Z k - 1 < q * 10 / 1000000000)%Q
          ∧ (q * 10 / 1000000000 < inject_Z k + 1)%Q).
Proof.
  assert (Hstart : ∀ q, (1000 <= q)%Q →
    Qeq_bool q (inject_Z 0) = false ∧ Qltb q (inject_Z 1000) = false).
  { intros q' Hq'. split.
    - apply Qeq_bool_false. change (inject_Z 0) with 0%Q. lra.
    - apply Qltb_false. exact Hq'. }
  split; [|split]; intros Hlo Hhi.
  - destruct (Hstart q Hlo) as [E0 E1].
    destruct (unit_branch q 1000 ltac:(lia) Hlo Hhi) as (k & Hk & Hr & H1 & H2).
    exists k. unfold humanizeSpeed, seq, lt, num. rewrite E0, E1.
    rewrite (Qltb_true q (inject_Z (1000 * 1000)) Hhi).
    fold (num 1000). rewrite Hk.
    split; [reflexivity|]. split; [lia|]. exact (within_a_tenth k _ H1 H2).
  - destruct (Hstart q ltac:(lra)) as [E0 E1].
    destruct (unit_branch q (1000 * 1000) ltac:(lia) Hlo Hhi) as (k & Hk & Hr & H1 & H2).
    exists k. unfold humanizeSpeed, seq, lt, num. rewrite E0, E1.
    rewrite (Qltb_false q (inject_Z (1000 * 1000)) Hlo).
    rewrite (Qltb_true q (inject_Z (1000 * 1000 * 1000)) Hhi).
    fold (num (1000 * 1000)). rewrite Hk.
    split; [reflexivity|]. split; [lia|]. exact (within_a_tenth k _ H1 H2).
  - destruct (Hstart q ltac:(lra)) as [E0 E1].
    destruct (unit_branch q (1000 * 1000 * 1000) ltac:(lia) Hlo Hhi)
      as (k & Hk & Hr & H1 & H2).
    exists k. unfold humanizeSpeed, seq, lt, num. rewrite E0, E1.
    rewrite (Qltb_false q (inject_Z (1000 * 1000)) ltac:(change (inject_Z (1000*1000)) with 1000000%Q; lra)).
    rewrite (Qltb_false q (inject_Z (1000 * 1000 * 1000)) Hlo).
    rewrite (Qltb_true q (inject_Z (1000 * 1000 * 1000 * 1000)) Hhi).
    fold (num (1000 * 1000 * 1000)). rewrite Hk.
    split; [reflexivity|]. split; [lia|]. exact (within_a_tenth k _ H1 H2).
Qed.

Lemma humanizeSpeed_within_a_tenth_witness :
  ∃ k, humanizeSpeed (Fin 999999) = tenths k ++ " kbps"
       ∧ 10 ≤ k ≤ 9999
       ∧ (inject_Z k - 1 < 999999 * 10 / 1000)%Q ∧ (999999 * 10 / 1000 < inject_Z k + 1)%Q.
Proof.
  apply (proj1 (humanizeSpeed_within_a_tenth 999999)); vm_compute; [discriminate|reflexivity].
Defined.

(** X10. Only a speed of exactly zero is printed "0 bps": a positive
    speed below 0.005 is printed "0.00 bps". *)
Theorem humanizeSpeed_almost_zero (q : Q) :
  (0 < q)%Q → (q < 1 # 200)%Q → humanizeSpeed (Fin q) = "0.00 bps".
Proof.
  intros Hpos Hsmall. rewrite humanizeSpeed_below_1000 by lra.
  destruct (Qfloor_bounds (q * 100 + (1 # 2)) 0 1) as [Hlo Hhi].
  { change (inject_Z 0) with 0%Q. lra. }
  { change (inject_Z 1) with 1%Q. lra. }
  replace (Qfloor (q * 100 + (1 # 2))) with 0 by lia. reflexivity.
Qed.

Lemma humanizeSpeed_almost_zero_witness : humanizeSpeed (Fin (1 # 1000)) = "0.00 bps".
Proof.
  apply (humanizeSpeed_almost_zero (1 # 1000)); vm_compute; reflexivity.
Defined.

(** ** What a call leaves alone *)

Section Frame.
Context (P : World → Prop).

Lemma keeps_ret {A : Type} (a : A) : keeps P (mret a).
Proof. intros w H. exact H. Qed.

Lemma keeps_throw {A : Type} (e : exn) : keeps P (throw (A := A) e).
Proof. intros w H. exact H. Qed.

Lemma keeps_lift {A : Type} (c : completion A) : keeps P (lift c).
Proof. intros w H. exact H. Qed.

Lemma keeps_this : keeps P this.
Proof. intros w H. exact H. Qed.

Lemma keeps_process : keeps P process.
Proof. intros w H. exact H. Qed.

Lemma keeps_bind {A B : Type} (m : M A) (k : A → M B) :
  keeps P m → (∀ a, keeps P (k a)) → keeps P (m ≫= k).
Proof.
  intros Hm Hk w H. unfold mbind, M_bind.
  specialize (Hm w H). destruct (m w) as [[a|e] w1]; cbn in *.
  - apply Hk, Hm.
  - exact Hm.
Qed.

Lemma keeps_effect (f : Host → Host) :
  (∀ b h, P (mkWorld b h) → P (mkWorld b (f h))) → keeps P (effect f).
Proof. intros Hf [b h] H. apply Hf, H. Qed.

Lemma keeps_assign (f : ProgressBar → ProgressBar) :
  (∀ b h, P (mkWorld b h) → P (mkWorld (f b) h)) → keeps P (assign f).
Proof. intros Hf [b h] H. apply Hf, H. Qed.

End Frame.

(** Decomposition of a call into its steps. *)
Ltac keeps_steps :=
  repeat first
    [ progress cbn zeta
    | match goal with
      | |- keeps _ (mbind _ _) => apply keeps_bind; [|intros ?]
      | |- keeps _ (mret _) => apply keeps_ret
      | |- keeps _ (throw _) => apply keeps_throw
      | |- keeps _ (lift _) => apply keeps_lift
      | |- keeps _ this => apply keeps_this
      | |- keeps _ process => apply keeps_process
      | |- keeps _ (if ?c then _ else _) => destruct c
      | |- keeps _ (match ?x with _ => _ end) => destruct x
      end ].

Section FrameOfRedraw.
(** [P] survives writing to the stream, clearing an interval and
    assigning the tracker or the estimate. *)
Context (P : World → Prop).
Context (Hemit : ∀ op b h, P (mkWorld b h) → P (mkWorld b (emit op h))).
Context (Hdisarm : ∀ t b h, P (mkWorld b h) → P (mkWorld b (disarm_interval t h))).
Context (Hcalculator : ∀ v b h, P (mkWorld b h) → P (mkWorld (set_etaCalculator v b) h)).
Context (Hestimate : ∀ v b h, P (mkWorld b h) → P (mkWorld (set_latestEta v b) h)).

Lemma keeps_emit (op : TermOp) : keeps P (effect (emit op)).
Proof. apply keeps_effect. intros b h H. apply Hemit, H. Qed.

Lemma keeps_clearInterval (t : option nat) : keeps P (clearInterval t).
Proof.
  destruct t; [|apply keeps_ret].
  apply keeps_effect. intros b h H. apply Hdisarm, H.
Qed.

Lemma keeps_outputWidth : keeps P outputWidth.
Proof. unfold outputWidth. keeps_steps. Qed.

Lemma keeps_draw (output : string) : keeps P (draw output).
Proof.
  unfold draw, output_write, output_cursorTo, output_clearLine.
  keeps_steps; try apply keeps_emit; apply keeps_outputWidth.
Qed.

Lemma keeps_renderBarSectionAndThenDraw (ratio : number) (v : Sections) :
  keeps P (renderBarSectionAndThenDraw ratio v).
Proof.
  unfold renderBarSectionAndThenDraw.
  keeps_steps; try apply keeps_draw; apply keeps_clearInterval.
Qed.

Lemma keeps_computeLatestEta : keeps P computeLatestEta.
Proof.
  unfold computeLatestEta, Date_now.
  keeps_steps; apply keeps_assign; intros b h H;
    first [apply Hcalculator, H | apply Hestimate, H].
Qed.

Lemma keeps_refresh : keeps P refresh.
Proof.
  unfold refresh.
  keeps_steps;
    first [ apply keeps_outputWidth | apply keeps_draw | apply keeps_computeLatestEta
          | apply keeps_renderBarSectionAndThenDraw ].
Qed.

Lemma keeps_log (message : string) : keeps P (log message).
Proof.
  unfold log, output_write, output_cursorTo, output_clearLine, output_moveCursor.
  keeps_steps; first [apply keeps_emit | apply keeps_refresh].
Qed.

Lemma keeps_fire (t : nat) : keeps P (fire t).
Proof.
  unfold fire, etaUpdateCallback.
  keeps_steps; first [apply keeps_computeLatestEta | apply keeps_refresh].
Qed.

End FrameOfRedraw.

Section FrameOfBar.
Context (c : ProgressBar).

Lemma frame_kept_by_refresh : keeps (λ w, frame (bar w) = c) refresh.
Proof. apply keeps_refresh; intros; assumption. Qed.

Lemma frame_kept_by_log (message : string) : keeps (λ w, frame (bar w) = c) (log message).
Proof. apply keeps_log; intros; assumption. Qed.

Lemma frame_kept_by_fire (t : nat) : keeps (λ w, frame (bar w) = c) (fire t).
Proof. apply keeps_fire; intros; assumption. Qed.

End FrameOfBar.

Section CallEffects.

Lemma EtaTracker_new_120 (now : Z) :
  EtaTracker_new (num 120) now
  = Return {| slidingWindow := mkQueue 120 [{| progress := 0; time := now |}] 0 |}.
Proof. reflexivity. Qed.

(** The value an accepted [tick] adds. *)
Lemma tick_value_accepted (value : number) (p t : Z) :
  Number_isInteger value = true →
  lt value (num 1) = false →
  gt (add (num p) value) (num t) = false →
  ∃ z, 1 ≤ z ∧ p + z ≤ t ∧ to_Z (add (num p) value) = p + z.
Proof.
  intros Hint Hlt Hgt. destruct value as [|s|x]; try discriminate.
  cbn [Number_isInteger] in Hint. apply Qeq_bool_iff in Hint.
  exists (Qfloor x).
  assert (H1 : (1 <= x)%Q).
  { pose proof (Qltb_spec x (inject_Z 1)) as H. unfold lt, num in Hlt.
    rewrite Hlt in H. exact H. }
  assert (H2 : (inject_Z p + x <= inject_Z t)%Q).
  { pose proof (Qltb_spec (inject_Z t) (inject_Z p + x)) as H.
    unfold gt, lt, add, num in Hgt. rewrite Hgt in H. exact H. }
  rewrite Hint in H1, H2.
  change 1%Q with (inject_Z 1) in H1. rewrite <- Zle_Qle in H1.
  rewrite <- inject_Z_plus, <- Zle_Qle in H2.
  split; [exact H1|]. split; [exact H2|].
  unfold to_Z, add, num.
  assert (E : (inject_Z p + x == inject_Z (p + Qfloor x))%Q)
    by (rewrite inject_Z_plus, <- Hint; reflexivity).
  rewrite E. apply Qfloor_Z.
Qed.

Lemma frame_fields (b b' : ProgressBar) :
  frame b' = frame b →
  isTTY b' = isTTY b ∧ _progress b' = _progress b ∧ total b' = total b
  ∧ state b' = state b ∧ fixedOutputWidth b' = fixedOutputWidth b
  ∧ etaUpdateInterval b' = etaUpdateInterval b
  ∧ drawAtBottom b' = drawAtBottom b ∧ tryNotToBlink b' = tryNotToBlink b
  ∧ clearAfterStop b' = clearAfterStop b.
Proof.
  intros H.
  repeat split;
    [ change (isTTY (frame b') = isTTY (frame b))
    | change (_progress (frame b') = _progress (frame b))
    | change (total (frame b') = total (frame b))
    | change (state (frame b') = state (frame b))
    | change (fixedOutputWidth (frame b') = fixedOutputWidth (frame b))
    | change (etaUpdateInterval (frame b') = etaUpdateInterval (frame b))
    | change (drawAtBottom (frame b') = drawAtBottom (frame b))
    | change (tryNotToBlink (frame b') = tryNotToBlink (frame b))
    | change (clearAfterStop (frame b') = clearAfterStop (frame b)) ];
    rewrite H; reflexivity.
Qed.

(** What one call can change of the progress, the total, the terminal
    flag and the state. *)
Lemma call_effect (c : Call) (w : World) :
  let w' := after (run_call c) w in
  total (bar w') = total (bar w)
  ∧ isTTY (bar w') = isTTY (bar w)
  ∧ rank (state (bar w)) ≤ rank (state (bar w'))
  ∧ (_progress (bar w') = _progress (bar w)
     ∨ ∃ z, 1 ≤ z ∧ _progress (bar w') = _progress (bar w) + z
            ∧ _progress (bar w') ≤ total (bar w)
            ∧ state (bar w) = RUNNING ∧ isTTY (bar w) = true).
Proof.
  cbn zeta. unfold after.
  destruct c as [|value| |message|t|now]; cbn [run_call].
  - (* start *)
    unfold start, hideCursor. run_primitives.
    destruct (bool_decide (state (bar w) = READY)) eqn:Hs; cbn [negb];
      [|cbn; repeat split; auto; lia].
    apply bool_decide_eq_true in Hs.
    destruct (isTTY (bar w)) eqn:Htty; cbn [negb]; cbn beta iota;
      rewrite ?EtaTracker_new_120; cbn; rewrite ?Hs; cbn;
      repeat split; auto; lia.
  - (* tick *)
    unfold tick.
    destruct (Number_isInteger value) eqn:Hint; cbn [negb];
      [|cbn; repeat split; auto; lia].
    destruct (lt value (num 1)) eqn:Hlt; [cbn; repeat split; auto; lia|].
    run_primitives.
    destruct (bool_decide (state (bar w) = RUNNING)) eqn:Hs; cbn [negb];
      [|cbn; repeat split; auto; lia].
    apply bool_decide_eq_true in Hs.
    destruct (gt (add (num (_progress (bar w))) value) (num (total (bar w)))) eqn:Hgt;
      [cbn; repeat split; auto; lia|].
    destruct (isTTY (bar w)) eqn:Htty; cbn [negb];
      [|cbn; repeat split; auto; lia].
    destruct (tick_value_accepted value _ _ Hint Hlt Hgt) as (z & Hz & Hsum & Hto).
    rewrite Hto.
    set (w1 := {| bar := set_progress (_progress (bar w) + z) (bar w); host := host w |}).
    pose proof (frame_kept_by_refresh (frame (bar w1)) w1 eq_refl) as Hkeep.
    apply frame_fields in Hkeep.
    destruct Hkeep as (H1 & H2 & H3 & H4 & _).
    rewrite H1, H2, H3, H4. cbn.
    repeat split; try lia; auto.
    right. exists z. repeat split; auto; lia.
  - (* stop *)
    unfold stop, showCursor. run_primitives.
    destruct (bool_decide (state (bar w) = READY)) eqn:Hs;
      [cbn; repeat split; auto; lia|].
    apply bool_decide_eq_false in Hs.
    destruct (negb (isTTY (bar w)) || bool_decide (state (bar w) = STOPPED));
      [cbn; repeat split; auto; lia|].
    assert (Hrank : rank (state (bar w)) ≤ 2) by (destruct (state (bar w)); cbn; lia).
    destruct (etaUpdateInterval (bar w)); cbn;
      destruct (clearAfterStop (bar w)); cbn;
      try destruct (drawAtBottom (bar w)); cbn;
      repeat split; auto.
  - (* log *)
    pose proof (frame_kept_by_log (frame (bar w)) message w eq_refl) as Hkeep.
    apply frame_fields in Hkeep. destruct Hkeep as (H1 & H2 & H3 & H4 & _).
    rewrite H1, H2, H3, H4. repeat split; auto; lia.
  - (* an interval fires *)
    pose proof (frame_kept_by_fire (frame (bar w)) t w eq_refl) as Hkeep.
    apply frame_fields in Hkeep. destruct Hkeep as (H1 & H2 & H3 & H4 & _).
    rewrite H1, H2, H3, H4. repeat split; auto; lia.
  - cbn. repeat split; auto; lia.
Qed.

End CallEffects.

(** ** Invariants of a bar, whatever is called *)

Section Invariants.

Lemma integer_at_least (v : number) (k : Z) :
  Number_isInteger v = true → lt v (num k) = false → k ≤ to_Z v.
Proof.
  intros Hint Hlt. destruct v as [|s|x]; try discriminate.
  cbn [Number_isInteger] in Hint. apply Qeq_bool_iff in Hint.
  pose proof (Qltb_spec x (inject_Z k)) as H. unfold lt, num in Hlt.
  rewrite Hlt, Hint, <- Zle_Qle in H. exact H.
Qed.

Lemma run_calls_app (cs1 cs2 : list Call) (w : World) :
  run_calls (cs1 ++ cs2)%list w = run_calls cs2 (run_calls cs1 w).
Proof. unfold run_calls. apply foldl_app. Qed.

Lemma run_calls_effect (cs : list Call) : ∀ w : World,
  total (bar (run_calls cs w)) = total (bar w)
  ∧ isTTY (bar (run_calls cs w)) = isTTY (bar w)
  ∧ rank (state (bar w)) ≤ rank (state (bar (run_calls cs w)))
  ∧ _progress (bar w) ≤ _progress (bar (run_calls cs w))
  ∧ (_progress (bar w) ≤ total (bar w) →
     _progress (bar (run_calls cs w)) ≤ total (bar w)).
Proof.
  induction cs as [|c cs IH]; intros w; [cbn; repeat split; auto; lia|].
  change (run_calls (c :: cs) w) with (run_calls cs (after (run_call c) w)).
  destruct (call_effect c w) as (Ht & Htty & Hrank & Hp).
  destruct (IH (after (run_call c) w)) as (Ht' & Htty' & Hrank' & Hmono & Hle).
  rewrite Ht', Htty', Ht.
  split; [reflexivity|]. split; [exact Htty|]. split; [lia|].
  split.
  - destruct Hp as [Hp|(z & Hz & Hp & _)]; lia.
  - intros Hw. rewrite Ht in Hle. apply Hle.
    destruct Hp as [Hp|(z & Hz & Hp & Hmax & _)]; lia.
Qed.

End Invariants.

(** The total and the progress of a constructed bar. *)
Lemma ProgressBar_new_total
    (total : number) (options : Options) (h : Host) (b : ProgressBar) :
  ProgressBar_new total options h = Return b →
  ProgressBar.total b = to_Z total ∧ 1 ≤ ProgressBar.total b ∧ _progress b = 0.
Proof.
  unfold ProgressBar_new. intros Hnew.
  destruct (Number_isInteger total) eqn:Hint; cbn [negb] in Hnew; [|discriminate].
  destruct (lt total (num 1)) eqn:Hlt; [discriminate|].
  pose proof (integer_at_least total 1 Hint Hlt) as Htotal.
  destruct (match width options with Some _ => _ | None => _ end); [discriminate|].
  destruct (default false (bottom options) && _); [discriminate|].
  inversion Hnew; subst b. cbn. repeat split; try reflexivity; assumption.
Qed.

(** ** Stopping a bar that has started *)

Section Started.



End Started.



(** X11. A constructed bar has an integer total of at least 1, progress
    0 and state [READY]; a bar drawn at the bottom is always cleared
    after stopping, and a fixed width is at least [MIN_BAR_WIDTH]. *)
Theorem ProgressBar_new_establishes
    (total : number) (options : Options) (h : Host) (b : ProgressBar) :
  ProgressBar_new total options h = Return b →
  Number_isInteger total = true
  ∧ ProgressBar.total b = to_Z total
  ∧ 1 ≤ ProgressBar.total b
  ∧ _progress b = 0
  ∧ state b = READY
  ∧ isTTY b = stream_isTTY h
  ∧ (drawAtBottom b = true → clearAfterStop b = true)
  ∧ (∀ w, fixedOutputWidth b = Some w → MIN_BAR_WIDTH ≤ w)
  ∧ etaUpdateInterval b = None ∧ etaCalculator b = None ∧ latestEta b = None.
Proof.
  unfold ProgressBar_new. intros Hnew.
  destruct (Number_isInteger total) eqn:Hint; cbn [negb] in Hnew; [|discriminate].
  destruct (lt total (num 1)) eqn:Hlt; [discriminate|].
  pose proof (integer_at_least total 1 Hint Hlt) as Htotal.
  assert (Hwidth : ∀ w, to_Z <$> width options = Some w →
    match width options with
    | Some w0 =>
        if negb (Number_isInteger w0) then Some (TypeError "width must be an integer")
        else if lt w0 (num MIN_BAR_WIDTH) then Some (Error "width must be at least 16")
        else None
    | None => None
    end = None → MIN_BAR_WIDTH ≤ w).
  { intros w Hw Hok. destruct (width options) as [w0|]; [|discriminate].
    cbn in Hw. inversion Hw; subst w.
    destruct (Number_isInteger w0) eqn:Hi; cbn [negb] in Hok; [|discriminate].
    destruct (lt w0 (num MIN_BAR_WIDTH)) eqn:Hl; [discriminate|].
    apply integer_at_least; assumption. }
  destruct (match width options with Some _ => _ | None => _ end) eqn:Hw;
    [discriminate|].
  destruct (default false (bottom options)
            && match opt_clearAfterStop options with
               | Some c => negb c
               | None => false
               end) eqn:Hbottom; [discriminate|].
  inversion Hnew; subst b; clear Hnew. cbn.
  repeat split; try assumption; try reflexivity.
  - intros Hb. rewrite Hb in Hbottom. cbn in Hbottom.
    destruct (opt_clearAfterStop options) as [[|]|]; cbn in *; congruence.
  - intros w Hfixed. exact (Hwidth w Hfixed eq_refl).
Qed.

Lemma ProgressBar_new_establishes_witness :
  Number_isInteger (num 10) = true
  ∧ ProgressBar.total (bar (new_bar 10 (Some 40) true)) = to_Z (num 10)
  ∧ 1 ≤ ProgressBar.total (bar (new_bar 10 (Some 40) true))
  ∧ _progress (bar (new_bar 10 (Some 40) true)) = 0
  ∧ state (bar (new_bar 10 (Some 40) true)) = READY
  ∧ isTTY (bar (new_bar 10 (Some 40) true)) = stream_isTTY (stream true)
  ∧ (drawAtBottom (bar (new_bar 10 (Some 40) true)) = true →
     clearAfterStop (bar (new_bar 10 (Some 40) true)) = true)
  ∧ (∀ w, fixedOutputWidth (bar (new_bar 10 (Some 40) true)) = Some w → MIN_BAR_WIDTH ≤ w)
  ∧ etaUpdateInterval (bar (new_bar 10 (Some 40) true)) = None
  ∧ etaCalculator (bar (new_bar 10 (Some 40) true)) = None
  ∧ latestEta (bar (new_bar 10 (Some 40) true)) = None.
Proof.
  apply (ProgressBar_new_establishes (num 10)
           (mkOptions (Some (num 40)) None None None) (stream true)).
  vm_compute. reflexivity.
Defined.

(** X12. Whatever sequence of [start], [tick], [stop], [log] calls,
    interval firings and clock changes follows the construction, also
    when calls throw: the total stays the constructed one and the
    progress stays between 0 and the total. *)
Theorem progress_within_total
    (total : number) (options : Options) (h : Host) (b : ProgressBar) (cs : list Call) :
  ProgressBar_new total options h = Return b →
  ProgressBar.total (bar (run_calls cs (mkWorld b h))) = to_Z total
  ∧ 0 ≤ _progress (bar (run_calls cs (mkWorld b h)))
        ≤ ProgressBar.total (bar (run_calls cs (mkWorld b h))).
Proof.
  intros Hnew.
  destruct (ProgressBar_new_total _ _ _ _ Hnew) as (Htotal & Hone & Hzero).
  destruct (run_calls_effect cs (mkWorld b h)) as (Ht & _ & _ & Hmono & Hle).
  cbn [bar] in *. rewrite Ht. split; [exact Htotal|]. split; [lia|].
  apply Hle. lia.
Qed.

Lemma progress_within_total_witness :
  ProgressBar.total (bar (run_calls [call_start; call_tick (num 3); call_tick (num 9);
                                     call_stop; call_tick (num 1)]
                                    (mkWorld (bar (new_bar 10 (Some 40) true)) (stream true))))
  = to_Z (num 10)
  ∧ 0 ≤ _progress (bar (run_calls [call_start; call_tick (num 3); call_tick (num 9);
                                    call_stop; call_tick (num 1)]
                                   (mkWorld (bar (new_bar 10 (Some 40) true)) (stream true))))
        ≤ ProgressBar.total
            (bar (run_calls [call_start; call_tick (num 3); call_tick (num 9);
                             call_stop; call_tick (num 1)]
                            (mkWorld (bar (new_bar 10 (Some 40) true)) (stream true)))).
Proof.
  apply (progress_within_total (num 10) (mkOptions (Some (num 40)) None None None)
           (stream true)).
  vm_compute. reflexivity.
Defined.

(** X13. No call ever takes the state or the progress back: along any
    sequence of calls, from any world, the state only moves from [READY]
    to [RUNNING] to [STOPPED] and the progress only grows; the total and
    the terminal flag never change. *)
Theorem state_and_progress_never_go_back (cs1 cs2 : list Call) (w : World) :
  rank (state (bar (run_calls cs1 w)))
    ≤ rank (state (bar (run_calls (cs1 ++ cs2)%list w)))
  ∧ _progress (bar (run_calls cs1 w)) ≤ _progress (bar (run_calls (cs1 ++ cs2)%list w))
  ∧ ProgressBar.total (bar (run_calls (cs1 ++ cs2)%list w)) = ProgressBar.total (bar w)
  ∧ isTTY (bar (run_calls (cs1 ++ cs2)%list w)) = isTTY (bar w).
Proof.
  rewrite run_calls_app.
  destruct (run_calls_effect cs2 (run_calls cs1 w)) as (Ht & Htty & Hrank & Hmono & _).
  destruct (run_calls_effect cs1 w) as (Ht1 & Htty1 & _).
  rewrite Ht, Htty, Ht1, Htty1. auto.
Qed.

(** ** The operations of a redraw *)

Section RedrawOperations.
Local Open Scope list_scope.

Lemma draw_exact (output : string) (w : World) :
  width_of w ≤ Z.of_nat (String.length output) →
  ∃ w' ops,
    draw output w = (Return tt, w')
    ∧ written (host w') = written (host w) ++ ops
    ∧ (∀ d, ClearLine d ∉ ops)
    ∧ texts ops = drawn_texts (bar w) (host w) output.
Proof.
  intros Hlen. unfold draw, drawn_texts. run_primitives. fold (width_of w).
  destruct (drawAtBottom (bar w)); cbn;
    fold (width_of w);
    (destruct (Z.ltb_spec (Z.of_nat (String.length output)) (width_of w)) as [?|_];
       [lia|]); cbn.
  - eexists _, [Write (cursorSave (isMac (host w)));
                CursorTo 0 (Some (rows (host w) - 1));
                Write output; Write (cursorRestore (isMac (host w)))].
    split; [reflexivity|]. cbn. rewrite <- !app_assoc.
    split; [reflexivity|]. split; [|reflexivity].
    intros d Hin. repeat (apply elem_of_cons in Hin as [Hin|Hin]; [discriminate|]).
    inversion Hin.
  - eexists _, [CursorTo 0 None; Write output].
    split; [reflexivity|]. cbn. rewrite <- !app_assoc.
    split; [reflexivity|]. split; [|reflexivity].
    intros d Hin. repeat (apply elem_of_cons in Hin as [Hin|Hin]; [discriminate|]).
    inversion Hin.
Qed.

Lemma render_exact (v : Sections) (w : World) :
  0 ≤ remainingWidth v →
  1 ≤ total (bar w) →
  0 ≤ _progress (bar w) ≤ total (bar w) →
  width_of w ≤ MIN_BAR_WIDTH + remainingWidth v + sections_length v →
  ∃ w' line ops,
    renderBarSectionAndThenDraw
      (div (num (_progress (bar w))) (num (total (bar w)))) v w = (Return tt, w')
    ∧ bar w' = bar w
    ∧ Z.of_nat (String.length line)
      = MIN_BAR_WIDTH + remainingWidth v + sections_length v
    ∧ written (host w') = written (host w) ++ ops
    ∧ (∀ d, ClearLine d ∉ ops)
    ∧ texts ops = drawn_texts (bar w) (host w) line.
Proof.
  intros Hrem Ht Hp Hwide.
  set (bw := MIN_BAR_WIDTH + remainingWidth v - 2).
  assert (Hbw : 0 ≤ bw) by (unfold bw, MIN_BAR_WIDTH; lia).
  pose proof (scaled_ratio_bounds bw _ _ Hbw Hp Ht) as Hk.
  set (k := bw * _progress (bar w) / total (bar w)) in *.
  unfold renderBarSectionAndThenDraw. fold bw.
  rewrite div_num_pos by exact Ht.
  assert (Hfloor :
    Math_floor (mul (num bw) (Fin (inject_Z (_progress (bar w)) / inject_Z (total (bar w)))))
    = num k).
  { unfold Math_floor, mul, num. rewrite Qfloor_scaled_ratio by exact Ht. reflexivity. }
  rewrite Hfloor.
  unfold mbind at 1, M_bind at 1, lift at 1.
  rewrite String_repeat_num by lia.
  unfold mbind at 1, M_bind at 1, lift at 1.
  rewrite String_repeat_sub by lia.
  unfold mbind at 1, M_bind at 1.
  match goal with |- context [draw ?s w] => set (line := s) end.
  assert (Hline : Z.of_nat (String.length line)
                  = MIN_BAR_WIDTH + remainingWidth v + sections_length v).
  { unfold line, sections_length, C_PROCESSED_BAR, C_UNPROCESSED_BAR.
    rewrite !length_append, !length_string_repeat. cbn [String.length].
    unfold bw in *. lia. }
  destruct (draw_exact line w ltac:(lia)) as (w1 & ops & Hdraw & Hwritten & Hclear & Htexts).
  destruct (draw_spec line w) as (w1' & Hdraw' & Hbar & _).
  rewrite Hdraw in Hdraw'. inversion Hdraw'; subst w1'. clear Hdraw'.
  rewrite Hdraw. unfold mbind, M_bind, this. rewrite Hbar.
  destruct (total (bar w) =? _progress (bar w)).
  - destruct (etaUpdateInterval (bar w)) as [t|]; cbn.
    + eexists _, line, ops. split; [reflexivity|]. cbn. repeat split; assumption.
    + exists w1, line, ops. repeat split; assumption.
  - exists w1, line, ops. repeat split; assumption.
Qed.

(** The sections [refresh] selects never leave the line shorter than the
    output is wide, and make it at most two characters longer when the
    duration has at most 7 and the speed at most 11 characters. *)
Lemma refresh_sections_bounds (w : World) (e : Estimate) :
  MIN_BAR_WIDTH ≤ width_of w →
  1 ≤ total (bar w) →
  0 ≤ _progress (bar w) ≤ total (bar w) →
  (7 ≤ width_of w - MIN_BAR_WIDTH → latestEta (bar w) = Some e) →
  ∃ v,
    refresh w
    = renderBarSectionAndThenDraw
        (div (num (_progress (bar w))) (num (total (bar w)))) v w
    ∧ 0 ≤ remainingWidth v
    ∧ width_of w ≤ MIN_BAR_WIDTH + remainingWidth v + sections_length v
    ∧ ((String.length (humanizeDuration (eta e)) ≤ 7)%nat →
       (String.length (humanizeSpeed (speed e)) ≤ 11)%nat →
       MIN_BAR_WIDTH + remainingWidth v + sections_length v ≤ width_of w + 2).
Proof.
  intros Hw Ht Hp He. unfold refresh. run_primitives. fold (width_of w).
  pose proof (length_progressAndTotal _ _ Hp) as Hpt.
  pose proof (length_percentage _ _ Ht Hp) as Hpct.
  pose proof (length_padStart (humanizeDuration (eta e)) 7) as Hd7.
  pose proof (length_padStart (humanizeSpeed (speed e)) 10) as Hs10.
  pose proof (length_padStart ("eta " ++ humanizeDuration (eta e)) 10) as Hd10.
  match type of Hpct with (String.length ?s ≤ _)%nat =>
    pose proof (length_padStart s 6) as Hp6 end.
  rewrite length_append in Hd10. cbn [String.length] in Hd10.
  destruct (Z.ltb_spec (width_of w) MIN_BAR_WIDTH) as [?|_]; [lia|].
  cbn beta.
  destruct (Z.ltb_spec (width_of w - MIN_BAR_WIDTH) 7) as [Hnarrow|Hwide];
    [|rewrite (He Hwide)];
  repeat match goal with
         | |- context [if ?a <? ?b then _ else _] =>
             destruct (Z.ltb_spec a b)
         end;
    (eexists; split; [reflexivity|]);
    unfold sections_length, C_COLUMN_SEPARATOR;
    cbn [remainingWidth progressAndTotalSection percentageSection etaSection
         speedSection];
    rewrite ?length_append; cbn [String.length];
    unfold MIN_BAR_WIDTH in *;
    (split; [lia|]); (split; [lia|]); intros Hfd Hfs; lia.
Qed.

Lemma refresh_exact (w : World) :
  running w →
  MIN_BAR_WIDTH ≤ width_of w →
  ∃ w' line ops,
    refresh w = (Return tt, w')
    ∧ frame (bar w') = frame (bar w)
    ∧ (latestEta (bar w) ≠ None → bar w' = bar w)
    ∧ width_of w ≤ Z.of_nat (String.length line)
    ∧ ((∀ e, latestEta (bar w') = Some e →
             (String.length (humanizeDuration (eta e)) ≤ 7)%nat
             ∧ (String.length (humanizeSpeed (speed e)) ≤ 11)%nat) →
       Z.of_nat (String.length line) ≤ width_of w + 2)
    ∧ written (host w') = written (host w) ++ ops
    ∧ (∀ d, ClearLine d ∉ ops)
    ∧ texts ops = drawn_texts (bar w) (host w) line.
Proof.
  intros Hrun Hw.
  pose proof Hrun as (Hstate & Htty & Ht & Hp & calculator & r & Hcalc & Hold).
  destruct (latestEta (bar w)) as [e|] eqn:He;
    [|destruct (Z.lt_ge_cases (width_of w - MIN_BAR_WIDTH) 7) as [Hnarrow|Hwide]].
  - destruct (refresh_sections_bounds w e Hw Ht Hp (λ _, He))
      as (v & Hrefresh & Hv & Hlow & Hup).
    destruct (render_exact v w Hv Ht Hp Hlow)
      as (w' & line & ops & Hrender & Hbar & Hline & Hwritten & Hclear & Htexts).
    exists w', line, ops. rewrite Hrefresh, Hrender, Hbar, Hline.
    split; [reflexivity|]. split; [reflexivity|]. split; [reflexivity|].
    split; [exact Hlow|]. split; [|auto].
    intros Hall. destruct (Hall e He). apply Hup; assumption.
  - destruct (refresh_sections_bounds w (mkEstimate (num 0) (num 0)) Hw Ht Hp)
      as (v & Hrefresh & Hv & Hlow & Hup); [lia|].
    destruct (render_exact v w Hv Ht Hp Hlow)
      as (w' & line & ops & Hrender & Hbar & Hline & Hwritten & Hclear & Htexts).
    exists w', line, ops. rewrite Hrefresh, Hrender, Hbar, Hline.
    split; [reflexivity|]. split; [reflexivity|]. split; [congruence|].
    split; [exact Hlow|]. split; [|auto].
    intros _. apply Hup; vm_compute; lia.
  - destruct (refresh_first_estimate w calculator r Hw Hwide He Hcalc Hold)
      as (e & calculator' & (r' & Hold') & Hfirst).
    set (w1 := {| bar := set_latestEta (Some e)
                           (set_etaCalculator (Some calculator') (bar w));
                  host := host w |}) in *.
    destruct (refresh_sections_bounds w1 e Hw Ht Hp (λ _, eq_refl))
      as (v & Hrefresh & Hv & Hlow & Hup).
    destruct (render_exact v w1 Hv Ht Hp Hlow)
      as (w' & line & ops & Hrender & Hbar & Hline & Hwritten & Hclear & Htexts).
    exists w', line, ops. rewrite Hfirst, Hrefresh, Hrender, Hbar, Hline.
    split; [reflexivity|]. split; [reflexivity|]. split; [congruence|].
    split; [exact Hlow|]. split; [|auto].
    intros Hall. destruct (Hall e eq_refl). apply Hup; assumption.
Qed.

Lemma not_negative_fits (e : Estimate) :
  not_negative (eta e) → not_negative (speed e) →
  (String.length (humanizeDuration (eta e)) ≤ 7)%nat
  ∧ (String.length (humanizeSpeed (speed e)) ≤ 11)%nat.
Proof.
  intros Heta Hspeed. split.
  - destruct (eta e) as [|s|q]; cbn in Heta.
    + vm_compute. lia.
    + subst s. vm_compute. lia.
    + destruct (Qeq_dec q 0) as [H0|H0].
      * unfold humanizeDuration.
        change (seq (Fin q) (num 0)) with (Qeq_bool q (inject_Z 0)).
        rewrite (Qeq_bool_true q (inject_Z 0) H0). cbn. lia.
      * rewrite humanizeDuration_rounds
          by (exact H0 || apply Qfloor_round_nonneg, Heta).
        apply length_rendering, Qfloor_round_nonneg, Heta.
  - destruct (speed e) as [|s|q]; cbn in Hspeed.
    + vm_compute. lia.
    + subst s. vm_compute. lia.
    + destruct (Qlt_le_dec q 1000) as [Hlt|Hge].
      * destruct (Qeq_dec q 0) as [H0|H0].
        -- assert (E : humanizeSpeed (Fin q) = "0 bps").
           { unfold humanizeSpeed, seq, num.
             rewrite (Qeq_bool_true q (inject_Z 0) H0). reflexivity. }
           rewrite E. cbn. lia.
        -- assert (Hpos : (0 < q)%Q).
           { apply Qle_lt_or_eq in Hspeed as [H|H]; [exact H|].
             exfalso. apply H0. symmetry. exact H. }
           pose proof (humanizeSpeed_below_1000_length q Hpos Hlt) as Hlen.
           destruct (Qltb q (999995 # 1000)); lia.
      * pose proof (humanizeSpeed_from_1000 q Hge). lia.
Qed.

End RedrawOperations.

(** X14. A redraw of a running bar never clears to the end of the line:
    the line it writes is at least as long as the output is wide, so the
    test in [draw] fails; it writes the line once, between saving and
    restoring the cursor when the bar is at the bottom. *)
Theorem refresh_never_clears_line (w : World) :
  running w →
  0 ≤ width_of w →
  ∃ w' line ops,
    refresh w = (Return tt, w')
    ∧ written (host w') = (written (host w) ++ ops)%list
    ∧ (∀ d, ClearLine d ∉ ops)
    ∧ texts ops = drawn_texts (bar w) (host w) line
    ∧ width_of w ≤ Z.of_nat (String.length line).
Proof.
  intros Hrun Hw.
  destruct (Z.lt_ge_cases (width_of w) MIN_BAR_WIDTH) as [Hnarrow|Hwide].
  - set (line := string_repeat "#" (Z.to_nat (width_of w))).
    assert (Hline : Z.of_nat (String.length line) = width_of w).
    { unfold line. rewrite length_string_repeat. cbn [String.length]. lia. }
    destruct (draw_exact line w ltac:(lia)) as (w' & ops & Hdraw & Hwritten & Hclear & Htexts).
    exists w', line, ops. split.
    { unfold refresh. run_primitives. fold (width_of w).
      destruct (Z.ltb_spec (width_of w) MIN_BAR_WIDTH) as [_|?]; [|lia].
      rewrite String_repeat_num by lia. exact Hdraw. }
    repeat split; try assumption. lia.
  - destruct (refresh_exact w Hrun Hwide)
      as (w' & line & ops & Hrefresh & _ & _ & Hlow & _ & Hwritten & Hclear & Htexts).
    exists w', line, ops. repeat split; assumption.
Qed.

Lemma refresh_never_clears_line_witness :
  ∃ w' line ops,
    refresh (after start (new_bar 10 (Some 40) true)) = (Return tt, w')
    ∧ written (host w')
      = (written (host (after start (new_bar 10 (Some 40) true))) ++ ops)%list
    ∧ (∀ d, ClearLine d ∉ ops)
    ∧ texts ops = drawn_texts (bar (after start (new_bar 10 (Some 40) true)))
                              (host (after start (new_bar 10 (Some 40) true))) line
    ∧ width_of (after start (new_bar 10 (Some 40) true)) ≤ Z.of_nat (String.length line).
Proof.
  apply (refresh_never_clears_line (after start (new_bar 10 (Some 40) true))).
  - unfold running. vm_compute. repeat split; try discriminate.
    eexists _, _. split; reflexivity.
  - vm_compute. discriminate.
Defined.

(** X16. The estimate of a tracker whose clock and progress have not
    gone back, and whose progress has not passed the total, is never
    negative: the speed and the ETA are each [NaN], plus infinity or a
    non-negative value. *)
Theorem estimate_not_negative
    (now cur : Z) (total : option Z) (t : EtaTracker) (r : Sample) :
  oldest (slidingWindow t) = Some r →
  time r ≤ now →
  progress r ≤ cur →
  (∀ total', total = Some total' → cur ≤ total') →
  ∃ e t',
    updateProgressAndGetLatestEta now cur total t = Return (e, t')
    ∧ not_negative (eta e) ∧ not_negative (speed e).
Proof.
  intros Hold Htime Hprogress Htotal.
  unfold updateProgressAndGetLatestEta. rewrite Hold.
  eexists _, _. split; [reflexivity|]. cbn [eta speed].
  set (dp := cur - progress r). set (dt := now - time r).
  assert (Hdp : 0 ≤ dp) by (unfold dp; lia).
  assert (Hdt : 0 ≤ dt) by (unfold dt; lia).
  assert (Hnum : (0 <= inject_Z dp * inject_Z 1000)%Q).
  { rewrite <- inject_Z_mult. change 0%Q with (inject_Z 0). rewrite <- Zle_Qle. lia. }
  assert (Hspeed :
    div (mul (num dp) (num 1000)) (num dt) = NaN
    ∨ div (mul (num dp) (num 1000)) (num dt) = POSITIVE_INFINITY
    ∨ ∃ q, div (mul (num dp) (num 1000)) (num dt) = Fin q ∧ (0 <= q)%Q).
  { unfold div, mul, num.
    destruct (Qeq_bool (inject_Z dt) 0) eqn:Ez.
    - destruct (Qeq_bool (inject_Z dp * inject_Z 1000) 0) eqn:Ep; [left; reflexivity|].
      right. left. rewrite Qltb_false by exact Hnum. reflexivity.
    - right. right. eexists. split; [reflexivity|].
      apply Qle_shift_div_l; [|rewrite Qmult_0_l; exact Hnum].
      change 0%Q with (inject_Z 0). rewrite <- Zlt_Qlt.
      assert (dt ≠ 0); [|lia]. intros E. rewrite E in Ez. discriminate. }
  split.
  - destruct (total_is total cur) eqn:Eis; [cbn; discriminate|].
    destruct total as [total'|]; [|reflexivity].
    specialize (Htotal total' eq_refl).
    assert (Hrest : (0 <= inject_Z (total' - cur))%Q)
      by (change 0%Q with (inject_Z 0); rewrite <- Zle_Qle; lia).
    destruct Hspeed as [->|[->|(q & -> & Hq)]].
    + exact I.
    + cbn. discriminate.
    + unfold div, num. destruct (Qeq_bool q 0) eqn:Ez.
      * destruct (Qeq_bool (inject_Z (total' - cur)) 0); [exact I|].
        cbn. apply Qltb_false, Hrest.
      * cbn. apply Qle_shift_div_l; [|rewrite Qmult_0_l; exact Hrest].
        apply Qle_lt_or_eq in Hq as [Hq|Hq]; [exact Hq|].
        exfalso. symmetry in Hq. apply Qeq_bool_iff in Hq. congruence.
  - destruct Hspeed as [->|[->|(q & -> & Hq)]]; cbn; auto.
Qed.

Lemma estimate_not_negative_witness :
  ∃ e t',
    updateProgressAndGetLatestEta 3000 4 (Some 10)
      {| slidingWindow := mkQueue 120 [mkSample 0 1000] 0 |} = Return (e, t')
    ∧ not_negative (eta e) ∧ not_negative (speed e).
Proof.
  apply (estimate_not_negative 3000 4 (Some 10)
           {| slidingWindow := mkQueue 120 [mkSample 0 1000] 0 |} (mkSample 0 1000)).
  - reflexivity.
  - simpl. lia.
  - simpl. lia.
  - intros total' H. inversion H. lia.
Defined.

(** X17. A [tick] on a bar that already has an estimate redraws with
    that estimate: besides the progress, no field of the bar changes, in
    particular no sample is pushed on the window. *)
Theorem tick_reuses_estimate (w : World) (value : Z) (e : Estimate) :
  running w →
  MIN_BAR_WIDTH ≤ width_of w →
  1 ≤ value →
  _progress (bar w) + value ≤ total (bar w) →
  latestEta (bar w) = Some e →
  ∃ w',
    tick (num value) w = (Return tt, w')
    ∧ bar w' = set_progress (_progress (bar w) + value) (bar w).
Proof.
  intros Hrun Hw Hvalue Hsum He.
  pose proof Hrun as (Hstate & Htty & Ht & Hp & calculator & r & Hcalc & Hold).
  unfold tick. rewrite Number_isInteger_num, lt_num. cbn [negb].
  destruct (Z.ltb_spec value 1) as [?|_]; [lia|].
  run_primitives.
  rewrite (bool_decide_eq_true_2 _ Hstate), gt_add_num, Htty, add_num. cbn [negb].
  destruct (Z.ltb_spec (total (bar w)) (_progress (bar w) + value)) as [?|_]; [lia|].
  set (w1 := {| bar := set_progress (_progress (bar w) + value) (bar w);
                host := host w |}).
  assert (Hrun1 : running w1).
  { unfold running, w1. cbn. repeat split; try tauto; try lia. eauto. }
  destruct (refresh_exact w1 Hrun1 Hw) as (w' & line & ops & Hrefresh & _ & Hsame & _).
  exists w'. rewrite Hrefresh. split; [reflexivity|].
  apply Hsame. unfold w1. cbn. rewrite He. discriminate.
Qed.

Lemma tick_reuses_estimate_witness :
  ∃ w',
    tick (num 2) (after (tick (num 3)) (after start (new_bar 10 (Some 40) true)))
    = (Return tt, w')
    ∧ bar w'
      = set_progress
          (_progress (bar (after (tick (num 3)) (after start (new_bar 10 (Some 40) true)))) + 2)
          (bar (after (tick (num 3)) (after start (new_bar 10 (Some 40) true)))).
Proof.
  apply (tick_reuses_estimate
           (after (tick (num 3)) (after start (new_bar 10 (Some 40) true))) 2
           {| eta := Fin 0; speed := POSITIVE_INFINITY |}).
  - unfold running. vm_compute. repeat split; try discriminate.
    eexists _, _. split; reflexivity.
  - vm_compute. discriminate.
  - lia.
  - vm_compute. discriminate.
  - vm_compute. reflexivity.
Defined.

(** ** Stopping *)

Section Lifecycle.
Local Open Scope list_scope.

Lemma remove_last_app (e : ProcessEvent) (l l' : list ProcessEvent) :
  e ∉ l' → remove_last e (l ++ e :: l') = l ++ l'.
Proof.
  intros Hnot. induction l as [|x l IH]; cbn [app remove_last].
  - rewrite bool_decide_eq_false_2 by exact Hnot.
    rewrite bool_decide_eq_true_2 by reflexivity. reflexivity.
  - rewrite bool_decide_eq_true_2
      by (apply elem_of_app; right; apply elem_of_cons; left; reflexivity).
    rewrite IH. reflexivity.
Qed.

Lemma difference_within (X Z : gset nat) (t : nat) : X ⊆ Z → X ∖ {[ t ]} ⊆ Z.
Proof. intros Hsub x Hx. apply elem_of_difference in Hx as [Hx _]. apply Hsub, Hx. Qed.

Lemma tick_not_running (w : World) (value : number) :
  state (bar w) ≠ RUNNING → ∃ e, tick value w = (Throw e, w).
Proof.
  intros Hstate. unfold tick.
  destruct (Number_isInteger value); cbn [negb]; [|eexists; reflexivity].
  destruct (lt value (num 1)); [eexists; reflexivity|].
  run_primitives. rewrite (bool_decide_eq_false_2 _ Hstate). eexists. reflexivity.
Qed.

(** What [stop] does to a running bar on a terminal. *)
Lemma stop_running (w : World) :
  state (bar w) = RUNNING →
  isTTY (bar w) = true →
  ∃ w',
    stop w = (Return tt, w')
    ∧ bar w' = set_state STOPPED (bar w)
    ∧ intervals (host w')
      = match etaUpdateInterval (bar w) with
        | Some t => intervals (host w) ∖ {[ t ]}
        | None => intervals (host w)
        end
    ∧ listeners (host w') = remove_last SIGINT (remove_last EXIT (listeners (host w)))
    ∧ stdin_flowing (host w') = false
    ∧ last (written (host w')) = Some (Write cursorShow).
Proof.
  intros Hstate Htty. unfold stop, showCursor. run_primitives.
  rewrite Hstate, Htty. cbn [negb orb].
  rewrite bool_decide_eq_false_2 by discriminate.
  rewrite bool_decide_eq_false_2 by discriminate.
  destruct (etaUpdateInterval (bar w)); cbn;
    destruct (clearAfterStop (bar w)); cbn;
    try destruct (drawAtBottom (bar w)); cbn;
    (eexists; split; [reflexivity|]); cbn; rewrite ?last_snoc; repeat split.
Qed.

Context (ls : list ProcessEvent) (flowing : bool) (armed : gset nat) (b : ProgressBar).

Lemma set_up_kept_by_redraw :
  keeps (set_up ls flowing armed b) refresh.
Proof.
  apply keeps_refresh; unfold set_up; cbn; intros; try tauto.
  destruct H as (? & ? & Hsub & ?). repeat split; try tauto.
  apply difference_within, Hsub.
Qed.

Lemma set_up_kept (c : Call) :
  between_start_and_stop c → keeps (set_up ls flowing armed b) (run_call c).
Proof.
  intros Hc. destruct c as [|value| |message|t|now]; cbn in Hc; try contradiction;
    cbn [run_call].
  - unfold tick. keeps_steps.
    + apply keeps_assign. unfold set_up. cbn. tauto.
    + apply set_up_kept_by_redraw.
  - apply keeps_log; unfold set_up; cbn; intros; try tauto.
    destruct H as (? & ? & Hsub & ?). repeat split; try tauto.
    apply difference_within, Hsub.
  - apply keeps_fire; unfold set_up; cbn; intros; try tauto.
    destruct H as (? & ? & Hsub & ?). repeat split; try tauto.
    apply difference_within, Hsub.
  - apply keeps_effect. unfold set_up. cbn. tauto.
Qed.

Lemma set_up_kept_by_calls (cs : list Call) :
  Forall between_start_and_stop cs →
  ∀ w, set_up ls flowing armed b w → set_up ls flowing armed b (run_calls cs w).
Proof.
  induction 1 as [|c cs Hc _ IH]; intros w Hw; [exact Hw|].
  change (run_calls (c :: cs) w) with (run_calls cs (after (run_call c) w)).
  apply IH. apply (set_up_kept c Hc w Hw).
Qed.

End Lifecycle.

(** X18. After [stop] on a running bar nothing redraws any more: the
    state is [STOPPED], the interval is cleared so that a pending firing
    does nothing, every [tick] throws and leaves the bar as it is, and
    [log] only prints the message and a line feed; the last thing [stop]
    writes shows the cursor. *)
Theorem stop_ends_redrawing (w : World) (t : nat) :
  state (bar w) = RUNNING →
  isTTY (bar w) = true →
  etaUpdateInterval (bar w) = Some t →
  ∃ w',
    stop w = (Return tt, w')
    ∧ state (bar w') = STOPPED
    ∧ _progress (bar w') = _progress (bar w)
    ∧ (t ∉ intervals (host w'))
    ∧ fire t w' = (Return tt, w')
    ∧ (∀ value, ∃ e, tick value w' = (Throw e, w'))
    ∧ (∀ message, ∃ w'',
         log message w' = (Return tt, w'')
         ∧ bar w'' = bar w'
         ∧ written (host w'')
           = (written (host w') ++ [Write message; Write (String (ascii_of_nat 10) "")])%list)
    ∧ last (written (host w')) = Some (Write cursorShow).
Proof.
  intros Hstate Htty Ht.
  destruct (stop_running w Hstate Htty) as (w' & Hstop & Hbar & Hint & _ & _ & Hlast).
  rewrite Ht in Hint.
  assert (Hgone : t ∉ intervals (host w')).
  { rewrite Hint. apply not_elem_of_difference. right. apply elem_of_singleton.
    reflexivity. }
  assert (Hstate' : state (bar w') = STOPPED) by (rewrite Hbar; reflexivity).
  assert (Htty' : isTTY (bar w') = true) by (rewrite Hbar; exact Htty).
  assert (Hp' : _progress (bar w') = _progress (bar w)) by (rewrite Hbar; reflexivity).
  exists w'. split; [exact Hstop|].
  split; [exact Hstate'|]. split; [exact Hp'|]. split; [exact Hgone|].
  split.
  { unfold fire. run_primitives. rewrite (bool_decide_eq_false_2 _ Hgone). reflexivity. }
  split.
  { intros value. apply tick_not_running. rewrite Hstate'. discriminate. }
  split; [|exact Hlast].
  intros message. unfold log. run_primitives. rewrite Hstate', Htty'.
  rewrite bool_decide_eq_false_2 by discriminate. cbn.
  eexists. split; [reflexivity|]. cbn.
  rewrite <- app_assoc. split; reflexivity.
Qed.

Lemma stop_ends_redrawing_witness :
  ∃ w',
    stop (after start (new_bar 10 (Some 40) true)) = (Return tt, w')
    ∧ state (bar w') = STOPPED
    ∧ _progress (bar w') = _progress (bar (after start (new_bar 10 (Some 40) true)))
    ∧ (0%nat ∉ intervals (host w'))
    ∧ fire 0 w' = (Return tt, w')
    ∧ (∀ value, ∃ e, tick value w' = (Throw e, w'))
    ∧ (∀ message, ∃ w'',
         log message w' = (Return tt, w'')
         ∧ bar w'' = bar w'
         ∧ written (host w'')
           = (written (host w') ++ [Write message; Write (String (ascii_of_nat 10) "")])%list)
    ∧ last (written (host w')) = Some (Write cursorShow).
Proof.
  apply (stop_ends_redrawing (after start (new_bar 10 (Some 40) true)) 0);
    vm_compute; reflexivity.
Defined.

(** X19. What [start] sets up, [stop] takes down, whatever [tick] and
    [log] calls, interval firings and clock changes come in between: the
    process listeners are those from before [start], the input stream is
    paused, the interval that [start] armed is cleared and no other
    interval is left armed that was not armed before. *)
Theorem start_then_stop_restores (w : World) (cs : list Call) :
  state (bar w) = READY →
  isTTY (bar w) = true →
  Forall between_start_and_stop cs →
  ∃ w',
    stop (run_calls cs (after start w)) = (Return tt, w')
    ∧ state (bar w') = STOPPED
    ∧ listeners (host w') = listeners (host w)
    ∧ stdin_flowing (host w') = false
    ∧ (next_handle (host w) ∉ intervals (host w'))
    ∧ intervals (host w') ⊆ intervals (host w).
Proof.
  intros Hstate Htty Hcs.
  set (t := next_handle (host w)).
  set (w1 := after start w).
  assert (Hstart :
    set_up (listeners (host w) ++ [SIGINT; EXIT])%list true ({[ t ]} ∪ intervals (host w))
           (set_etaUpdateInterval (Some t) (set_state RUNNING (bar w))) w1
    ∧ isTTY (bar w1) = true).
  { unfold w1, after, start, hideCursor. run_primitives.
    rewrite (bool_decide_eq_true_2 _ Hstate), Htty. cbn [negb]. cbn beta iota.
    rewrite EtaTracker_new_120. cbn.
    unfold set_up. cbn. rewrite Htty. repeat split. reflexivity. }
  destruct Hstart as [Hup Htty1].
  pose proof (set_up_kept_by_calls _ _ _ _ cs Hcs w1 Hup)
    as (Hls & Hfl & Hint & Hst & Hty & Hiv & _).
  cbn [state isTTY etaUpdateInterval set_etaUpdateInterval set_state] in Hst, Hty, Hiv.
  rewrite Htty in Hty.
  destruct (stop_running (run_calls cs w1) Hst Hty)
    as (w' & Hstop & Hbar & Hint' & Hls' & Hfl' & _).
  rewrite Hiv in Hint'. rewrite Hls in Hls'.
  exists w'. split; [exact Hstop|]. rewrite Hbar. cbn [state set_state].
  split; [reflexivity|]. split.
  { rewrite Hls'.
    change (listeners (host w) ++ [SIGINT; EXIT])%list
      with (listeners (host w) ++ SIGINT :: [EXIT])%list.
    replace (listeners (host w) ++ SIGINT :: [EXIT])%list
      with ((listeners (host w) ++ [SIGINT]) ++ EXIT :: [])%list
      by (rewrite <- app_assoc; reflexivity).
    rewrite remove_last_app by apply not_elem_of_nil.
    rewrite app_nil_r, remove_last_app by apply not_elem_of_nil.
    apply app_nil_r. }
  split; [exact Hfl'|]. rewrite Hint'. split.
  - apply not_elem_of_difference. right. apply elem_of_singleton. reflexivity.
  - intros x Hx. apply elem_of_difference in Hx as [Hx Hne].
    apply Hint, elem_of_union in Hx as [Hx|Hx]; [contradiction|exact Hx].
Qed.

Lemma start_then_stop_restores_witness :
  ∃ w',
    stop (run_calls [call_tick (num 3); call_log "hello"; interval_fires 0;
                     time_passes 2000; call_tick (num 7)]
                    (after start (new_bar 10 (Some 40) true)))
    = (Return tt, w')
    ∧ state (bar w') = STOPPED
    ∧ listeners (host w') = listeners (host (new_bar 10 (Some 40) true))
    ∧ stdin_flowing (host w') = false
    ∧ (next_handle (host (new_bar 10 (Some 40) true)) ∉ intervals (host w'))
    ∧ intervals (host w') ⊆ intervals (host (new_bar 10 (Some 40) true)).
Proof.
  apply (start_then_stop_restores (new_bar 10 (Some 40) true)
           [call_tick (num 3); call_log "hello"; interval_fires 0;
            time_passes 2000; call_tick (num 7)]).
  - vm_compute. reflexivity.
  - vm_compute. reflexivity.
  - repeat constructor.
Defined.

(** ** Logging while the bar runs *)

Section Logging.
Local Open Scope list_scope.

Lemma texts_app (l1 l2 : list TermOp) : texts (l1 ++ l2) = texts l1 ++ texts l2.
Proof. unfold texts. apply omap_app. Qed.

Lemma running_host (w : World) (h : Host) :
  running w → running (mkWorld (bar w) h).
Proof. unfold running. cbn. tauto. Qed.

End Logging.

(** X20. [log] on a running bar writes the message once and redraws the
    bar once, and leaves the progress and the state alone.  With
    [tryNotToBlink] on a bar that is not at the bottom the new bar is
    written first and the message after it; in every other mode the
    message is written first and the bar after it. *)
Theorem log_while_running (w : World) (message : string) :
  running w →
  MIN_BAR_WIDTH ≤ width_of w →
  ∃ w' line ops,
    log message w = (Return tt, w')
    ∧ frame (bar w') = frame (bar w)
    ∧ written (host w') = (written (host w) ++ ops)%list
    ∧ width_of w ≤ Z.of_nat (String.length line)
    ∧ texts ops
      = if tryNotToBlink (bar w) then
          if drawAtBottom (bar w) then
            ([String (ascii_of_nat 10) ""; message]
               ++ drawn_texts (bar w) (host w) line)%list
          else
            ([String (ascii_of_nat 10) ""]
               ++ drawn_texts (bar w) (host w) line ++ [message])%list
        else
          ([message; String (ascii_of_nat 10) ""]
             ++ drawn_texts (bar w) (host w) line)%list.
Proof.
  intros Hrun Hw.
  pose proof Hrun as (Hstate & Htty & _).
  unfold log. run_primitives.
  rewrite Htty, (bool_decide_eq_true_2 _ Hstate). cbn [negb orb].
  destruct (drawAtBottom (bar w)) eqn:Hbottom, (tryNotToBlink (bar w)) eqn:Hblink;
    match goal with |- context [refresh ?x] =>
      destruct (refresh_exact x (running_host w _ Hrun) Hw)
        as (w' & line & ops & Hrefresh & Hframe & _ & Hlow & _ & Hwritten & _ & Htexts);
      rewrite Hrefresh
    end;
    cbn [bar host] in *; unfold drawn_texts in *; cbn in Htexts, Hwritten;
    rewrite ?Hbottom in *.
  - exists w', line,
      ([Write (String (ascii_of_nat 10) ""); MoveCursor 0 (-1); Write message;
        ClearLine 1; CursorTo 0 None; MoveCursor 0 1] ++ ops)%list.
    split; [reflexivity|]. split; [exact Hframe|].
    split; [rewrite Hwritten, <- !app_assoc; reflexivity|].
    split; [exact Hlow|]. rewrite texts_app, Htexts. reflexivity.
  - exists w', line,
      ([Write message; ClearLine 1; Write (String (ascii_of_nat 10) "")] ++ ops)%list.
    split; [reflexivity|]. split; [exact Hframe|].
    split; [rewrite Hwritten, <- !app_assoc; reflexivity|].
    split; [exact Hlow|]. rewrite texts_app, Htexts. reflexivity.
  - eexists _, line,
      ([Write (String (ascii_of_nat 10) "")] ++ ops
         ++ [MoveCursor 0 (-1); CursorTo 0 None; Write message; ClearLine 1;
             MoveCursor 0 1])%list.
    split; [reflexivity|]. cbn. split; [exact Hframe|].
    split; [rewrite Hwritten, <- !app_assoc; reflexivity|].
    split; [exact Hlow|]. rewrite !texts_app, Htexts. reflexivity.
  - exists w', line,
      ([CursorTo 0 None; Write message; ClearLine 1;
        Write (String (ascii_of_nat 10) "")] ++ ops)%list.
    split; [reflexivity|]. split; [exact Hframe|].
    split; [rewrite Hwritten, <- !app_assoc; reflexivity|].
    split; [exact Hlow|]. rewrite texts_app, Htexts. reflexivity.
Qed.

Lemma log_while_running_witness :
  ∃ w' line ops,
    log "hello" (after start (new_bar 10 (Some 40) true)) = (Return tt, w')
    ∧ frame (bar w') = frame (bar (after start (new_bar 10 (Some 40) true)))
    ∧ written (host w')
      = (written (host (after start (new_bar 10 (Some 40) true))) ++ ops)%list
    ∧ width_of (after start (new_bar 10 (Some 40) true)) ≤ Z.of_nat (String.length line)
    ∧ texts ops
      = if tryNotToBlink (bar (after start (new_bar 10 (Some 40) true))) then
          if drawAtBottom (bar (after start (new_bar 10 (Some 40) true))) then
            ([String (ascii_of_nat 10) ""; "hello"]
               ++ drawn_texts (bar (after start (new_bar 10 (Some 40) true)))
                              (host (after start (new_bar 10 (Some 40) true))) line)%list
          else
            ([String (ascii_of_nat 10) ""]
               ++ drawn_texts (bar (after start (new_bar 10 (Some 40) true)))
                              (host (after start (new_bar 10 (Some 40) true))) line
               ++ ["hello"])%list
        else
          (["hello"; String (ascii_of_nat 10) ""]
             ++ drawn_texts (bar (after start (new_bar 10 (Some 40) true)))
                            (host (after start (new_bar 10 (Some 40) true))) line)%list.
Proof.
  apply (log_while_running (after start (new_bar 10 (Some 40) true)) "hello").
  - unfold running. vm_compute. repeat split; try discriminate.
    eexists _, _. split; reflexivity.
  - vm_compute. discriminate.
Defined.

(** ** When an estimate is computed *)

Section Estimating.

(** The first redraw with room for the ETA section asks the tracker. *)
Lemma refresh_asks_tracker (w : World) (calculator : EtaTracker) (r : Sample) :
  MIN_BAR_WIDTH ≤ width_of w →
  7 ≤ width_of w - MIN_BAR_WIDTH →
  latestEta (bar w) = None →
  etaCalculator (bar w) = Some calculator →
  oldest (slidingWindow calculator) = Some r →
  ∃ e,
    updateProgressAndGetLatestEta (clock (host w)) (_progress (bar w))
      (Some (total (bar w))) calculator
    = Return (e, {| slidingWindow :=
                      push {| progress := _progress (bar w); time := clock (host w) |}
                           (slidingWindow calculator) |})
    ∧ refresh w
      = refresh
          (mkWorld
             (set_latestEta (Some e)
                (set_etaCalculator
                   (Some {| slidingWindow :=
                              push {| progress := _progress (bar w);
                                      time := clock (host w) |}
                                   (slidingWindow calculator) |})
                   (bar w)))
             (host w)).
Proof.
  intros Hw Hwide Hnone Hcalc Hold.
  destruct (computeLatestEta_spec w calculator r Hcalc Hold) as (e & Hupdate & Hcompute).
  exists e. split; [exact Hupdate|].
  unfold refresh. run_primitives.
  change (default (columns (host w)) (fixedOutputWidth (bar w))) with (width_of w).
  cbn [bar host set_latestEta set_etaCalculator fixedOutputWidth latestEta _progress total].
  change (default (columns (host w)) (fixedOutputWidth (bar w))) with (width_of w).
  destruct (Z.ltb_spec (width_of w) MIN_BAR_WIDTH) as [?|_]; [lia|].
  cbn beta.
  destruct (Z.ltb_spec (width_of w - MIN_BAR_WIDTH) 7) as [?|_]; [lia|].
  rewrite Hnone, Hcompute.
  cbn [bar host set_latestEta set_etaCalculator fixedOutputWidth latestEta _progress total].
  reflexivity.
Qed.

Lemma running_with_estimate (w : World) (e : Estimate) (calculator' : EtaTracker) :
  running w →
  is_Some (oldest (slidingWindow calculator')) →
  running (mkWorld (set_latestEta (Some e) (set_etaCalculator (Some calculator') (bar w)))
                   (host w)).
Proof.
  intros (Hstate & Htty & Ht & Hp & _) [r' Hr']. unfold running. cbn.
  repeat split; try assumption; try lia. eauto.
Qed.

End Estimating.

(** X21. A firing of the armed interval asks the tracker exactly once:
    the bar's estimate becomes the one the tracker returns for the
    current progress, total and time, and the window receives that one
    sample, although the redraw that follows could ask as well. *)
Theorem fire_samples_once (w : World) (t : nat) (calculator : EtaTracker) :
  running w →
  MIN_BAR_WIDTH ≤ width_of w →
  t ∈ intervals (host w) →
  etaCalculator (bar w) = Some calculator →
  ∃ w' e,
    fire t w = (Return tt, w')
    ∧ updateProgressAndGetLatestEta (clock (host w)) (_progress (bar w))
        (Some (total (bar w))) calculator
      = Return (e, {| slidingWindow :=
                        push {| progress := _progress (bar w); time := clock (host w) |}
                             (slidingWindow calculator) |})
    ∧ bar w'
      = set_latestEta (Some e)
          (set_etaCalculator
             (Some {| slidingWindow :=
                        push {| progress := _progress (bar w); time := clock (host w) |}
                             (slidingWindow calculator) |})
             (bar w)).
Proof.
  intros Hrun Hw Ht Hcalc.
  pose proof Hrun as (_ & _ & _ & _ & calculator0 & r & Hcalc0 & Hold).
  rewrite Hcalc in Hcalc0. inversion Hcalc0; subst calculator0. clear Hcalc0.
  destruct (computeLatestEta_spec w calculator r Hcalc Hold) as (e & Hupdate & Hcompute).
  unfold fire, etaUpdateCallback. run_primitives.
  rewrite (bool_decide_eq_true_2 _ Ht), Hcompute.
  match goal with |- context [refresh ?x] => set (w1 := x) end.
  assert (Hrun1 : running w1).
  { apply running_with_estimate; [exact Hrun|].
    apply push_keeps_oldest. rewrite Hold. eexists. reflexivity. }
  destruct (refresh_exact w1 Hrun1 Hw) as (w' & line & ops & Hrefresh & _ & Hsame & _).
  exists w', e. rewrite Hrefresh. split; [reflexivity|]. split; [exact Hupdate|].
  apply Hsame. discriminate.
Qed.

Lemma fire_samples_once_witness :
  ∃ w' e,
    fire 0 (at_time 1000 (after start (new_bar 10 (Some 40) true))) = (Return tt, w')
    ∧ updateProgressAndGetLatestEta
        (clock (host (at_time 1000 (after start (new_bar 10 (Some 40) true)))))
        (_progress (bar (at_time 1000 (after start (new_bar 10 (Some 40) true)))))
        (Some (total (bar (at_time 1000 (after start (new_bar 10 (Some 40) true))))))
        {| slidingWindow := mkQueue 120 [mkSample 0 0] 0 |}
      = Return (e, {| slidingWindow :=
                        push {| progress := _progress (bar (at_time 1000 (after start (new_bar 10 (Some 40) true))));
                                time := clock (host (at_time 1000 (after start (new_bar 10 (Some 40) true)))) |}
                             (slidingWindow {| slidingWindow := mkQueue 120 [mkSample 0 0] 0 |}) |})
    ∧ bar w'
      = set_latestEta (Some e)
          (set_etaCalculator
             (Some {| slidingWindow :=
                        push {| progress := _progress (bar (at_time 1000 (after start (new_bar 10 (Some 40) true))));
                                time := clock (host (at_time 1000 (after start (new_bar 10 (Some 40) true)))) |}
                             (slidingWindow {| slidingWindow := mkQueue 120 [mkSample 0 0] 0 |}) |})
             (bar (at_time 1000 (after start (new_bar 10 (Some 40) true))))).
Proof.
  apply (fire_samples_once (at_time 1000 (after start (new_bar 10 (Some 40) true))) 0
           {| slidingWindow := mkQueue 120 [mkSample 0 0] 0 |}).
  - unfold running. vm_compute. repeat split; try discriminate.
    eexists _, _. split; reflexivity.
  - vm_compute. discriminate.
  - assert (H : bool_decide
                  (0%nat ∈ intervals (host (at_time 1000 (after start (new_bar 10 (Some 40) true)))))
                = true) by (vm_compute; reflexivity).
    apply bool_decide_eq_true in H. exact H.
  - vm_compute. reflexivity.
Defined.

(** X22. A redraw of a running bar that has no estimate yet asks the
    tracker exactly when the output has room for the ETA section, that
    is from 23 columns on; on a narrower output it leaves the bar
    without an estimate and the window without a new sample. *)
Theorem refresh_first_estimate_needs_room (w : World) (calculator : EtaTracker) :
  running w →
  MIN_BAR_WIDTH ≤ width_of w →
  latestEta (bar w) = None →
  etaCalculator (bar w) = Some calculator →
  ∃ w',
    refresh w = (Return tt, w')
    ∧ (width_of w < MIN_BAR_WIDTH + 7 → bar w' = bar w)
    ∧ (MIN_BAR_WIDTH + 7 ≤ width_of w →
       ∃ e,
         updateProgressAndGetLatestEta (clock (host w)) (_progress (bar w))
           (Some (total (bar w))) calculator
         = Return (e, {| slidingWindow :=
                           push {| progress := _progress (bar w); time := clock (host w) |}
                                (slidingWindow calculator) |})
         ∧ bar w'
           = set_latestEta (Some e)
               (set_etaCalculator
                  (Some {| slidingWindow :=
                             push {| progress := _progress (bar w);
                                     time := clock (host w) |}
                                  (slidingWindow calculator) |})
                  (bar w))).
Proof.
  intros Hrun Hw Hnone Hcalc.
  pose proof Hrun as (_ & _ & Ht & Hp & calculator0 & r & Hcalc0 & Hold).
  rewrite Hcalc in Hcalc0. inversion Hcalc0; subst calculator0. clear Hcalc0.
  destruct (Z.lt_ge_cases (width_of w) (MIN_BAR_WIDTH + 7)) as [Hnarrow|Hwide].
  - destruct (refresh_sections_bounds w (mkEstimate (num 0) (num 0)) Hw Ht Hp)
      as (v & Hrefresh & Hv & Hlow & _); [lia|].
    destruct (render_exact v w Hv Ht Hp Hlow) as (w' & line & ops & Hrender & Hbar & _).
    exists w'. rewrite Hrefresh, Hrender. split; [reflexivity|].
    split; [intros _; exact Hbar|lia].
  - destruct (refresh_asks_tracker w calculator r Hw ltac:(lia) Hnone Hcalc Hold)
      as (e & Hupdate & Hfirst).
    match type of Hfirst with _ = refresh ?x => set (w1 := x) in * end.
    assert (Hrun1 : running w1).
    { apply running_with_estimate; [exact Hrun|].
      apply push_keeps_oldest. rewrite Hold. eexists. reflexivity. }
    destruct (refresh_exact w1 Hrun1 Hw) as (w' & line & ops & Hrefresh & _ & Hsame & _).
    exists w'. rewrite Hfirst, Hrefresh. split; [reflexivity|].
    split; [lia|]. intros _. exists e. split; [exact Hupdate|].
    apply Hsame. discriminate.
Qed.

Lemma refresh_first_estimate_needs_room_witness :
  ∃ w',
    refresh (after start (new_bar 10 (Some 20) true)) = (Return tt, w')
    ∧ (width_of (after start (new_bar 10 (Some 20) true)) < MIN_BAR_WIDTH + 7 →
       bar w' = bar (after start (new_bar 10 (Some 20) true)))
    ∧ (MIN_BAR_WIDTH + 7 ≤ width_of (after start (new_bar 10 (Some 20) true)) →
       ∃ e,
         updateProgressAndGetLatestEta
           (clock (host (after start (new_bar 10 (Some 20) true))))
           (_progress (bar (after start (new_bar 10 (Some 20) true))))
           (Some (total (bar (after start (new_bar 10 (Some 20) true)))))
           {| slidingWindow := mkQueue 120 [mkSample 0 0] 0 |}
         = Return (e, {| slidingWindow :=
                           push {| progress := _progress (bar (after start (new_bar 10 (Some 20) true)));
                                   time := clock (host (after start (new_bar 10 (Some 20) true))) |}
                                (slidingWindow {| slidingWindow := mkQueue 120 [mkSample 0 0] 0 |}) |})
         ∧ bar w'
           = set_latestEta (Some e)
               (set_etaCalculator
                  (Some {| slidingWindow :=
                             push {| progress := _progress (bar (after start (new_bar 10 (Some 20) true)));
                                     time := clock (host (after start (new_bar 10 (Some 20) true))) |}
                                  (slidingWindow {| slidingWindow := mkQueue 120 [mkSample 0 0] 0 |}) |})
                  (bar (after start (new_bar 10 (Some 20) true))))).
Proof.
  apply (refresh_first_estimate_needs_room (after start (new_bar 10 (Some 20) true))
           {| slidingWindow := mkQueue 120 [mkSample 0 0] 0 |}).
  - unfold running. vm_compute. repeat split; try discriminate.
    eexists _, _. split; reflexivity.
  - vm_compute. discriminate.
  - vm_compute. reflexivity.
  - vm_compute. reflexivity.
Defined.

(** ** The width of the line, whatever the estimate *)

Section LineWidth.

Lemma div_not_negative (a b : number) :
  not_negative a → not_negative b → not_negative (div a b).
Proof.
  destruct a as [|s|x], b as [|s'|y]; cbn [not_negative div]; intros Ha Hb;
    try exact I.
  - subst s. cbn. apply Qltb_false. exact Hb.
  - apply Qle_refl.
  - destruct (Qeq_bool y 0) eqn:Ey.
    + destruct (Qeq_bool x 0); [exact I|]. cbn. apply Qltb_false, Ha.
    + cbn. apply Qle_shift_div_l; [|rewrite Qmult_0_l; exact Ha].
      apply Qle_lt_or_eq in Hb as [H|H]; [exact H|].
      exfalso. symmetry in H. apply Qeq_bool_iff in H. congruence.
Qed.

Lemma num_not_negative (z : Z) : 0 ≤ z → not_negative (num z).
Proof.
  intros Hz. cbn. change 0%Q with (inject_Z 0). rewrite <- Zle_Qle. exact Hz.
Qed.

(** The estimate that a redraw asks the tracker for is not negative when
    neither the clock nor the progress has gone back. *)
Lemma first_estimate_not_negative
    (now cur total' : Z) (t t' : EtaTracker) (r : Sample) (e : Estimate) :
  oldest (slidingWindow t) = Some r →
  time r ≤ now → progress r ≤ cur → cur ≤ total' →
  updateProgressAndGetLatestEta now cur (Some total') t = Return (e, t') →
  not_negative (eta e) ∧ not_negative (speed e).
Proof.
  intros Hold Htime Hprogress Htotal Hupdate.
  unfold updateProgressAndGetLatestEta in Hupdate. rewrite Hold in Hupdate.
  cbv zeta in Hupdate.
  set (sp := div (mul (num (cur - progress r)) (num 1000)) (num (now - time r))) in *.
  set (et := if total_is (Some total') cur then num 0
             else div (num (total' - cur)) sp) in *.
  assert (He : e = {| eta := et; speed := sp |}) by congruence.
  rewrite He. cbn [eta speed].
  assert (Hspeed : not_negative sp).
  { apply div_not_negative; [|apply num_not_negative; lia].
    unfold mul, num. rewrite <- inject_Z_mult.
    apply (num_not_negative ((cur - progress r) * 1000)). lia. }
  split; [|exact Hspeed]. unfold et.
  destruct (total_is (Some total') cur); [apply (num_not_negative 0); lia|].
  apply div_not_negative; [apply num_not_negative; lia|exact Hspeed].
Qed.

End LineWidth.

(** X15. The line a redraw writes is at most two characters longer than
    the output is wide - one character for a duration of seven
    characters under the "eta" label and one for a speed of eleven -
    on a bar whose total is a safe integer, so that its digits are
    printed in full, when the estimate at hand is not negative or, the
    redraw being the one that asks the tracker, when neither the clock
    nor the progress has gone back behind the oldest sample. *)
Theorem refresh_line_at_most_two_over (w : World) :
  running w →
  MIN_BAR_WIDTH ≤ width_of w →
  total (bar w) ≤ MAX_SAFE_INTEGER →
  (∀ e, latestEta (bar w) = Some e → not_negative (eta e) ∧ not_negative (speed e)) →
  (∀ calculator r,
     latestEta (bar w) = None →
     etaCalculator (bar w) = Some calculator →
     oldest (slidingWindow calculator) = Some r →
     time r ≤ clock (host w) ∧ progress r ≤ _progress (bar w)) →
  ∃ w' line ops,
    refresh w = (Return tt, w')
    ∧ written (host w') = (written (host w) ++ ops)%list
    ∧ texts ops = drawn_texts (bar w) (host w) line
    ∧ width_of w ≤ Z.of_nat (String.length line) ≤ width_of w + 2.
Proof.
  intros Hrun Hw Hsafe Hathand Hfresh.
  pose proof Hrun as (_ & _ & Ht & Hp & calculator & r & Hcalc & Hold).
  destruct (refresh_exact w Hrun Hw)
    as (w' & line & ops & Hrefresh & _ & Hsame & Hlow & Hup & Hwritten & _ & Htexts).
  exists w', line, ops.
  split; [exact Hrefresh|]. split; [exact Hwritten|]. split; [exact Htexts|].
  split; [exact Hlow|]. apply Hup. intros e He.
  assert (Hnn : not_negative (eta e) ∧ not_negative (speed e));
    [|apply not_negative_fits; tauto].
  destruct (latestEta (bar w)) as [e0|] eqn:Hlatest.
  - (* the estimate at hand is shown *)
    rewrite (Hsame ltac:(discriminate)), Hlatest in He. inversion He; subst e0.
    apply (Hathand e eq_refl).
  - destruct (Hfresh calculator r eq_refl Hcalc Hold) as [Htime Hprogress].
    destruct (Z.lt_ge_cases (width_of w) (MIN_BAR_WIDTH + 7)) as [Hnarrow|Hwide].
    + (* no room for an estimate: none is computed *)
      destruct (refresh_sections_bounds w (mkEstimate (num 0) (num 0)) Hw Ht Hp)
        as (v & Hrefresh0 & Hv & Hlow0 & _); [lia|].
      destruct (render_exact v w Hv Ht Hp Hlow0) as (w0 & line0 & ops0 & Hrender & Hbar & _).
      rewrite Hrefresh0, Hrender in Hrefresh. inversion Hrefresh; subst w0.
      rewrite Hbar, Hlatest in He. discriminate.
    + (* the tracker is asked *)
      destruct (refresh_asks_tracker w calculator r Hw ltac:(lia) Hlatest Hcalc Hold)
        as (e1 & Hupdate & Hfirst).
      match type of Hfirst with _ = refresh ?x => set (w1 := x) in * end.
      assert (Hrun1 : running w1).
      { apply running_with_estimate; [exact Hrun|].
        apply push_keeps_oldest. rewrite Hold. eexists. reflexivity. }
      destruct (refresh_exact w1 Hrun1 Hw) as (w2 & line2 & ops2 & Hrefresh2 & _ & Hsame2 & _).
      rewrite Hfirst, Hrefresh2 in Hrefresh. inversion Hrefresh; subst w2.
      rewrite (Hsame2 ltac:(discriminate)) in He. cbn in He. inversion He; subst e1.
      apply (first_estimate_not_negative _ _ _ _ _ r e Hold Htime Hprogress
               (proj2 Hp) Hupdate).
Qed.

Lemma refresh_line_at_most_two_over_witness :
  ∃ w' line ops,
    refresh (at_time 2000 (after start (new_bar 10 (Some 80) true))) = (Return tt, w')
    ∧ written (host w')
      = (written (host (at_time 2000 (after start (new_bar 10 (Some 80) true)))) ++ ops)%list
    ∧ texts ops
      = drawn_texts (bar (at_time 2000 (after start (new_bar 10 (Some 80) true))))
                    (host (at_time 2000 (after start (new_bar 10 (Some 80) true)))) line
    ∧ width_of (at_time 2000 (after start (new_bar 10 (Some 80) true)))
        ≤ Z.of_nat (String.length line)
        ≤ width_of (at_time 2000 (after start (new_bar 10 (Some 80) true))) + 2.
Proof.
  apply (refresh_line_at_most_two_over
           (at_time 2000 (after start (new_bar 10 (Some 80) true)))).
  - unfold running. vm_compute. repeat split; try discriminate.
    eexists _, _. split; reflexivity.
  - vm_compute. discriminate.
  - vm_compute. discriminate.
  - intros e He. vm_compute in He. discriminate He.
  - intros calculator r _ Hcalc Hold.
    vm_compute in Hcalc. inversion Hcalc; subst calculator.
    vm_compute in Hold. inversion Hold; subst r.
    vm_compute. split; discriminate.
Defined.

(** ** A bar that does not draw *)

Section Silent.
Local Open Scope list_scope.

Lemma not_tty_call_silent (c : Call) (w : World) :
  isTTY (bar w) = false → state (bar w) = READY → intervals (host w) = ∅ →
  bar (after (run_call c) w) = bar w
  ∧ intervals (host (after (run_call c) w)) = ∅
  ∧ listeners (host (after (run_call c) w)) = listeners (host w)
  ∧ written (host (after (run_call c) w)) = written (host w) ++ logged [c].
Proof.
  intros Htty Hstate Hint. unfold after, logged.
  destruct c as [|value| |message|t|now]; cbn [run_call flat_map].
  - unfold start. run_primitives.
    rewrite (bool_decide_eq_true_2 _ Hstate), Htty. cbn. rewrite app_nil_r. auto.
  - unfold tick.
    destruct (Number_isInteger value); cbn [negb];
      [|cbn; rewrite app_nil_r; auto].
    destruct (lt value (num 1)); [cbn; rewrite app_nil_r; auto|].
    run_primitives.
    rewrite bool_decide_eq_false_2 by (rewrite Hstate; discriminate).
    cbn. rewrite app_nil_r. auto.
  - unfold stop. run_primitives. rewrite (bool_decide_eq_true_2 _ Hstate).
    cbn. rewrite app_nil_r. auto.
  - unfold log. run_primitives. rewrite Htty. cbn.
    rewrite <- app_assoc. auto.
  - unfold fire. run_primitives. rewrite Hint.
    rewrite bool_decide_eq_false_2 by apply not_elem_of_empty.
    cbn. rewrite app_nil_r. auto.
  - cbn. rewrite app_nil_r. auto.
Qed.

Lemma logged_cons (c : Call) (cs : list Call) : logged (c :: cs) = logged [c] ++ logged cs.
Proof. unfold logged. cbn [flat_map]. rewrite app_nil_r. reflexivity. Qed.

End Silent.

(** X23. On a stream that is not a terminal the bar is silent and
    inert: whatever is called, the stream receives nothing but the
    logged messages, each followed by a line feed; no interval is armed,
    no listener registered, and the bar itself - its state and its
    progress - stays as constructed. *)
Theorem not_tty_bar_is_silent
    (total : number) (options : Options) (h : Host) (b : ProgressBar) (cs : list Call) :
  ProgressBar_new total options h = Return b →
  stream_isTTY h = false →
  intervals h = ∅ →
  bar (run_calls cs (mkWorld b h)) = b
  ∧ written (host (run_calls cs (mkWorld b h))) = (written h ++ logged cs)%list
  ∧ intervals (host (run_calls cs (mkWorld b h))) = ∅
  ∧ listeners (host (run_calls cs (mkWorld b h))) = listeners h.
Proof.
  intros Hnew Htty Hint.
  destruct (ProgressBar_new_initial _ _ _ _ Hnew) as [Hb Hstate].
  rewrite Htty in Hb.
  assert (Hall : ∀ w, isTTY (bar w) = false → state (bar w) = READY →
    intervals (host w) = ∅ →
    bar (run_calls cs w) = bar w
    ∧ written (host (run_calls cs w)) = (written (host w) ++ logged cs)%list
    ∧ intervals (host (run_calls cs w)) = ∅
    ∧ listeners (host (run_calls cs w)) = listeners (host w)).
  { induction cs as [|c cs IH]; intros w H1 H2 H3.
    - cbn. rewrite app_nil_r. auto.
    - change (run_calls (c :: cs) w) with (run_calls cs (after (run_call c) w)).
      destruct (not_tty_call_silent c w H1 H2 H3) as (Hbar & Hint' & Hls & Hwr).
      destruct (IH (after (run_call c) w)) as (Hbar2 & Hwr2 & Hint2 & Hls2);
        [rewrite Hbar; exact H1|rewrite Hbar; exact H2|exact Hint'|].
      rewrite (logged_cons c cs), Hbar2, Hwr2, Hint2, Hls2, Hbar, Hwr, Hls, <- app_assoc.
      auto. }
  apply (Hall (mkWorld b h)); assumption.
Qed.

Lemma not_tty_bar_is_silent_witness :
  bar (run_calls [call_start; call_tick (num 1); call_log "hello"; call_stop]
                 (mkWorld (bar (new_bar 10 None false)) (stream false)))
  = bar (new_bar 10 None false)
  ∧ written (host (run_calls [call_start; call_tick (num 1); call_log "hello"; call_stop]
                             (mkWorld (bar (new_bar 10 None false)) (stream false))))
    = (written (stream false)
         ++ logged [call_start; call_tick (num 1); call_log "hello"; call_stop])%list
  ∧ intervals (host (run_calls [call_start; call_tick (num 1); call_log "hello"; call_stop]
                               (mkWorld (bar (new_bar 10 None false)) (stream false))))
    = ∅
  ∧ listeners (host (run_calls [call_start; call_tick (num 1); call_log "hello"; call_stop]
                               (mkWorld (bar (new_bar 10 None false)) (stream false))))
    = listeners (stream false).
Proof.
  apply (not_tty_bar_is_silent (num 10) (mkOptions None None None None) (stream false)).
  - vm_compute. reflexivity.
  - reflexivity.
  - reflexivity.
Defined.

(** X24. On an output of fewer than [MIN_BAR_WIDTH] columns a redraw
    writes one '#' per column and nothing else: it asks no tracker,
    changes no field of the bar and does not clear the interval, also
    when the bar is complete. *)
Theorem refresh_narrow_only_hashes (w : World) :
  0 ≤ width_of w < MIN_BAR_WIDTH →
  ∃ w' ops,
    refresh w = (Return tt, w')
    ∧ bar w' = bar w
    ∧ intervals (host w') = intervals (host w)
    ∧ written (host w') = (written (host w) ++ ops)%list
    ∧ (∀ d, ClearLine d ∉ ops)
    ∧ texts ops
      = drawn_texts (bar w) (host w) (string_repeat "#" (Z.to_nat (width_of w))).
Proof.
  intros Hw.
  set (line := string_repeat "#" (Z.to_nat (width_of w))).
  assert (Hline : Z.of_nat (String.length line) = width_of w).
  { unfold line. rewrite length_string_repeat. cbn [String.length]. lia. }
  destruct (draw_exact line w ltac:(lia)) as (w' & ops & Hdraw & Hwritten & Hclear & Htexts).
  destruct (draw_spec line w) as (w1 & Hdraw' & Hbar & Hint & _).
  rewrite Hdraw in Hdraw'. inversion Hdraw'; subst w1. clear Hdraw'.
  exists w', ops. split.
  { unfold refresh. run_primitives. fold (width_of w).
    destruct (Z.ltb_spec (width_of w) MIN_BAR_WIDTH) as [_|?]; [|lia].
    rewrite String_repeat_num by lia. exact Hdraw. }
  repeat split; assumption.
Qed.

Lemma refresh_narrow_only_hashes_witness :
  ∃ w' ops,
    refresh narrow_complete_bar = (Return tt, w')
    ∧ bar w' = bar narrow_complete_bar
    ∧ intervals (host w') = intervals (host narrow_complete_bar)
    ∧ written (host w') = (written (host narrow_complete_bar) ++ ops)%list
    ∧ (∀ d, ClearLine d ∉ ops)
    ∧ texts ops
      = drawn_texts (bar narrow_complete_bar) (host narrow_complete_bar)
          (string_repeat "#" (Z.to_nat (width_of narrow_complete_bar))).
Proof.
  apply (refresh_narrow_only_hashes narrow_complete_bar).
  vm_compute. split; [discriminate|reflexivity].
Defined.
